(** * Countdown plugin for the LED matrix: a shallow embedding of [manager.py]

    The development follows the source file top-down: the Python values and
    library functions the plugin relies on, the colour normaliser, the
    fit-size computation, the countdown calculator, and then the stateful
    plugin (filter, rotation, update, display, configuration change,
    cleanup) over an explicit host. *)

From Stdlib Require Import ZArith List String Ascii Bool Lia Floats.
From Stdlib Require Import DecimalString Sorted.
From stdpp Require Import base option list gmap strings.

Local Open Scope string_scope.
Local Open Scope list_scope.
Local Open Scope Z_scope.

(** ** Python values, exceptions and numeric conversions

    Configuration values are loosely typed: [pyval] keeps the run-time type
    the code tests with [isinstance].  A Python [float] is a binary64
    number, modelled by the primitive [float]. *)
Module Py.

#[warnings="-register-all"]
Inductive pyval :=
| VNone
| VBool (b : bool)
| VInt (n : Z)
| VFloat (f : float)
| VStr (s : string)
| VList (l : list pyval)
| VTuple (l : list pyval)
| VDict (d : list (string * pyval)).

(** The exception classes met in the plugin; all of them derive from
    [Exception]. *)
Inductive pyexn :=
| ValueError
| TypeError
| OverflowError
| ZeroDivisionError
| AttributeError
| OSError
| RuntimeError.

Inductive pyresult (A : Type) :=
| Return (a : A)
| Raised (e : pyexn).
Arguments Return {A} a.
Arguments Raised {A} e.

Definition pybind {A B} (r : pyresult A) (k : A -> pyresult B) : pyresult B :=
  match r with
  | Return a => k a
  | Raised e => Raised e
  end.

(** [float(n)] for an [int]: the nearest binary64 number, ties to even
    (exact below 2^53). *)
Definition float_of_int (n : Z) : float :=
  SF2Prim (binary_normalize prec emax n 0 false).

(** [int(f)] for a [float]: truncation toward zero; [ValueError] on a NaN,
    [OverflowError] on an infinity. *)
Definition int_of_float (f : float) : pyresult Z :=
  match Prim2SF f with
  | S754_zero _ => Return 0
  | S754_finite s m e =>
      let a := if 0 <=? e then Z.pos m * 2 ^ e else Z.pos m / 2 ^ (- e) in
      Return (if s then - a else a)
  | S754_infinity _ => Raised OverflowError
  | S754_nan => Raised ValueError
  end.

(** [a / b] on two [int]s (true division): [ZeroDivisionError] on a zero
    divisor, else the quotient of the two converted operands, which is the
    correctly rounded quotient for operands below 2^53. *)
Definition int_truediv (a b : Z) : pyresult float :=
  if b =? 0 then Raised ZeroDivisionError
  else Return (float_of_int a / float_of_int b)%float.

(** [min(a, b)] on floats: the second argument only when it is smaller. *)
Definition float_min (a b : float) : float :=
  if (b <? a)%float then b else a.

End Py.

(** ** Colour normaliser *)
Module Color.
Import Py.

Section ParseColor.

(** Python's [float(text)] on a string is a library function outside the
    plugin: [None] stands for the [ValueError] it raises on text that is
    not a number. *)
Variable float_of_str : string -> option float.

(** The conversion at the head of the loop body: the value bound to [c]
    before the range test. *)
Definition numeric_component (c : pyval) : pyresult pyval :=
  match c with
  | VStr s =>
      match float_of_str s with
      | Some f => pybind (int_of_float f) (fun n => Return (VInt n))
      | None => Raised ValueError
      end
  | VFloat f => pybind (int_of_float f) (fun n => Return (VInt n))
  | VInt _ | VBool _ => Return c          (* [bool] is a subclass of [int] *)
  | _ => Raised ValueError
  end.

(** The integer an [int] object compares as ([True] is 1). *)
Definition int_value (c : pyval) : Z :=
  match c with
  | VInt n => n
  | VBool b => if b then 1 else 0
  | _ => 0
  end.

(** The range test [0 <= c <= 255]. *)
Definition in_byte_range (c : pyval) : bool :=
  (0 <=? int_value c) && (int_value c <=? 255).

(** The [for c in color_value] loop, [color_numeric] threaded through. *)
Fixpoint color_loop (cs : list pyval) (color_numeric : list pyval)
    : pyresult (list pyval) :=
  match cs with
  | [] => Return color_numeric
  | c :: cs' =>
      pybind (numeric_component c) (fun c' =>
        if in_byte_range c'
        then color_loop cs' (color_numeric ++ [c'])
        else Raised ValueError)
  end.

(** [except (ValueError, TypeError)] *)
Definition caught (e : pyexn) : bool :=
  match e with
  | ValueError | TypeError => true
  | _ => false
  end.

Definition parse_sequence (l : list pyval) (default : pyval) : pyresult pyval :=
  if Nat.eqb (List.length l) 3 then
    match color_loop l [] with
    | Return color_numeric => Return (VTuple color_numeric)
    | Raised e => if caught e then Return default else Raised e
    end
  else Return default.

Definition _parse_color (color_value : pyval) (default : pyval) : pyresult pyval :=
  match color_value with
  | VList l => parse_sequence l default
  | VTuple l => parse_sequence l default
  | _ => Return default
  end.

(** The acceptable components: [component c r] when [c] is an integer in
    0..255 (a [bool] counts as 0 or 1), a float whose integer part is, or
    text that [float] reads as such a number; [r] is the integer object
    the triple then holds. *)
Inductive component : pyval -> pyval -> Prop :=
| component_int (n : Z) :
    0 <= n <= 255 -> component (VInt n) (VInt n)
| component_bool (b : bool) :
    component (VBool b) (VBool b)
| component_float (f : float) (n : Z) :
    int_of_float f = Return n -> 0 <= n <= 255 -> component (VFloat f) (VInt n)
| component_str (s : string) (f : float) (n : Z) :
    float_of_str s = Some f -> int_of_float f = Return n -> 0 <= n <= 255 ->
    component (VStr s) (VInt n).

(** A list or tuple of three acceptable components, with the triple kept. *)
Definition accepted (color_value : pyval) (rs : list pyval) : Prop :=
  exists c1 c2 c3 r1 r2 r3,
    (color_value = VList [c1; c2; c3] \/ color_value = VTuple [c1; c2; c3])
    /\ component c1 r1 /\ component c2 r2 /\ component c3 r3
    /\ rs = [r1; r2; r3].

(** The components on which [int(...)] raises [OverflowError]: an infinite
    float, or text read as one. *)
Definition is_overflow {A} (r : pyresult A) : bool :=
  match r with
  | Raised OverflowError => true
  | _ => false
  end.

Definition overflows (c : pyval) : bool :=
  match c with
  | VFloat f => is_overflow (int_of_float f)
  | VStr s =>
      match float_of_str s with
      | Some f => is_overflow (int_of_float f)
      | None => false
      end
  | _ => false
  end.

Definition elements (color_value : pyval) : list pyval :=
  match color_value with
  | VList l | VTuple l => l
  | _ => []
  end.

End ParseColor.

(** A stand-in for [float(text)] on unsigned decimal integers (every other
    text is rejected), used to run examples. *)
Definition decimal_float_of_str (s : string) : option float :=
  let cs := list_ascii_of_string s in
  match cs with
  | [] => None
  | _ :: _ =>
      if forallb (fun c => (48 <=? Z.of_nat (nat_of_ascii c))
                           && (Z.of_nat (nat_of_ascii c) <=? 57)) cs
      then Some (float_of_int
                   (fold_left (fun acc c => 10 * acc + (Z.of_nat (nat_of_ascii c) - 48)) cs 0))
      else None
  end.

End Color.

(** ** Fit size of the image compositor *)
Module Fit.
Import Py.

(** [_calculate_fit_size(image_size, display_size)]: image and display sizes
    are machine-sized integers, far below 2^53. *)
Definition _calculate_fit_size (image_size display_size : Z * Z)
    : pyresult (Z * Z) :=
  let '(img_width, img_height) := image_size in
  let '(display_width, display_height) := display_size in
  pybind (int_truediv display_width img_width) (fun scale_x =>
  pybind (int_truediv display_height img_height) (fun scale_y =>
  let scale := float_min scale_x scale_y in
  pybind (int_of_float (float_of_int img_width * scale)%float) (fun w =>
  pybind (int_of_float (float_of_int img_height * scale)%float) (fun h =>
  Return (w, h))))).

End Fit.

(** ** Python's [datetime.date] arithmetic

    The proleptic Gregorian ordinal of [datetime.py]: [_is_leap],
    [_days_before_year], [_days_in_month], [_days_before_month], [_ymd2ord]
    and the range check of the [date] constructor. *)
Module Calendar.

Record date := mkdate { year : Z; month : Z; day : Z }.

Definition _is_leap (y : Z) : bool :=
  (y mod 4 =? 0) && (negb (y mod 100 =? 0) || (y mod 400 =? 0)).

Definition _days_before_year (y : Z) : Z :=
  let y := y - 1 in y * 365 + y / 4 - y / 100 + y / 400.

(** [_DAYS_IN_MONTH = [-1, 31, 28, 31, 30, 31, 30, 31, 31, 30, 31, 30, 31]] *)
Definition _DAYS_IN_MONTH : list Z :=
  [-1; 31; 28; 31; 30; 31; 30; 31; 31; 30; 31; 30; 31].

Definition _days_in_month (y m : Z) : Z :=
  if (m =? 2) && _is_leap y then 29
  else nth (Z.to_nat m) _DAYS_IN_MONTH (-1).

(** [_DAYS_BEFORE_MONTH]: the running sum of [_DAYS_IN_MONTH[1:]]. *)
Definition _DAYS_BEFORE_MONTH : list Z :=
  [-1; 0; 31; 59; 90; 120; 151; 181; 212; 243; 273; 304; 334].

Definition _days_before_month (y m : Z) : Z :=
  nth (Z.to_nat m) _DAYS_BEFORE_MONTH (-1)
  + (if (2 <? m) && _is_leap y then 1 else 0).

Definition _ymd2ord (y m d : Z) : Z :=
  _days_before_year y + _days_before_month y m + d.

(** [_check_date_fields]: MINYEAR = 1, MAXYEAR = 9999. *)
Definition valid_ymd (y m d : Z) : bool :=
  (1 <=? y) && (y <=? 9999) && (1 <=? m) && (m <=? 12)
  && (1 <=? d) && (d <=? _days_in_month y m).

Definition valid (dt : date) : bool := valid_ymd (year dt) (month dt) (day dt).

Definition toordinal (dt : date) : Z := _ymd2ord (year dt) (month dt) (day dt).

(** [(a - b).days] *)
Definition days_between (a b : date) : Z := toordinal a - toordinal b.

End Calendar.

(** ** [datetime.strptime(s, '%Y-%m-%d')]

    A Python [str] is modelled by a [string] whose characters are code
    points below 256; among these the regular expression class [\d] is
    exactly ['0'..'9'].  [_strptime] compiles the format to
    [(?P<Y>\d\d\d\d)-(?P<m>1[0-2]|0[1-9]|[1-9])-(?P<d>3[0-1]|[1-2]\d|0[1-9]|[1-9]| [1-9])],
    matches it at the start of the text, rejects unconverted trailing text,
    converts the three groups with [int] and builds the date, which checks
    the calendar ranges. *)
Module Strptime.
Import Calendar.

Definition chars := list ascii.

Definition code (c : ascii) : Z := Z.of_nat (nat_of_ascii c).

Definition in_range (lo hi : ascii) (c : ascii) : bool :=
  (code lo <=? code c) && (code c <=? code hi).

Definition is_digit (c : ascii) : bool := in_range "0" "9" c.

Definition is_char (x c : ascii) : bool := code x =? code c.

(** One alternative of a group: a sequence of character classes. *)
Definition alternative := list (ascii -> bool).

(** Match one alternative at the start of the text: the matched text and
    the rest. *)
Fixpoint match_alt (a : alternative) (s : chars) : option (chars * chars) :=
  match a with
  | [] => Some ([], s)
  | p :: a' =>
      match s with
      | c :: s' =>
          if p c then
            match match_alt a' s' with
            | Some (m, r) => Some (c :: m, r)
            | None => None
            end
          else None
      | [] => None
      end
  end.

Definition re_Y : list alternative := [[is_digit; is_digit; is_digit; is_digit]].

Definition re_m : list alternative :=
  [ [is_char "1"; in_range "0" "2"];
    [is_char "0"; in_range "1" "9"];
    [in_range "1" "9"] ].

Definition re_d : list alternative :=
  [ [is_char "3"; in_range "0" "1"];
    [in_range "1" "2"; is_digit];
    [is_char "0"; in_range "1" "9"];
    [in_range "1" "9"];
    [is_char " "; in_range "1" "9"] ].

(** A backtracking match of a group followed by a continuation [k]: the
    alternatives are tried in order, and the first one after which the
    continuation succeeds is taken. *)
Fixpoint match_group {A} (alts : list alternative) (s : chars)
    (k : chars -> chars -> option A) : option A :=
  match alts with
  | [] => None
  | a :: alts' =>
      match match_alt a s with
      | Some (m, r) =>
          match k m r with
          | Some x => Some x
          | None => match_group alts' s k
          end
      | None => match_group alts' s k
      end
  end.

Definition match_literal {A} (x : ascii) (s : chars)
    (k : chars -> option A) : option A :=
  match s with
  | c :: s' => if is_char x c then k s' else None
  | [] => None
  end.

(** [format_regex.match(data_string)]: the three groups and the end of the
    match. *)
Definition regex_match (s : chars) : option (chars * chars * chars * chars) :=
  match_group re_Y s (fun gY r1 =>
  match_literal "-" r1 (fun r2 =>
  match_group re_m r2 (fun gm r3 =>
  match_literal "-" r3 (fun r4 =>
  match_group re_d r4 (fun gd r5 =>
  Some (gY, gm, gd, r5)))))).

(** [int(text)] on a group: decimal digits, surrounding blanks ignored (the
    only blank a group can hold is the one leading a space-padded day). *)
Fixpoint int_digits (acc : Z) (s : chars) : Z :=
  match s with
  | [] => acc
  | c :: s' =>
      if is_digit c then int_digits (10 * acc + (code c - 48)) s'
      else int_digits acc s'
  end.

Definition int_of_group (s : chars) : Z := int_digits 0 s.

(** [datetime.strptime(s, '%Y-%m-%d').date()]; [None] stands for the
    [ValueError] the call raises. *)
Definition strptime_Ymd (s : string) : option date :=
  match regex_match (list_ascii_of_string s) with
  | Some (gY, gm, gd, rest) =>
      match rest with
      | _ :: _ => None                 (* unconverted data remains *)
      | [] =>
          let y := int_of_group gY in
          let m := int_of_group gm in
          let d := int_of_group gd in
          if valid_ymd y m d then Some (mkdate y m d) else None
      end
  | None => None
  end.

(** [date.isoformat()]: ["%04d-%02d-%02d"]. *)
Definition digit_char (n : Z) : ascii := ascii_of_nat (Z.to_nat (48 + n mod 10)).

Definition pad2 (n : Z) : chars := [digit_char (n / 10); digit_char n].

Definition pad4 (n : Z) : chars :=
  [digit_char (n / 1000); digit_char (n / 100); digit_char (n / 10); digit_char n].

Definition isoformat (dt : date) : string :=
  string_of_list_ascii
    (pad4 (year dt) ++ "-"%char :: pad2 (month dt) ++ "-"%char :: pad2 (day dt)).

End Strptime.

(** ** Python text formatting of integers: [f"{n}"] *)
Definition py_str_of_int (n : Z) : string := NilZero.string_of_int (Z.to_int n).

(** ** The countdown calculator *)
Module Calculator.
Import Calendar Strptime.

(** The dictionary [_calculate_time_remaining] returns: every call builds
    all six keys. *)
Record CountdownResult := mkResult {
  days : Z;
  hours : Z;
  minutes : Z;
  is_expired : bool;
  is_today : bool;
  text : string
}.

(** The four branches on [delta.days], for a parsed target date. *)
Definition remaining (target_date today : date) : CountdownResult :=
  let delta_days := days_between target_date today in
  if delta_days <? 0 then
    mkResult (Z.abs delta_days) 0 0 true false
             (py_str_of_int (Z.abs delta_days) +:+ "d ago")
  else if delta_days =? 0 then
    mkResult 0 0 0 false true "TODAY!"
  else if delta_days =? 1 then
    mkResult 1 0 0 false false "1 Day"
  else
    mkResult delta_days 0 0 false false
             (py_str_of_int delta_days +:+ " Days").

(** The dictionary of the [except] handler. *)
Definition error_result : CountdownResult :=
  mkResult 0 0 0 false false "Error".

(** [_calculate_time_remaining(target_date_str)] with the value of
    [date.today()] given as [today].  The [try] body can fail only in
    [strptime]; the handler returns the "Error" dictionary. *)
Definition _calculate_time_remaining (today : date) (target_date_str : string)
    : CountdownResult :=
  match strptime_Ymd target_date_str with
  | Some target_date => remaining target_date today
  | None => error_result
  end.

End Calculator.

(** ** The specification's readings, to compare the code with *)
Module Reading.
Import Py Calendar Strptime.

(** The target-date format as the specification words it, "YYYY-MM-DD":
    exactly four digits, a hyphen, two digits, a hyphen, two digits, naming
    a calendar date. *)
Definition strict_YYYY_MM_DD (s : string) : bool :=
  match list_ascii_of_string s with
  | [y1; y2; y3; y4; h1; m1; m2; h2; d1; d2] =>
      forallb is_digit [y1; y2; y3; y4; m1; m2; d1; d2]
      && is_char "-" h1 && is_char "-" h2
      && valid_ymd (int_of_group [y1; y2; y3; y4]) (int_of_group [m1; m2])
                   (int_of_group [d1; d2])
  | _ => false
  end.

(** The float conversion as the specification words it, a floor: the
    largest integer not above the number. *)
Definition floor_of_float (f : float) : pyresult Z :=
  match Prim2SF f with
  | S754_zero _ => Return 0
  | S754_finite s m e =>
      if 0 <=? e then Return (if s then - (Z.pos m * 2 ^ e) else Z.pos m * 2 ^ e)
      else Return (if s then - ((Z.pos m + 2 ^ (- e) - 1) / 2 ^ (- e))
                   else Z.pos m / 2 ^ (- e))
  | S754_infinity _ => Raised OverflowError
  | S754_nan => Raised ValueError
  end.

(** The fit size as the specification words it, in exact arithmetic:
    [(floor(img_w * s), floor(img_h * s))] with
    [s = min(w / img_w, h / img_h)]; the width ratio is the smaller one
    when [w * img_h <= h * img_w]. *)
Definition exact_fit_size (image_size display_size : Z * Z) : Z * Z :=
  let '(img_w, img_h) := image_size in
  let '(w, h) := display_size in
  if w * img_h <=? h * img_w
  then ((img_w * w) / img_w, (img_h * w) / img_w)
  else ((img_w * h) / img_h, (img_h * h) / img_h).

(** The acceptable components as the specification words them, floats
    floored. *)
Inductive floored_component (float_of_str : string -> option float)
    : pyval -> Z -> Prop :=
| floored_int (n : Z) :
    0 <= n <= 255 -> floored_component float_of_str (VInt n) n
| floored_float (f : float) (n : Z) :
    floor_of_float f = Return n -> 0 <= n <= 255 ->
    floored_component float_of_str (VFloat f) n
| floored_str (s : string) (f : float) (n : Z) :
    float_of_str s = Some f -> floor_of_float f = Return n -> 0 <= n <= 255 ->
    floored_component float_of_str (VStr s) n.

End Reading.

(** ** The plugin: data *)
Module Plugin.
Import Py Color Fit Calendar Strptime Calculator.

(** One countdown entry of the configuration, a dictionary read with
    [.get]: a field is [None] when the key is absent.  [cd_image] is the
    list under 'image', each element a dictionary read with [.get('path')];
    [cd_display_order] is the sort key, an integer here.  Entries that are
    not dictionaries, identifiers that are not strings and sort keys that
    are not integers are outside this type: on them the source raises, in
    [list.sort] ([AttributeError], [TypeError]) and in the dictionary
    lookups by identifier ([TypeError] on an unhashable one). *)
Record Countdown := mkCountdown {
  cd_id : option string;
  cd_name : option string;
  cd_target_date : option string;
  cd_image : option (list (option string));
  cd_enabled : option bool;
  cd_display_order : option Z
}.

(** Truth value of the entry dictionary: an empty dictionary is false. *)
Definition entry_truthy (c : Countdown) : bool :=
  match c with
  | mkCountdown None None None None None None => false
  | _ => true
  end.

(** Truth value of a string ([if s:]). *)
Definition str_truthy (s : string) : bool := negb (String.eqb s "").

Definition opt_str_truthy (s : option string) : bool :=
  match s with
  | Some s => str_truthy s
  | None => false
  end.

(** The value under 'countdowns'. *)
Inductive CountdownsValue :=
| NotAList
| Entries (l : list Countdown).

(** The configuration mapping, read with [.get(key, default)]. *)
Record Config := mkConfig {
  cfg_fit_to_display : option bool;
  cfg_preserve_aspect_ratio : option bool;
  cfg_show_expired : option bool;
  cfg_background_color : option pyval;
  cfg_font_family : option string;
  cfg_font_size : option Z;
  cfg_font_color : option pyval;
  cfg_name_font_size : option Z;
  cfg_name_font_color : option pyval;
  cfg_countdowns : option CountdownsValue;
  cfg_display_duration : option float
}.

(** Images are kept symbolically, by the PIL calls that built them. *)
Inductive Image :=
| Opened (path : string) (size : Z * Z)     (* [Image.open], converted to RGBA *)
| Resized (img : Image) (size : Z * Z)      (* [img.resize(size, LANCZOS)] *)
| Blank (size : Z * Z) (color : pyval)      (* [Image.new('RGB', size, color)] *)
| Pasted (canvas img : Image) (pos : Z * Z) (* [canvas.paste(img, pos)] *)
| Copied (img : Image).                     (* [img.copy()] *)

Fixpoint image_size (img : Image) : Z * Z :=
  match img with
  | Opened _ sz | Resized _ sz | Blank sz _ => sz
  | Pasted canvas _ _ => image_size canvas
  | Copied i => image_size i
  end.

(** A font handle of the host's font manager. *)
Definition Font := Z.

(** The calls the plugin makes to its collaborators: the clock, the
    display manager, the font manager, the file system and PIL. *)
Inductive event :=
| Time
| Today
| MatrixWidth
| MatrixHeight
| ImageNew (size : Z * Z) (color : pyval)
| ImageCopy (img : Image)
| SetImage (img : Image)
| Clear
| HasFontManager
| RegisterFont (element_key family : string) (size_px : Z) (color : pyval)
| ResolveFont (element_key family : string) (size_px : Z) (color : option pyval)
| DrawText (text : string) (x y : Z) (font : option Font) (centered : bool)
| UpdateDisplay
| ResolvePath (path : string)
| PathExists (path : string)
| ImageOpen (path : string)
| ImageResize (img : Image) (size : Z * Z)
| ImagePaste (canvas img : Image) (pos : Z * Z)
| ImageClose (img : Image).

Definition trace := list event.

(** The host: what each call answers, given the calls made so far.
    [host_raises] tells whether a call raises, and which exception. *)
Record Host := mkHost {
  host_raises : trace -> event -> option pyexn;
  host_time : trace -> float;
  host_today : trace -> date;
  host_matrix_width : trace -> Z;
  host_matrix_height : trace -> Z;
  host_has_font_manager : trace -> bool;
  host_font : trace -> event -> option Font;
  host_resolved_path : trace -> string -> option string;
  host_path_exists : trace -> string -> bool;
  host_image_size : trace -> string -> Z * Z
}.

(** The attributes of the plugin object. *)
Record Plugin := mkPlugin {
  plugin_id : string;
  config : Config;
  fit_to_display : bool;
  preserve_aspect_ratio : bool;
  show_expired : bool;
  background_color : pyval;
  font_family : string;
  font_size : Z;
  font_color : pyval;
  name_font_size : Z;
  name_font_color : pyval;
  countdowns : list Countdown;
  current_countdown_index : nat;
  last_rotation_time : float;
  cached_images : gmap (option string) Image;
  countdown_values : gmap (option string) CountdownResult
}.

Definition set_config (c : Config) (self : Plugin) : Plugin :=
  mkPlugin (plugin_id self) c (fit_to_display self) (preserve_aspect_ratio self)
    (show_expired self) (background_color self) (font_family self) (font_size self)
    (font_color self) (name_font_size self) (name_font_color self) (countdowns self)
    (current_countdown_index self) (last_rotation_time self) (cached_images self)
    (countdown_values self).

Definition set_fonts (family : string) (size : Z) (color : pyval)
    (name_size : Z) (name_color : pyval) (self : Plugin) : Plugin :=
  mkPlugin (plugin_id self) (config self) (fit_to_display self)
    (preserve_aspect_ratio self) (show_expired self) (background_color self)
    family size color name_size name_color (countdowns self)
    (current_countdown_index self) (last_rotation_time self) (cached_images self)
    (countdown_values self).

Definition set_countdowns (l : list Countdown) (self : Plugin) : Plugin :=
  mkPlugin (plugin_id self) (config self) (fit_to_display self)
    (preserve_aspect_ratio self) (show_expired self) (background_color self)
    (font_family self) (font_size self) (font_color self) (name_font_size self)
    (name_font_color self) l (current_countdown_index self)
    (last_rotation_time self) (cached_images self) (countdown_values self).

Definition set_current_countdown_index (i : nat) (self : Plugin) : Plugin :=
  mkPlugin (plugin_id self) (config self) (fit_to_display self)
    (preserve_aspect_ratio self) (show_expired self) (background_color self)
    (font_family self) (font_size self) (font_color self) (name_font_size self)
    (name_font_color self) (countdowns self) i (last_rotation_time self)
    (cached_images self) (countdown_values self).

Definition set_last_rotation_time (now : float) (self : Plugin) : Plugin :=
  mkPlugin (plugin_id self) (config self) (fit_to_display self)
    (preserve_aspect_ratio self) (show_expired self) (background_color self)
    (font_family self) (font_size self) (font_color self) (name_font_size self)
    (name_font_color self) (countdowns self) (current_countdown_index self) now
    (cached_images self) (countdown_values self).

Definition set_cached_images (m : gmap (option string) Image) (self : Plugin)
    : Plugin :=
  mkPlugin (plugin_id self) (config self) (fit_to_display self)
    (preserve_aspect_ratio self) (show_expired self) (background_color self)
    (font_family self) (font_size self) (font_color self) (name_font_size self)
    (name_font_color self) (countdowns self) (current_countdown_index self)
    (last_rotation_time self) m (countdown_values self).

Definition set_countdown_values (m : gmap (option string) CountdownResult)
    (self : Plugin) : Plugin :=
  mkPlugin (plugin_id self) (config self) (fit_to_display self)
    (preserve_aspect_ratio self) (show_expired self) (background_color self)
    (font_family self) (font_size self) (font_color self) (name_font_size self)
    (name_font_color self) (countdowns self) (current_countdown_index self)
    (last_rotation_time self) (cached_images self) m.

(** [list.sort(key=lambda x: x.get('display_order', 0))]: the stable sort,
    written as an insertion sort that keeps equal keys in their order. *)
Definition display_order (c : Countdown) : Z := default 0 (cd_display_order c).

Fixpoint insert_by_order (x : Countdown) (l : list Countdown) : list Countdown :=
  match l with
  | [] => [x]
  | y :: l' =>
      if display_order x <=? display_order y then x :: y :: l'
      else y :: insert_by_order x l'
  end.

Fixpoint sort_by_order (l : list Countdown) : list Countdown :=
  match l with
  | [] => []
  | x :: l' => insert_by_order x (sort_by_order l')
  end.

(** [config.get('countdowns', [])], replaced by [[]] when it is not a list,
    then sorted; on integer keys the sort does not raise. *)
Definition configured_countdowns (c : Config) : list Countdown :=
  match cfg_countdowns c with
  | Some (Entries l) => sort_by_order l
  | Some NotAList => []
  | None => []
  end.

(** The identifiers of the configured entries ([countdown.get('id')]). *)
Definition entry_ids (l : list Countdown) : gset (option string) :=
  list_to_set (map cd_id l).

(** [_get_enabled_countdowns]: the loop with its two [continue]s. *)
Fixpoint enabled_loop (self : Plugin) (cs : list Countdown)
    (enabled : list Countdown) : list Countdown :=
  match cs with
  | [] => enabled
  | countdown :: cs' =>
      if negb (default true (cd_enabled countdown)) then
        enabled_loop self cs' enabled
      else
        let countdown_id := cd_id countdown in
        match countdown_values self !! countdown_id with
        | Some v =>
            if is_expired v && negb (show_expired self)
            then enabled_loop self cs' enabled
            else enabled_loop self cs' (enabled ++ [countdown])
        | None => enabled_loop self cs' (enabled ++ [countdown])
        end
  end.

Definition _get_enabled_countdowns (self : Plugin) : list Countdown :=
  enabled_loop self (countdowns self) [].

(** What the filter reads of an entry: its 'enabled' flag (true when the
    key is absent) and the expiry recorded for its identifier in
    [countdown_values] (not expired when nothing is recorded). *)
Definition enabled_flag (c : Countdown) : bool := default true (cd_enabled c).

Definition recorded_expired (self : Plugin) (c : Countdown) : bool :=
  match countdown_values self !! cd_id c with
  | Some v => is_expired v
  | None => false
  end.

Definition shown (self : Plugin) (c : Countdown) : bool :=
  enabled_flag c && (negb (recorded_expired self c) || show_expired self).

(** [get_display_duration] *)
Definition get_display_duration (self : Plugin) : float :=
  default 15%float (cfg_display_duration (config self)).

(** [supports_dynamic_duration] *)
Definition supports_dynamic_duration (self : Plugin) : bool := true.

(** ** The plugin: operations

    A method runs on the plugin object and on the trace of host calls made
    so far.  It either returns, or raises; the attributes written and the
    calls made before a [raise] stay. *)
Inductive outcome (A : Type) :=
| Done (a : A) (self : Plugin) (t : trace)
| Fault (e : pyexn) (self : Plugin) (t : trace).
Arguments Done {A} a self t.
Arguments Fault {A} e self t.

Definition M (A : Type) : Type := Plugin -> trace -> outcome A.

#[export] Instance M_ret : MRet M := fun A a self t => Done a self t.

#[export] Instance M_bind : MBind M := fun A B k m self t =>
  match m self t with
  | Done a self' t' => k a self' t'
  | Fault e self' t' => Fault e self' t'
  end.

(** [try: body except Exception: handler] *)
Definition try_except {A} (body : M A) (handler : M A) : M A := fun self t =>
  match body self t with
  | Done a self' t' => Done a self' t'
  | Fault _ self' t' => handler self' t'
  end.

Definition get_self : M Plugin := fun self t => Done self self t.

Definition modify_self (f : Plugin -> Plugin) : M unit :=
  fun self t => Done tt (f self) t.

(** A pure computation that may raise. *)
Definition lift {A} (r : pyresult A) : M A := fun self t =>
  match r with
  | Return a => Done a self t
  | Raised e => Fault e self t
  end.

Definition returned {A} (o : outcome A) : bool :=
  match o with
  | Done _ _ _ => true
  | Fault _ _ _ => false
  end.

Definition final_self {A} (o : outcome A) : Plugin :=
  match o with
  | Done _ self _ | Fault _ self _ => self
  end.

Definition final_trace {A} (o : outcome A) : trace :=
  match o with
  | Done _ _ t | Fault _ _ t => t
  end.

(** What a trace shows: the texts drawn, in order; the number of image
    loads started ([_load_and_scale_image] resolves the path first); the
    number of highlight fonts asked for (a font with a colour override). *)
Fixpoint drawn_texts (t : trace) : list string :=
  match t with
  | [] => []
  | DrawText text _ _ _ _ :: t' => text :: drawn_texts t'
  | _ :: t' => drawn_texts t'
  end.

Fixpoint image_loads (t : trace) : nat :=
  match t with
  | [] => 0%nat
  | ResolvePath _ :: t' => S (image_loads t')
  | _ :: t' => image_loads t'
  end.

Fixpoint highlights (t : trace) : nat :=
  match t with
  | [] => 0%nat
  | ResolveFont _ _ _ (Some _) :: t' => S (highlights t')
  | _ :: t' => highlights t'
  end.

(** The host raises on no call made after the trace [t0]. *)
Definition quiet_after (host : Host) (t0 : trace) : Prop :=
  forall t1 ev, host_raises host (t0 ++ t1) ev = None.

(** After the trace [t0] the host has a font manager, which resolves every
    font to [f]. *)
Definition fonts_after (host : Host) (t0 : trace) (f : Font) : Prop :=
  forall t1,
    host_has_font_manager host (t0 ++ t1) = true
    /\ forall ev, host_font host (t0 ++ t1) ev = Some f.

(** The calls of a fallback frame drawn in full on a [w] x [h] matrix. *)
Definition fallback_calls (w h : Z) (color : pyval) (element_key family : string)
    (size_px : Z) (f : Font) (line1 line2 : string) : trace :=
  [ MatrixWidth; MatrixHeight;
    ImageNew (w, h) color;
    ImageCopy (Blank (w, h) color);
    SetImage (Copied (Blank (w, h) color));
    HasFontManager;
    ResolveFont element_key family size_px None;
    DrawText line1 (w / 2) (h / 3) (Some f) true;
    DrawText line2 (w / 2) ((h * 2) / 3) (Some f) true;
    UpdateDisplay ].

Section Operations.

Variable host : Host.

(** Python's [float(text)], used by [_parse_color]. *)
Variable float_of_str : string -> option float.

(** A host call that may raise; its answer is read from the host. *)
Definition request {A} (ev : event) (answer : trace -> A) : M A := fun self t =>
  match host_raises host t ev with
  | Some e => Fault e self (t ++ [ev])
  | None => Done (answer t) self (t ++ [ev])
  end.

Definition call (ev : event) : M unit := request ev (fun _ => tt).

(** A host query that cannot raise: [time.time()], [date.today()],
    [hasattr(...)]. *)
Definition observe {A} (ev : event) (answer : trace -> A) : M A := fun self t =>
  Done (answer t) self (t ++ [ev]).

Definition time_time : M float := observe Time (host_time host).

Definition date_today : M date := observe Today (host_today host).

Definition has_font_manager : M bool :=
  observe HasFontManager (host_has_font_manager host).

Definition resolve_font (element_key family : string) (size_px : Z)
    (color : option pyval) : M (option Font) :=
  let ev := ResolveFont element_key family size_px color in
  request ev (fun t => host_font host t ev).

(** [_register_fonts]: the whole body is under [try ... except Exception]. *)
Definition _register_fonts : M unit :=
  try_except
    (has ← has_font_manager;
     if negb has then mret tt
     else
       self ← get_self;
       call (RegisterFont (plugin_id self +:+ ".countdown_value")
               (font_family self) (font_size self) (font_color self));;
       call (RegisterFont (plugin_id self +:+ ".countdown_name")
               (font_family self) (name_font_size self) (name_font_color self));;
       call (RegisterFont (plugin_id self +:+ ".error") "press_start" 8
               (VTuple [VInt 255; VInt 0; VInt 0])))
    (mret tt).

(** [_load_and_scale_image(image_path, target_width, target_height)].
    [_resolve_image_path] is the file-system heuristic of the host, one
    [ResolvePath] call; [ImageOpen] stands for [Image.open] followed by the
    conversion to RGBA and answers the size of the image. *)
Definition _load_and_scale_image (image_path : string)
    (target_width target_height : Z) : M (option Image) :=
  if negb (str_truthy image_path) then mret None
  else
    resolved_path ← request (ResolvePath image_path)
                      (fun t => host_resolved_path host t image_path);
    match resolved_path with
    | None => mret None
    | Some resolved =>
        if negb (str_truthy resolved) then mret None
        else
          present ← request (PathExists resolved)
                      (fun t => host_path_exists host t resolved);
          if negb present then mret None
          else
            try_except
              (size ← request (ImageOpen resolved)
                        (fun t => host_image_size host t resolved);
               let img := Opened resolved size in
               self ← get_self;
               target_size ←
                 (if fit_to_display self && preserve_aspect_ratio self
                  then lift (_calculate_fit_size size (target_width, target_height))
                  else if fit_to_display self
                  then mret (target_width, target_height)
                  else mret size);
               img ←
                 (if (target_size.1 =? size.1) && (target_size.2 =? size.2)
                  then mret img
                  else
                    call (ImageResize img target_size);;
                    mret (Resized img target_size));
               call (ImageNew (target_width, target_height) (background_color self));;
               let paste_x := (target_width - (image_size img).1) / 2 in
               let paste_y := (target_height - (image_size img).2) / 2 in
               call (ImageNew (target_width, target_height) (background_color self));;
               let temp_canvas :=
                 Blank (target_width, target_height) (background_color self) in
               call (ImagePaste temp_canvas img (paste_x, paste_y));;
               let canvas := Pasted temp_canvas img (paste_x, paste_y) in
               call (ImageClose img);;
               mret (Some canvas))
              (mret None)
    end.

(** The monadic [_calculate_time_remaining]: [date.today()] is read after
    the target date has parsed. *)
Definition calculate_time_remaining (target_date_str : string) : M CountdownResult :=
  match strptime_Ymd target_date_str with
  | Some target_date =>
      today ← date_today;
      mret (remaining target_date today)
  | None => mret error_result
  end.

(** [_get_current_countdown] *)
Definition _get_current_countdown : M (option Countdown) :=
  self ← get_self;
  let enabled := _get_enabled_countdowns self in
  match enabled with
  | [] => mret None
  | _ :: _ =>
      (if decide (List.length enabled ≤ current_countdown_index self)%nat
       then modify_self (set_current_countdown_index 0%nat)
       else mret tt);;
      self ← get_self;
      mret (enabled !! current_countdown_index self)
  end.

(** [_rotate_to_next_countdown] *)
Definition _rotate_to_next_countdown : M unit :=
  self ← get_self;
  let enabled := _get_enabled_countdowns self in
  match enabled with
  | [] => mret tt
  | _ :: _ =>
      modify_self (set_current_countdown_index
        ((current_countdown_index self + 1) mod List.length enabled)%nat);;
      now ← time_time;
      modify_self (set_last_rotation_time now)
  end.

(** [update]: the loop over [self.countdowns] under [try ... except]. *)
Fixpoint update_loop (cs : list Countdown) : M unit :=
  match cs with
  | [] => mret tt
  | countdown :: cs' =>
      let countdown_id := cd_id countdown in
      let target_date := cd_target_date countdown in
      (if opt_str_truthy countdown_id && opt_str_truthy target_date then
         v ← calculate_time_remaining (default "" target_date);
         self ← get_self;
         modify_self (set_countdown_values (<[countdown_id := v]> (countdown_values self)))
       else mret tt);;
      update_loop cs'
  end.

Definition update : M unit :=
  try_except (self ← get_self; update_loop (countdowns self)) (mret tt).

(** The font lookup shared by the two fallback frames: [None] without a
    font manager or when the lookup raises. *)
Definition fallback_font (element_key family : string) (size_px : Z)
    : M (option Font) :=
  try_except
    (has ← has_font_manager;
     if (has : bool) then resolve_font element_key family size_px None
     else mret None)
    (mret None).

(** The two centred lines of a fallback frame. *)
Definition two_lines (line1 line2 : string) (display_width display_height : Z)
    (font : option Font) : M unit :=
  match font with
  | Some _ =>
      call (DrawText line1 (display_width / 2) (display_height / 3) font true);;
      call (DrawText line2 (display_width / 2) ((display_height * 2) / 3) font true)
  | None => mret tt
  end.

(** [_display_no_countdowns] *)
Definition _display_no_countdowns : M unit :=
  try_except
    (display_width ← request MatrixWidth (host_matrix_width host);
     display_height ← request MatrixHeight (host_matrix_height host);
     self ← get_self;
     call (ImageNew (display_width, display_height) (background_color self));;
     let img := Blank (display_width, display_height) (background_color self) in
     call (ImageCopy img);;
     call (SetImage (Copied img));;
     font ← fallback_font (plugin_id self +:+ ".countdown_name")
              (font_family self) (name_font_size self);
     two_lines "No Active" "Countdowns" display_width display_height font;;
     call UpdateDisplay)
    (mret tt).

(** [_display_error] *)
Definition _display_error : M unit :=
  try_except
    (display_width ← request MatrixWidth (host_matrix_width host);
     display_height ← request MatrixHeight (host_matrix_height host);
     self ← get_self;
     let black := VTuple [VInt 0; VInt 0; VInt 0] in
     call (ImageNew (display_width, display_height) black);;
     let img := Blank (display_width, display_height) black in
     call (ImageCopy img);;
     call (SetImage (Copied img));;
     error_font ← fallback_font (plugin_id self +:+ ".error") "press_start" 8;
     two_lines "Countdown" "Error" display_width display_height error_font;;
     call UpdateDisplay)
    (mret tt).

(** The image step of [display]: load into the cache when the identifier is
    not cached, then paste the cached image on the canvas. *)
Definition draw_cached_image (current_countdown : Countdown) (canvas : Image)
    (image_width display_height : Z) : M Image :=
  let countdown_id := cd_id current_countdown in
  match default [] (cd_image current_countdown) with
  | [] => mret canvas
  | image_info :: _ =>
      match image_info with
      | Some image_path =>
          if str_truthy image_path then
            self ← get_self;
            (match cached_images self !! countdown_id with
             | Some _ => mret tt
             | None =>
                 loaded_img ← _load_and_scale_image image_path image_width display_height;
                 match loaded_img with
                 | Some img =>
                     self ← get_self;
                     modify_self (set_cached_images
                       (<[countdown_id := img]> (cached_images self)))
                 | None => mret tt
                 end
             end);;
            self ← get_self;
            match cached_images self !! countdown_id with
            | Some img =>
                call (ImagePaste canvas img (0, 0));;
                mret (Pasted canvas img (0, 0))
            | None => mret canvas
            end
          else mret canvas
      | None => mret canvas
      end
  end.

(** The value looked up for the active entry:
    [countdown_values.get(countdown_id, {'text': '---', 'is_today': False})]. *)
Definition countdown_data (self : Plugin) (countdown_id : option string)
    : string * bool :=
  match countdown_values self !! countdown_id with
  | Some v => (text v, is_today v)
  | None => ("---", false)
  end.

(** The two fonts of the frame: both [None] without a font manager or when
    either lookup raises. *)
Definition frame_fonts : M (option Font * option Font) :=
  try_except
    (has ← has_font_manager;
     if (has : bool) then
       self ← get_self;
       name_font ← resolve_font (plugin_id self +:+ ".countdown_name")
                     (font_family self) (name_font_size self) None;
       value_font ← resolve_font (plugin_id self +:+ ".countdown_value")
                      (font_family self) (font_size self) None;
       mret (name_font, value_font)
     else mret (None, None))
    (mret (None, None)).

(** The highlight of the value on the day itself: the bright yellow font,
    the plain value font when the lookup raises or there is no font
    manager. *)
Definition today_font (value_font : option Font) : M (option Font) :=
  try_except
    (has ← has_font_manager;
     if (has : bool) then
       self ← get_self;
       resolve_font (plugin_id self +:+ ".countdown_value") (font_family self)
         (font_size self) (Some (VTuple [VInt 255; VInt 255; VInt 0]))
     else mret value_font)
    (mret value_font).

(** The [try] body of [display]. *)
Definition display_frame (current_countdown : Countdown) (force_clear : bool)
    : M unit :=
  display_width ← request MatrixWidth (host_matrix_width host);
  display_height ← request MatrixHeight (host_matrix_height host);
  let image_width := display_width / 3 in
  let text_width := display_width - image_width in
  self ← get_self;
  call (ImageNew (display_width, display_height) (background_color self));;
  let canvas := Blank (display_width, display_height) (background_color self) in
  let countdown_id := cd_id current_countdown in
  let countdown_name := default "Countdown" (cd_name current_countdown) in
  canvas ← draw_cached_image current_countdown canvas image_width display_height;
  self ← get_self;
  let '(countdown_text, is_today) := countdown_data self countdown_id in
  (if force_clear then call Clear else mret tt);;
  call (ImageCopy canvas);;
  call (SetImage (Copied canvas));;
  fonts ← frame_fonts;
  let '(name_font, value_font) := fonts in
  let text_x_start := image_width in
  let text_center_x := text_x_start + text_width / 2 in
  let name_y := display_height / 3 in
  let value_y := (display_height * 2) / 3 in
  (match name_font with
   | Some _ => call (DrawText countdown_name text_center_x name_y name_font true)
   | None => mret tt
   end);;
  (match value_font with
   | Some _ =>
       value_font ← (if is_today then today_font value_font else mret value_font);
       call (DrawText countdown_text text_center_x value_y value_font true)
   | None => mret tt
   end);;
  call UpdateDisplay.

(** [display(force_clear)] *)
Definition display (force_clear : bool) : M unit :=
  current_countdown ← _get_current_countdown;
  match current_countdown with
  | None => _display_no_countdowns
  | Some current_countdown =>
      if negb (entry_truthy current_countdown) then _display_no_countdowns
      else try_except (display_frame current_countdown force_clear) _display_error
  end.

(** [is_cycle_complete] *)
Definition is_cycle_complete : M bool :=
  current_time ← time_time;
  self ← get_self;
  let elapsed := (current_time - last_rotation_time self)%float in
  let duration := get_display_duration self in
  if (duration <=? elapsed)%float then
    _rotate_to_next_countdown;;
    mret true
  else mret false.

(** [reset_cycle_state] *)
Definition reset_cycle_state : M unit :=
  now ← time_time;
  modify_self (set_last_rotation_time now).

(** [on_config_change(new_config)]; the base class stores the new
    configuration in [self.config]. *)
Definition on_config_change (new_config : Config) : M unit :=
  modify_self (set_config new_config);;
  self ← get_self;
  let old_count := List.length (countdowns self) in
  modify_self (set_countdowns (configured_countdowns (config self)));;
  self ← get_self;
  modify_self (fun self =>
    set_fonts (default "press_start" (cfg_font_family (config self)))
      (default 8 (cfg_font_size (config self)))
      (font_color self) (name_font_size self) (name_font_color self) self);;
  color ← lift (_parse_color float_of_str
                  (default (VList [VInt 255; VInt 255; VInt 255])
                           (cfg_font_color (config self)))
                  (VTuple [VInt 255; VInt 255; VInt 255]));
  modify_self (fun self =>
    set_fonts (font_family self) (font_size self) color
      (default 8 (cfg_name_font_size (config self))) (name_font_color self) self);;
  name_color ← lift (_parse_color float_of_str
                       (default (VList [VInt 200; VInt 200; VInt 200])
                                (cfg_name_font_color (config self)))
                       (VTuple [VInt 200; VInt 200; VInt 200]));
  modify_self (fun self =>
    set_fonts (font_family self) (font_size self) (font_color self)
      (name_font_size self) name_color self);;
  _register_fonts;;
  self ← get_self;
  (if negb (Nat.eqb (List.length (countdowns self)) old_count) then
     modify_self (set_cached_images ∅);;
     modify_self (set_current_countdown_index 0%nat)
   else mret tt);;
  update.

(** [cleanup] *)
Definition cleanup : M unit :=
  modify_self (set_cached_images ∅);;
  modify_self (set_countdown_values ∅).

(** [__init__(plugin_id, config, ...)]: the object the constructor
    builds, or the exception it raises, and the host calls made. *)
Definition __init__ (plugin_id : string) (config : Config) (t : trace)
    : pyresult Plugin * trace :=
  match
    pybind (_parse_color float_of_str
              (default (VList [VInt 0; VInt 0; VInt 0]) (cfg_background_color config))
              (VTuple [VInt 0; VInt 0; VInt 0])) (fun background =>
    pybind (_parse_color float_of_str
              (default (VList [VInt 255; VInt 255; VInt 255]) (cfg_font_color config))
              (VTuple [VInt 255; VInt 255; VInt 255])) (fun color =>
    pybind (_parse_color float_of_str
              (default (VList [VInt 200; VInt 200; VInt 200]) (cfg_name_font_color config))
              (VTuple [VInt 200; VInt 200; VInt 200])) (fun name_color =>
    Return (background, color, name_color))))
  with
  | Return (background, color, name_color) =>
      let self :=
        mkPlugin plugin_id config
          (default true (cfg_fit_to_display config))
          (default true (cfg_preserve_aspect_ratio config))
          (default false (cfg_show_expired config))
          background
          (default "press_start" (cfg_font_family config))
          (default 8 (cfg_font_size config))
          color
          (default 8 (cfg_name_font_size config))
          name_color
          (configured_countdowns config)
          0%nat
          (host_time host t)
          ∅ ∅ in
      match _register_fonts self (t ++ [Time]) with
      | Done _ self' t' => (Return self', t')
      | Fault e _ t' => (Raised e, t')
      end
  | Raised e => (Raised e, t)
  end.

End Operations.

(** A relation between the state and trace before and after a method, kept
    by every run of it, returning or raising. *)
Definition preserves (R : Plugin -> trace -> Plugin -> trace -> Prop)
    {A} (m : M A) : Prop :=
  forall self t, R self t (final_self (m self t)) (final_trace (m self t)).

(** The relations [preserves] composes over: reflexive and transitive. *)
Class StepRel (R : Plugin -> trace -> Plugin -> trace -> Prop) : Prop := {
  step_refl : forall self t, R self t self t;
  step_trans : forall s1 t1 s2 t2 s3 t3,
    R s1 t1 s2 t2 -> R s2 t2 s3 t3 -> R s1 t1 s3 t3
}.

(** The trace only grows. *)
Definition extends_trace : Plugin -> trace -> Plugin -> trace -> Prop :=
  fun _ t _ t' => t `prefix_of` t'.

(** The object is left as it is, and nothing is drawn or highlighted. *)
Definition reads_only : Plugin -> trace -> Plugin -> trace -> Prop :=
  fun self t self' t' =>
    self' = self /\ t `prefix_of` t'
    /\ drawn_texts t' = drawn_texts t /\ highlights t' = highlights t.

(** The object is left as it is, and no image load is started. *)
Definition loads_nothing : Plugin -> trace -> Plugin -> trace -> Prop :=
  fun self t self' t' =>
    self' = self /\ t `prefix_of` t' /\ image_loads t' = image_loads t.

(** The image cache and the entry list are left as they are. *)
Definition keeps_cache : Plugin -> trace -> Plugin -> trace -> Prop :=
  fun self _ self' _ =>
    cached_images self' = cached_images self /\ countdowns self' = countdowns self.

(** Nothing is drawn or highlighted. *)
Definition silent : Plugin -> trace -> Plugin -> trace -> Prop :=
  fun _ t _ t' =>
    t `prefix_of` t' /\ drawn_texts t' = drawn_texts t /\ highlights t' = highlights t.

(** Only the image cache is written, and only under the key [k]: every
    other key, and an image already cached under [k], stay; with an image
    cached under [k], no load is started. *)
Definition caches_at (k : option string) : Plugin -> trace -> Plugin -> trace -> Prop :=
  fun self t self' t' =>
    (exists m, self' = set_cached_images m self)
    /\ t `prefix_of` t'
    /\ (forall k', k' <> k -> cached_images self' !! k' = cached_images self !! k')
    /\ (forall img, cached_images self !! k = Some img ->
          cached_images self' !! k = Some img /\ image_loads t' = image_loads t).

(** The image step of [display]: both of the above. *)
Definition image_step (k : option string) : Plugin -> trace -> Plugin -> trace -> Prop :=
  fun self t self' t' => caches_at k self t self' t' /\ silent self t self' t'.

(** The keys of the image cache are identifiers of configured entries. *)
Definition cache_within_entries (self : Plugin) : Prop :=
  dom (cached_images self) ⊆ entry_ids (countdowns self).

(** A method that returns whenever it starts on a trace extending [t0]. *)
Definition returns_from (t0 : trace) {A} (m : M A) : Prop :=
  forall self t, t0 `prefix_of` t -> returned (m self t) = true.

(** A method that never raises. *)
Definition safe {A} (m : M A) : Prop :=
  forall self t, returned (m self t) = true.


End Plugin.

(** ** Hosts to run the plugin on *)
Module Hosts.
Import Py Calendar Plugin.

(** A host on which every call succeeds: a 64x32 matrix, a font manager
    that resolves every font to the handle 1, a clock that counts the host
    calls made so far, a fixed day, every path present and every image
    10x49. *)
Definition steady (today : date) : Host :=
  mkHost (fun _ _ => None)
         (fun t => float_of_int (Z.of_nat (List.length t)))
         (fun _ => today)
         (fun _ => 64) (fun _ => 32)
         (fun _ => true)
         (fun _ _ => Some 1)
         (fun _ p => Some p) (fun _ _ => true)
         (fun _ _ => (10, 49)).

(** The same host with exactly the call number [n] (counted from 0)
    raising. *)
Definition failing_at (today : date) (n : nat) : Host :=
  mkHost (fun t _ => if Nat.eqb (List.length t) n then Some RuntimeError else None)
         (fun t => float_of_int (Z.of_nat (List.length t)))
         (fun _ => today)
         (fun _ => 64) (fun _ => 32)
         (fun _ => true)
         (fun _ _ => Some 1)
         (fun _ p => Some p) (fun _ _ => true)
         (fun _ _ => (10, 49)).


(** The same host without a font manager. *)
Definition fontless (today : date) (n : nat) : Host :=
  mkHost (fun t _ => if Nat.eqb (List.length t) n then Some RuntimeError else None)
         (fun t => float_of_int (Z.of_nat (List.length t)))
         (fun _ => today)
         (fun _ => 64) (fun _ => 32)
         (fun _ => false)
         (fun _ _ => None)
         (fun _ p => Some p) (fun _ _ => true)
         (fun _ _ => (10, 49)).

(** The number of [time.time()] calls in a trace. *)
Fixpoint time_calls (t : trace) : nat :=
  match t with
  | [] => 0%nat
  | Time :: t' => S (time_calls t')
  | _ :: t' => time_calls t'
  end.

(** A host whose clock answers the given readings in turn (0 afterwards). *)
Definition clocked (today : date) (readings : list float) : Host :=
  mkHost (fun _ _ => None)
         (fun t => nth (time_calls t) readings 0%float)
         (fun _ => today)
         (fun _ => 64) (fun _ => 32)
         (fun _ => true)
         (fun _ _ => Some 1)
         (fun _ p => Some p) (fun _ _ => true)
         (fun _ _ => (10, 49)).

End Hosts.

(** ** Sample configurations and states *)
Module Samples.
Import Py Calendar Plugin.

Definition config_of (entries : list Countdown) : Config :=
  mkConfig None None None None None None None None None (Some (Entries entries)) None.

(** The object the constructor builds at time 0 from [config_of entries],
    for entries given in display order. *)
Definition plugin_of (entries : list Countdown) : Plugin :=
  mkPlugin "cd" (config_of entries) true true false
    (VTuple [VInt 0; VInt 0; VInt 0]) "press_start" 8
    (VTuple [VInt 255; VInt 255; VInt 255]) 8
    (VTuple [VInt 200; VInt 200; VInt 200]) entries 0%nat 0%float ∅ ∅.

Definition launch : Countdown :=
  mkCountdown (Some "a") (Some "Launch") (Some "2030-01-01") None None None.

Definition launch_with_image (id path : string) : Countdown :=
  mkCountdown (Some id) (Some "Launch") (Some "2030-01-01") (Some [Some path])
    None None.

End Samples.

(** ** Calendar order *)
Module DateOrder.
Import Calendar.

(** [date.__lt__]: the comparison of the (year, month, day) triples. *)
Definition date_lt (a b : date) : bool :=
  (year a <? year b)
  || ((year a =? year b)
      && ((month a <? month b) || ((month a =? month b) && (day a <? day b)))).

End DateOrder.

(** ** Colours as the plugin keeps them *)
Module ColorRange.
Import Py Color.

(** [isinstance(c, int)] ([bool] included). *)
Definition is_int_object (c : pyval) : bool :=
  match c with
  | VInt _ | VBool _ => true
  | _ => false
  end.

(** A tuple of three [int] objects, each in 0..255. *)
Definition byte_triple (v : pyval) : bool :=
  match v with
  | VTuple [r; g; b] =>
      forallb (fun c => is_int_object c && in_byte_range c) [r; g; b]
  | _ => false
  end.

(** A component as the loop keeps it: an [int] object in 0..255. *)
Definition kept (r : pyval) : Prop :=
  is_int_object r = true /\ in_byte_range r = true.

End ColorRange.

(** ** Sequences of calls *)
Module Runs.
Import Py Plugin.

(** The entries are in ascending display order. *)
Definition in_display_order (l : list Countdown) : Prop :=
  StronglySorted (fun a b => display_order a <= display_order b) l.

(** [k] successive calls of [_rotate_to_next_countdown]. *)
Fixpoint rotations (host : Host) (k : nat) : M unit :=
  match k with
  | O => mret tt
  | S k' => _rotate_to_next_countdown host;; rotations host k'
  end.

(** A font lookup with a colour override: the highlight of the value on
    the day itself. *)
Definition is_highlight (ev : event) : bool :=
  match ev with
  | ResolveFont _ _ _ (Some _) => true
  | _ => false
  end.

(** After the trace [t0] the host raises on no call, except possibly on
    highlight lookups. *)
Definition calm_after (host : Host) (t0 : trace) : Prop :=
  forall t1 ev, is_highlight ev = false -> host_raises host (t0 ++ t1) ev = None.

(** The texts drawn, each with its position. *)
Fixpoint drawn_at (t : trace) : list (string * Z * Z) :=
  match t with
  | [] => []
  | DrawText text x y _ _ :: t' => (text, x, y) :: drawn_at t'
  | _ :: t' => drawn_at t'
  end.

(** The images handed to the display manager
    ([display_manager.image = ...]). *)
Fixpoint images_set (t : trace) : list Image :=
  match t with
  | [] => []
  | SetImage img :: t' => img :: images_set t'
  | _ :: t' => images_set t'
  end.

(** No image is handed to the display manager. *)
Definition sets_nothing : Plugin -> trace -> Plugin -> trace -> Prop :=
  fun _ t _ t' => t `prefix_of` t' /\ images_set t' = images_set t.

(** The path under which [display] looks for the image of an entry: the
    'path' of the first element of 'image', when it is non-empty. *)
Definition first_image_path (c : Countdown) : option string :=
  match default [] (cd_image c) with
  | Some image_path :: _ => if str_truthy image_path then Some image_path else None
  | _ => None
  end.

(** The canvas of the frame after the image step, given the object the
    step leaves: the cached image of the entry pasted at the top left
    corner, or the bare canvas. *)
Definition frame_image (c : Countdown) (canvas : Image) (self : Plugin) : Image :=
  match first_image_path c with
  | Some _ =>
      match cached_images self !! cd_id c with
      | Some img => Pasted canvas img (0, 0)
      | None => canvas
      end
  | None => canvas
  end.

(** The number of [display_manager.clear()] calls in a trace. *)
Fixpoint clears (t : trace) : nat :=
  match t with
  | [] => 0%nat
  | Clear :: t' => S (clears t')
  | _ :: t' => clears t'
  end.

(** The display is not cleared. *)
Definition clears_nothing : Plugin -> trace -> Plugin -> trace -> Prop :=
  fun _ t _ t' => t `prefix_of` t' /\ clears t' = clears t.

(** Every cached image has the size [size]. *)
Definition cache_fits (size : Z * Z) (self : Plugin) : Prop :=
  forall k img, cached_images self !! k = Some img -> image_size img = size.

(** A step that keeps the cached images at the size [size]. *)
Definition keeps_fit (size : Z * Z) : Plugin -> trace -> Plugin -> trace -> Prop :=
  fun self _ self' _ => cache_fits size self -> cache_fits size self'.

(** The entries for which [update] writes the key [k]: those with the
    identifier [k], when it and the target date are non-empty. *)
Definition recorded_by (k : option string) (c : Countdown) : bool :=
  bool_decide (cd_id c = k)
  && opt_str_truthy (cd_id c) && opt_str_truthy (cd_target_date c).

End Runs.

(** ** Validation of the configuration *)
Module Validation.
Import Py Strptime Plugin.

(** The loop of [validate_config] over the entries, each a dictionary:
    the keys 'id', 'name' and 'target_date' are required, and the target
    date has to parse ([except ValueError]). *)
Fixpoint validate_loop (cs : list Countdown) : bool :=
  match cs with
  | [] => true
  | countdown :: cs' =>
      match cd_id countdown with
      | None => false
      | Some _ =>
          match cd_name countdown with
          | None => false
          | Some _ =>
              match cd_target_date countdown with
              | None => false
              | Some target_date =>
                  match strptime_Ymd target_date with
                  | Some _ => validate_loop cs'
                  | None => false
                  end
              end
          end
      end
  end.

(** [validate_config]; [base_valid] is the answer of the base class's
    [validate_config].  [self.countdowns] is a list by construction. *)
Definition validate_config (base_valid : bool) (self : Plugin) : bool :=
  if negb base_valid then false
  else validate_loop (countdowns self).

End Validation.

(** ** Plugin information *)
Module Info.
Import Py Plugin.

(** [get_info]: the dictionary of the base class, updated with the four
    counts. *)
Definition get_info (base_info : gmap string pyval) (self : Plugin)
    : gmap string pyval :=
  <["cached_images" := VInt (Z.of_nat (size (cached_images self)))]>
    (<["current_index" := VInt (Z.of_nat (current_countdown_index self))]>
       (<["enabled_count" :=
            VInt (Z.of_nat (List.length (_get_enabled_countdowns self)))]>
          (<["countdown_count" := VInt (Z.of_nat (List.length (countdowns self)))]>
             base_info))).

End Info.

(** ** Image paths *)
Module Paths.
Import Plugin.

(** The file system as [_resolve_image_path] reads it, unchanged during
    the call. *)
Record FileSystem := mkFileSystem {
  fs_isabs : string -> bool;           (* [os.path.isabs] *)
  fs_exists : string -> bool;          (* [os.path.exists], [Path.exists] *)
  fs_abspath : string -> string;       (* [os.path.abspath] *)
  fs_project_path : string -> string   (* [str(project_root / image_path)] *)
}.

(** [_resolve_image_path(image_path)] *)
Definition _resolve_image_path (fs : FileSystem) (image_path : string)
    : option string :=
  if negb (str_truthy image_path) then None
  else if fs_isabs fs image_path && fs_exists fs image_path then Some image_path
  else if fs_exists fs image_path then Some (fs_abspath fs image_path)
  else if fs_exists fs (fs_project_path fs image_path)
       then Some (fs_project_path fs image_path)
  else Some image_path.

End Paths.

(** ** More hosts *)
Module MoreHosts.
Import Py Calendar Plugin Runs.

(** A host on which every call succeeds except the highlight lookups: its
    font manager refuses a colour override. *)
Definition plain_fonts (today : date) : Host :=
  mkHost (fun _ ev => if is_highlight ev then Some TypeError else None)
         (fun t => float_of_int (Z.of_nat (List.length t)))
         (fun _ => today)
         (fun _ => 64) (fun _ => 32)
         (fun _ => true)
         (fun _ _ => Some 1)
         (fun _ p => Some p) (fun _ _ => true)
         (fun _ _ => (10, 49)).

(** A host whose plugin manager has no font manager, and on which every
    call succeeds. *)
Definition no_fonts (today : date) : Host :=
  mkHost (fun _ _ => None)
         (fun t => float_of_int (Z.of_nat (List.length t)))
         (fun _ => today)
         (fun _ => 64) (fun _ => 32)
         (fun _ => false)
         (fun _ _ => None)
         (fun _ p => Some p) (fun _ _ => true)
         (fun _ _ => (10, 49)).

(** A host on which every image file is 0 pixels wide. *)
Definition flat_images (today : date) : Host :=
  mkHost (fun _ _ => None)
         (fun t => float_of_int (Z.of_nat (List.length t)))
         (fun _ => today)
         (fun _ => 64) (fun _ => 32)
         (fun _ => true)
         (fun _ _ => Some 1)
         (fun _ p => Some p) (fun _ _ => true)
         (fun _ _ => (0, 49)).

End MoreHosts.

(** * Properties *)

Import Py Color Fit Calendar Strptime Calculator Reading Plugin Hosts Samples.

(** ** Countdown calculator *)

Lemma strptime_valid (s : string) (d : date) :
  strptime_Ymd s = Some d -> valid d = true.
Proof.
  unfold strptime_Ymd.
  destruct (regex_match _) as [[[[gY gm] gd] rest]|]; [|discriminate].
  destruct rest; [|discriminate].
  destruct (valid_ymd _ _ _) eqn:E; [|discriminate].
  intros [= <-]. exact E.
Qed.

(** *** Dates written as YYYY-MM-DD are parsed *)

Lemma is_digit_code (c : ascii) : is_digit c = true <-> 48 <= code c <= 57.
Proof.
  unfold is_digit, in_range. change (code "0") with 48. change (code "9") with 57.
  rewrite andb_true_iff, !Z.leb_le. reflexivity.
Qed.

Lemma int_of_two_digits (a b : ascii) :
  is_digit a = true -> is_digit b = true ->
  int_of_group [a; b] = 10 * (code a - 48) + (code b - 48).
Proof.
  intros Ha Hb. unfold int_of_group. simpl. rewrite Ha, Hb. lia.
Qed.

Lemma days_in_month_bound (y m : Z) : 1 <= m <= 12 -> _days_in_month y m <= 31.
Proof.
  intros Hm. unfold _days_in_month.
  destruct ((m =? 2) && _is_leap y); [lia|].
  assert (m = 1 \/ m = 2 \/ m = 3 \/ m = 4 \/ m = 5 \/ m = 6 \/ m = 7 \/ m = 8
          \/ m = 9 \/ m = 10 \/ m = 11 \/ m = 12) as Hc by lia.
  repeat destruct Hc as [->|Hc]; try subst m; simpl; lia.
Qed.

(** Case analysis on the comparisons of character codes in a goal. *)
Ltac code_cases :=
  repeat match goal with
  | |- context [Z.eqb ?x ?y] => destruct (Z.eqb_spec x y); try lia; cbn [andb]
  | |- context [Z.leb ?x ?y] => destruct (Z.leb_spec x y); try lia; cbn [andb]
  end.

Lemma month_group {A} (m1 m2 : ascii) (rest : chars)
    (k : chars -> chars -> option A) (x : A) :
  is_digit m1 = true -> is_digit m2 = true ->
  1 <= int_of_group [m1; m2] <= 12 ->
  k [m1; m2] rest = Some x ->
  match_group re_m (m1 :: m2 :: rest) k = Some x.
Proof.
  intros H1 H2 Hm Hk. rewrite (int_of_two_digits _ _ H1 H2) in Hm.
  apply is_digit_code in H1, H2.
  unfold re_m, match_group, match_alt, is_char, in_range.
  change (code "0") with 48. change (code "1") with 49. change (code "2") with 50.
  change (code "9") with 57.
  code_cases; rewrite ?Hk; try reflexivity.
Qed.

Lemma day_group {A} (d1 d2 : ascii) (k : chars -> chars -> option A) (x : A) :
  is_digit d1 = true -> is_digit d2 = true ->
  1 <= int_of_group [d1; d2] <= 31 ->
  k [d1; d2] [] = Some x ->
  match_group re_d [d1; d2] k = Some x.
Proof.
  intros H1 H2 Hm Hk. rewrite (int_of_two_digits _ _ H1 H2) in Hm.
  apply is_digit_code in H1, H2.
  unfold re_d, match_group, match_alt, is_char, in_range, is_digit, in_range.
  change (code "0") with 48. change (code "1") with 49. change (code "2") with 50.
  change (code "3") with 51. change (code "9") with 57. change (code " ") with 32.
  code_cases; rewrite ?Hk; try reflexivity.
Qed.

(** A string written exactly as YYYY-MM-DD and naming a calendar date is
    parsed to that date. *)
Lemma strict_date_is_parsed (s : string) :
  strict_YYYY_MM_DD s = true -> exists d, strptime_Ymd s = Some d.
Proof.
  unfold strict_YYYY_MM_DD, strptime_Ymd.
  destruct (list_ascii_of_string s)
    as [|y1 [|y2 [|y3 [|y4 [|h1 [|m1 [|m2 [|h2 [|d1 [|d2 [|? ?]]]]]]]]]]];
    try discriminate.
  rewrite !andb_true_iff. simpl forallb. rewrite !andb_true_iff.
  intros [[[(Hy1 & Hy2 & Hy3 & Hy4 & Hm1 & Hm2 & Hd1 & Hd2 & _) Hh1] Hh2] Hvalid].
  pose proof Hvalid as Hv. unfold valid_ymd in Hv.
  rewrite !andb_true_iff, !Z.leb_le in Hv.
  destruct Hv as (((((Hy & Hy') & Hm) & Hm') & Hd) & Hd').
  pose proof (days_in_month_bound (int_of_group [y1; y2; y3; y4])
                (int_of_group [m1; m2]) (conj Hm Hm')) as Hdim.
  assert (Hmatch : regex_match [y1; y2; y3; y4; h1; m1; m2; h2; d1; d2]
                   = Some ([y1; y2; y3; y4], [m1; m2], [d1; d2], [])).
  { unfold regex_match.
    unfold re_Y, match_group at 1, match_alt. rewrite Hy1, Hy2, Hy3, Hy4.
    unfold match_literal at 1. rewrite Hh1.
    match goal with
    | |- match ?e with _ => _ end = Some ?r =>
        assert (E : e = Some r); [|rewrite E; reflexivity]
    end.
    apply month_group; [assumption|assumption|lia|].
    unfold match_literal. rewrite Hh2.
    apply day_group; [assumption|assumption|lia|reflexivity]. }
  rewrite Hmatch, Hvalid. eauto.
Qed.

(** [isoformat] writes a calendar date as YYYY-MM-DD, and [strptime] reads
    it back. *)
Lemma code_digit_char (n : Z) : 0 <= n -> code (digit_char n) = 48 + n mod 10.
Proof.
  intros Hn. unfold code, digit_char.
  rewrite nat_ascii_embedding.
  - rewrite Z2Nat.id; [reflexivity|]. pose proof (Z.mod_pos_bound n 10). lia.
  - pose proof (Z.mod_pos_bound n 10 ltac:(lia)).
    apply Nat2Z.inj_lt. rewrite Z2Nat.id by lia. lia.
Qed.

Lemma is_digit_digit_char (n : Z) : 0 <= n -> is_digit (digit_char n) = true.
Proof.
  intros Hn. apply is_digit_code. rewrite (code_digit_char n Hn).
  pose proof (Z.mod_pos_bound n 10). lia.
Qed.

Lemma int_of_pad2 (n : Z) : 0 <= n < 100 -> int_of_group (pad2 n) = n.
Proof.
  intros Hn. unfold pad2.
  rewrite int_of_two_digits by (apply is_digit_digit_char; try apply Z.div_pos; lia).
  rewrite !code_digit_char by (try apply Z.div_pos; lia).
  rewrite (Z.mod_small (n / 10)) by (split; [apply Z.div_pos; lia|
    apply Z.div_lt_upper_bound; lia]).
  pose proof (Z.div_mod n 10). lia.
Qed.

Lemma int_of_pad4 (n : Z) : 0 <= n < 10000 -> int_of_group (pad4 n) = n.
Proof.
  intros Hn. unfold pad4, int_of_group. simpl.
  rewrite !is_digit_digit_char by (try apply Z.div_pos; lia).
  rewrite !code_digit_char by (try apply Z.div_pos; lia).
  assert (E1 : n / 10 / 10 = n / 100) by (rewrite Z.div_div by lia; reflexivity).
  assert (E2 : n / 100 / 10 = n / 1000) by (rewrite Z.div_div by lia; reflexivity).
  rewrite (Z.mod_small (n / 1000)) by (split; [apply Z.div_pos; lia|
    apply Z.div_lt_upper_bound; lia]).
  pose proof (Z.div_mod n 10 ltac:(lia)).
  pose proof (Z.div_mod (n / 10) 10 ltac:(lia)).
  pose proof (Z.div_mod (n / 100) 10 ltac:(lia)).
  lia.
Qed.

Lemma strptime_isoformat (d : date) :
  valid d = true -> strptime_Ymd (isoformat d) = Some d.
Proof.
  destruct d as [y m dd]. unfold valid. simpl. intros Hvalid.
  pose proof Hvalid as Hv. unfold valid_ymd in Hv.
  rewrite !andb_true_iff, !Z.leb_le in Hv.
  destruct Hv as (((((Hy & Hy') & Hm) & Hm') & Hd) & Hd').
  pose proof (days_in_month_bound y m (conj Hm Hm')) as Hdim.
  unfold strptime_Ymd, isoformat. rewrite list_ascii_of_string_of_list_ascii.
  simpl year; simpl month; simpl day.
  assert (Hmatch : regex_match (pad4 y ++ "-"%char :: pad2 m ++ "-"%char :: pad2 dd)
                   = Some (pad4 y, pad2 m, pad2 dd, [])).
  { unfold regex_match, pad4. simpl app.
    unfold re_Y, match_group at 1, match_alt.
    rewrite !is_digit_digit_char by (try apply Z.div_pos; lia).
    unfold match_literal at 1. change (is_char "-" "-") with true. cbv iota.
    unfold pad2 at 1. simpl app.
    match goal with
    | |- match ?e with _ => _ end = Some ?r =>
        assert (E : e = Some r); [|rewrite E; reflexivity]
    end.
    apply month_group;
      [apply is_digit_digit_char; apply Z.div_pos; lia
      |apply is_digit_digit_char; lia
      |change [digit_char (m / 10); digit_char m] with (pad2 m);
       rewrite int_of_pad2; lia|].
    unfold match_literal. change (is_char "-" "-") with true. cbv iota.
    apply day_group;
      [apply is_digit_digit_char; apply Z.div_pos; lia
      |apply is_digit_digit_char; lia
      |change [digit_char (dd / 10); digit_char dd] with (pad2 dd);
       rewrite int_of_pad2; lia
      |reflexivity]. }
  rewrite Hmatch, int_of_pad4, !int_of_pad2, Hvalid by lia. reflexivity.
Qed.

(** The four branches on the number of days to the target date. *)
Lemma remaining_by_delta (d t : date) :
  (days_between d t < 0 ->
     remaining d t =
       mkResult (Z.abs (days_between d t)) 0 0 true false
         (py_str_of_int (Z.abs (days_between d t)) +:+ "d ago"))
  /\ (days_between d t = 0 -> remaining d t = mkResult 0 0 0 false true "TODAY!")
  /\ (days_between d t = 1 -> remaining d t = mkResult 1 0 0 false false "1 Day")
  /\ (days_between d t > 1 ->
     remaining d t =
       mkResult (days_between d t) 0 0 false false
         (py_str_of_int (days_between d t) +:+ " Days")).
Proof.
  unfold remaining. repeat split; intros Hd.
  - apply Z.ltb_lt in Hd as ->. reflexivity.
  - rewrite Hd. reflexivity.
  - rewrite Hd. reflexivity.
  - destruct (Z.ltb_spec (days_between d t) 0); [lia|].
    destruct (Z.eqb_spec (days_between d t) 0); [lia|].
    destruct (Z.eqb_spec (days_between d t) 1); [lia|].
    reflexivity.
Qed.

(** Every calendar date is the target of some string: its ISO form. *)
Lemma time_remaining_of_valid_date (d t : date) :
  valid d = true -> _calculate_time_remaining t (isoformat d) = remaining d t.
Proof.
  intros Hv. unfold _calculate_time_remaining.
  rewrite (strptime_isoformat d Hv). reflexivity.
Qed.

(** C1. For a target date string that parses to the calendar date [d] and
    a current day [t], with [delta] the whole days from [t] to [d]: a
    negative [delta] gives an expired result with [days = |delta|] and the
    label "{days}d ago"; [delta = 0] gives the result of the day itself,
    labelled "TODAY!"; [delta = 1] gives "1 Day"; a larger [delta] gives
    "{delta} Days" with [days = delta]; the two flags are false wherever
    they are not named. *)
Theorem time_remaining_by_delta (s : string) (d t : date) :
  strptime_Ymd s = Some d ->
  (days_between d t < 0 ->
     _calculate_time_remaining t s =
       mkResult (Z.abs (days_between d t)) 0 0 true false
         (py_str_of_int (Z.abs (days_between d t)) +:+ "d ago"))
  /\ (days_between d t = 0 ->
     _calculate_time_remaining t s = mkResult 0 0 0 false true "TODAY!")
  /\ (days_between d t = 1 ->
     _calculate_time_remaining t s = mkResult 1 0 0 false false "1 Day")
  /\ (days_between d t > 1 ->
     _calculate_time_remaining t s =
       mkResult (days_between d t) 0 0 false false
         (py_str_of_int (days_between d t) +:+ " Days")).
Proof.
  intros Hparse. unfold _calculate_time_remaining. rewrite Hparse.
  apply remaining_by_delta.
Qed.

Lemma time_remaining_by_delta_witness :
  (days_between (mkdate 2024 2 27) (mkdate 2024 3 1) < 0 ->
     _calculate_time_remaining (mkdate 2024 3 1) "2024-02-27" =
       mkResult (Z.abs (days_between (mkdate 2024 2 27) (mkdate 2024 3 1))) 0 0 true false
         (py_str_of_int (Z.abs (days_between (mkdate 2024 2 27) (mkdate 2024 3 1)))
            +:+ "d ago"))
  /\ (days_between (mkdate 2024 2 27) (mkdate 2024 3 1) = 0 ->
     _calculate_time_remaining (mkdate 2024 3 1) "2024-02-27" =
       mkResult 0 0 0 false true "TODAY!")
  /\ (days_between (mkdate 2024 2 27) (mkdate 2024 3 1) = 1 ->
     _calculate_time_remaining (mkdate 2024 3 1) "2024-02-27" =
       mkResult 1 0 0 false false "1 Day")
  /\ (days_between (mkdate 2024 2 27) (mkdate 2024 3 1) > 1 ->
     _calculate_time_remaining (mkdate 2024 3 1) "2024-02-27" =
       mkResult (days_between (mkdate 2024 2 27) (mkdate 2024 3 1)) 0 0 false false
         (py_str_of_int (days_between (mkdate 2024 2 27) (mkdate 2024 3 1)) +:+ " Days")).
Proof.
  apply (time_remaining_by_delta "2024-02-27" (mkdate 2024 2 27) (mkdate 2024 3 1)).
  reflexivity.
Defined.

Example three_days_ago :
  _calculate_time_remaining (mkdate 2024 3 1) "2024-02-27"
  = mkResult 3 0 0 true false "3d ago".
Proof. reflexivity. Qed.

Example scenario_A_tomorrow :
  _calculate_time_remaining (mkdate 2024 12 31) "2025-01-01"
  = mkResult 1 0 0 false false "1 Day".
Proof. reflexivity. Qed.

Example scenario_B_today :
  _calculate_time_remaining (mkdate 2024 2 29) "2024-02-29"
  = mkResult 0 0 0 false true "TODAY!".
Proof. reflexivity. Qed.

Example in_three_hundred_days :
  _calculate_time_remaining (mkdate 2024 3 1) "2024-12-26"
  = mkResult 300 0 0 false false "300 Days".
Proof. reflexivity. Qed.

(** A parsed date never yields the "Error" dictionary. *)
Lemma remaining_not_error (d t : date) : remaining d t <> error_result.
Proof.
  unfold remaining, error_result.
  destruct (Z.ltb_spec (days_between d t) 0); [discriminate|].
  destruct (Z.eqb_spec (days_between d t) 0); [discriminate|].
  destruct (Z.eqb_spec (days_between d t) 1); [discriminate|].
  intros [= Hd]. lia.
Qed.

(** C9, as stated, fails: "2024-1-5" is not written as YYYY-MM-DD, yet
    [strptime] accepts the one-digit month and day and the calculator
    counts down to 5 January 2024 instead of answering "Error". *)
Lemma unpadded_date_is_counted :
  ~ (forall (today : date) (s : string),
       strict_YYYY_MM_DD s = false ->
       _calculate_time_remaining today s = error_result).
Proof.
  intros H.
  specialize (H (mkdate 2024 1 1) "2024-1-5" eq_refl).
  vm_compute in H. discriminate H.
Qed.

(** C9, amended. The calculator answers exactly
    [{days: 0, is_expired: false, is_today: false, label: "Error"}], and
    never raises, on every string that [strptime] rejects under
    '%Y-%m-%d', and only on those. *)
Theorem error_result_iff_rejected (today : date) (s : string) :
  _calculate_time_remaining today s = error_result <-> strptime_Ymd s = None.
Proof.
  unfold _calculate_time_remaining.
  destruct (strptime_Ymd s) as [d|]; split; try reflexivity; try discriminate.
  intros H. destruct (remaining_not_error _ _ H).
Qed.

Example space_padded_day_is_counted :
  _calculate_time_remaining (mkdate 2024 1 1) "2024-01- 5"
  = mkResult 4 0 0 false false "4 Days".
Proof. reflexivity. Qed.

Example rejected_dates :
  map strptime_Ymd
    ["2024-13-01"; "2023-02-29"; "0000-01-01"; "2024-01-05 "; "24-01-05";
     "2024/01/05"; ""; "tomorrow"]
  = [None; None; None; None; None; None; None; None].
Proof. reflexivity. Qed.

(** ** Colour normaliser *)

Section ColorFacts.

Variable float_of_str : string -> option float.

Lemma int_of_float_raises (f : float) (e : pyexn) :
  int_of_float f = Raised e -> e = ValueError \/ e = OverflowError.
Proof.
  unfold int_of_float. destruct (Prim2SF f); intros [= <-]; auto.
Qed.

Lemma component_converts (c r : pyval) :
  component float_of_str c r ->
  numeric_component float_of_str c = Return r /\ in_byte_range r = true.
Proof.
  unfold in_byte_range.
  destruct 1 as [n Hn|b|f n Hf Hn|s f n Hs Hf Hn]; simpl.
  - split; [reflexivity|lia].
  - split; [reflexivity|destruct b; reflexivity].
  - rewrite Hf. split; [reflexivity|simpl; lia].
  - rewrite Hs, Hf. split; [reflexivity|simpl; lia].
Qed.

(** A component that is not acceptable and does not overflow stops the
    loop with a [ValueError]: raised by the conversion, or by the range
    test. *)
Lemma rejected_component (c : pyval) :
  overflows float_of_str c = false ->
  (forall r, ~ component float_of_str c r) ->
  numeric_component float_of_str c = Raised ValueError
  \/ exists r, numeric_component float_of_str c = Return r
               /\ in_byte_range r = false.
Proof.
  intros Hov Hno.
  assert (Hfloat : forall f, is_overflow (int_of_float f) = false ->
            (forall n, int_of_float f = Return n -> ~ 0 <= n <= 255) ->
            pybind (int_of_float f) (fun n => Return (VInt n)) = Raised ValueError
            \/ exists r, pybind (int_of_float f) (fun n => Return (VInt n)) = Return r
                         /\ in_byte_range r = false).
  { intros f Hf Hr. destruct (int_of_float f) as [n|e] eqn:E; simpl.
    - right. exists (VInt n). split; [reflexivity|].
      unfold in_byte_range; simpl. specialize (Hr n eq_refl). lia.
    - left. destruct (int_of_float_raises _ _ E) as [->| ->];
        [reflexivity|discriminate Hf]. }
  destruct c as [|b|n|f|s|l|l|d]; simpl in *; auto.
  - destruct (Hno (VBool b)). constructor.
  - right. exists (VInt n). split; [reflexivity|].
    unfold in_byte_range; simpl.
    destruct (Z.leb_spec 0 n), (Z.leb_spec n 255); try reflexivity.
    destruct (Hno (VInt n)). constructor. lia.
  - apply Hfloat; [exact Hov|]. intros n Hn Hr.
    apply (Hno (VInt n)). constructor; assumption.
  - destruct (float_of_str s) as [f|] eqn:Hs; [|auto].
    apply Hfloat; [exact Hov|]. intros n Hn Hr.
    apply (Hno (VInt n)). econstructor; eassumption.
Qed.

Lemma component_or_not (c : pyval) :
  (exists r, component float_of_str c r) \/ (forall r, ~ component float_of_str c r).
Proof.
  assert (Hr : forall n : Z, 0 <= n <= 255 \/ ~ 0 <= n <= 255) by (intros; lia).
  destruct c as [|b|n|f|s|l|l|d];
    try (right; intros r H; inversion H; fail).
  - left. eexists. constructor.
  - destruct (Hr n); [left; eexists; constructor; eassumption|].
    right. intros r H'. inversion H'; subst. contradiction.
  - destruct (int_of_float f) as [n|e] eqn:E.
    + destruct (Hr n); [left; eexists; econstructor; eassumption|].
      right. intros r H'. inversion H'; subst. congruence.
    + right. intros r H'. inversion H'; subst. congruence.
  - destruct (float_of_str s) as [f|] eqn:Hs.
    + destruct (int_of_float f) as [n|e] eqn:E.
      * destruct (Hr n); [left; eexists; econstructor; eassumption|].
        right. intros r H'. inversion H'; subst. congruence.
      * right. intros r H'. inversion H'; subst. congruence.
    + right. intros r H'. inversion H'; subst. congruence.
Qed.

(** The loop over three components, none of which overflows: the triple
    when all three are acceptable, a caught [ValueError] otherwise. *)
Lemma color_loop_three (c1 c2 c3 : pyval) :
  forallb (fun c => negb (overflows float_of_str c)) [c1; c2; c3] = true ->
  (exists r1 r2 r3,
     component float_of_str c1 r1 /\ component float_of_str c2 r2
     /\ component float_of_str c3 r3
     /\ color_loop float_of_str [c1; c2; c3] [] = Return [r1; r2; r3])
  \/ ((forall r1 r2 r3, ~ (component float_of_str c1 r1
                           /\ component float_of_str c2 r2
                           /\ component float_of_str c3 r3))
      /\ color_loop float_of_str [c1; c2; c3] [] = Raised ValueError).
Proof.
  simpl. rewrite !andb_true_iff, !negb_true_iff. intros (H1 & H2 & H3 & _).
  assert (Hstop : forall c, overflows float_of_str c = false ->
            (forall r, ~ component float_of_str c r) ->
            forall k : pyval -> pyresult (list pyval),
              pybind (numeric_component float_of_str c) (fun c' =>
                if in_byte_range c' then k c' else Raised ValueError)
              = Raised ValueError).
  { intros c Hov Hno k.
    destruct (rejected_component c Hov Hno) as [-> | (r & -> & Hr)]; simpl;
      [reflexivity|].
    rewrite Hr. reflexivity. }
  destruct (component_or_not c1) as [[r1 C1]|N1].
  2:{ right. split; [intros r1 r2 r3 (C & _); exact (N1 _ C)|].
      apply (Hstop c1 H1 N1). }
  destruct (component_converts _ _ C1) as [E1 R1].
  rewrite E1; simpl; rewrite R1.
  destruct (component_or_not c2) as [[r2 C2]|N2].
  2:{ right. split; [intros ? r2 ? (_ & C & _); exact (N2 _ C)|].
      apply (Hstop c2 H2 N2). }
  destruct (component_converts _ _ C2) as [E2 R2].
  rewrite E2; simpl; rewrite R2.
  destruct (component_or_not c3) as [[r3 C3]|N3].
  2:{ right. split; [intros ? ? r3 (_ & _ & C); exact (N3 _ C)|].
      apply (Hstop c3 H3 N3). }
  destruct (component_converts _ _ C3) as [E3 R3].
  rewrite E3; simpl; rewrite R3.
  left. exists r1, r2, r3. auto.
Qed.

Lemma component_functional (c r r' : pyval) :
  component float_of_str c r -> component float_of_str c r' -> r = r'.
Proof.
  intros H H'.
  apply component_converts in H as [H _], H' as [H' _]. congruence.
Qed.

(** C7, as stated, fails on a float between -1 and 0: a floor sends -0.5
    to -1, outside 0..255, so no component of [-0.5, 0, 0] is acceptable in
    the specification's reading and the default should come back; the code
    truncates -0.5 to 0 and returns (0, 0, 0). *)
Lemma negative_fraction_is_kept :
  ~ (forall color_value default : pyval,
       (forall c1 c2 c3 n1 n2 n3,
          (color_value = VList [c1; c2; c3] \/ color_value = VTuple [c1; c2; c3]) ->
          ~ (floored_component decimal_float_of_str c1 n1
             /\ floored_component decimal_float_of_str c2 n2
             /\ floored_component decimal_float_of_str c3 n3)) ->
       _parse_color decimal_float_of_str color_value default = Return default).
Proof.
  intros H.
  specialize (H (VList [VFloat (-0.5)%float; VInt 0; VInt 0])
                (VTuple [VInt 255; VInt 255; VInt 255])).
  assert (Hpre : forall c1 c2 c3 n1 n2 n3,
            (VList [VFloat (-0.5)%float; VInt 0; VInt 0] = VList [c1; c2; c3]
             \/ VList [VFloat (-0.5)%float; VInt 0; VInt 0] = VTuple [c1; c2; c3]) ->
            ~ (floored_component decimal_float_of_str c1 n1
               /\ floored_component decimal_float_of_str c2 n2
               /\ floored_component decimal_float_of_str c3 n3)).
  { intros c1 c2 c3 n1 n2 n3 [[= <- <- <-]|[=]] (F & _).
    inversion F as [|f n Hf Hn|]; subst.
    vm_compute in Hf. injection Hf as <-. lia. }
  specialize (H Hpre). vm_compute in H. discriminate H.
Qed.

(** The part of C7 the code misses by a slip: [OverflowError] is not in
    the [except] clause, so an infinite component escapes. *)
Lemma infinite_component_escapes :
  _parse_color decimal_float_of_str (VList [VFloat infinity; VInt 0; VInt 0])
    (VTuple [VInt 0; VInt 0; VInt 0])
  = Raised OverflowError.
Proof. reflexivity. Qed.

(** C7, amended. On every value none of whose components is infinite,
    [_parse_color] returns normally: the triple of integers when the value
    is a list or tuple of three acceptable components (an integer in
    0..255, a float truncated toward zero into 0..255, or numeric text
    likewise), and the supplied default in every other case. *)
Theorem parse_color_total (color_value default : pyval) :
  forallb (fun c => negb (overflows float_of_str c)) (elements color_value) = true ->
  (forall rs, accepted float_of_str color_value rs ->
     _parse_color float_of_str color_value default = Return (VTuple rs))
  /\ ((forall rs, ~ accepted float_of_str color_value rs) ->
     _parse_color float_of_str color_value default = Return default).
Proof.
  intros Hov.
  assert (Hseq : forall l,
            forallb (fun c => negb (overflows float_of_str c)) l = true ->
            (forall rs,
               (exists c1 c2 c3 r1 r2 r3, l = [c1; c2; c3]
                  /\ component float_of_str c1 r1 /\ component float_of_str c2 r2
                  /\ component float_of_str c3 r3 /\ rs = [r1; r2; r3]) ->
               parse_sequence float_of_str l default = Return (VTuple rs))
            /\ ((forall rs,
               ~ (exists c1 c2 c3 r1 r2 r3, l = [c1; c2; c3]
                  /\ component float_of_str c1 r1 /\ component float_of_str c2 r2
                  /\ component float_of_str c3 r3 /\ rs = [r1; r2; r3])) ->
               parse_sequence float_of_str l default = Return default)).
  { intros l Hl. unfold parse_sequence.
    destruct l as [|c1 [|c2 [|c3 [|c4 l]]]];
      try (split; [intros rs (?&?&?&?&?&?&[=]&_)|reflexivity]).
    destruct (color_loop_three c1 c2 c3 Hl)
      as [(r1 & r2 & r3 & C1 & C2 & C3 & E)|(Hno & E)]; simpl Nat.eqb; cbv iota;
      rewrite E.
    - split.
      + intros rs (?&?&?&r1'&r2'&r3'&[= <- <- <-]&C1'&C2'&C3'&->).
        rewrite (component_functional _ _ _ C1 C1'),
                (component_functional _ _ _ C2 C2'),
                (component_functional _ _ _ C3 C3'). reflexivity.
      + intros Hnone. destruct (Hnone [r1; r2; r3]).
        exists c1, c2, c3, r1, r2, r3. auto.
    - split; [|reflexivity].
      intros rs (?&?&?&r1'&r2'&r3'&[= <- <- <-]&C1'&C2'&C3'&_).
      destruct (Hno r1' r2' r3'). auto. }
  unfold accepted.
  destruct color_value as [|b|n|f|s|l|l|d]; simpl in *;
    try (split; [intros rs (?&?&?&?&?&?&[[=]|[=]]&_)|reflexivity]).
  - destruct (Hseq l Hov) as [Hyes Hno]. split.
    + intros rs (c1&c2&c3&r1&r2&r3&[[= ->]|[=]]&C1&C2&C3&->).
      apply Hyes. exists c1, c2, c3, r1, r2, r3. auto.
    + intros Hnone. apply Hno.
      intros rs (c1&c2&c3&r1&r2&r3&->&C1&C2&C3&->).
      apply (Hnone [r1; r2; r3]). exists c1, c2, c3, r1, r2, r3. auto 10.
  - destruct (Hseq l Hov) as [Hyes Hno]. split.
    + intros rs (c1&c2&c3&r1&r2&r3&[[=]|[= ->]]&C1&C2&C3&->).
      apply Hyes. exists c1, c2, c3, r1, r2, r3. auto.
    + intros Hnone. apply Hno.
      intros rs (c1&c2&c3&r1&r2&r3&->&C1&C2&C3&->).
      apply (Hnone [r1; r2; r3]). exists c1, c2, c3, r1, r2, r3. auto 10.
Qed.

End ColorFacts.

Lemma parse_color_total_witness :
  (forall rs,
     accepted decimal_float_of_str
       (VList [VFloat 12.5%float; VStr "255"; VBool true]) rs ->
     _parse_color decimal_float_of_str
       (VList [VFloat 12.5%float; VStr "255"; VBool true])
       (VTuple [VInt 0; VInt 0; VInt 0]) = Return (VTuple rs))
  /\ ((forall rs,
         ~ accepted decimal_float_of_str
             (VList [VFloat 12.5%float; VStr "255"; VBool true]) rs) ->
     _parse_color decimal_float_of_str
       (VList [VFloat 12.5%float; VStr "255"; VBool true])
       (VTuple [VInt 0; VInt 0; VInt 0]) = Return (VTuple [VInt 0; VInt 0; VInt 0])).
Proof.
  apply (parse_color_total decimal_float_of_str
           (VList [VFloat 12.5%float; VStr "255"; VBool true])
           (VTuple [VInt 0; VInt 0; VInt 0])).
  reflexivity.
Defined.

Example mixed_components :
  _parse_color decimal_float_of_str
    (VList [VFloat 12.5%float; VStr "255"; VBool true]) (VTuple [VInt 0; VInt 0; VInt 0])
  = Return (VTuple [VInt 12; VInt 255; VBool true]).
Proof. reflexivity. Qed.

Example scenario_D_malformed_color :
  _parse_color decimal_float_of_str (VList [VStr "x"; VStr "y"; VStr "z"])
    (VTuple [VInt 7; VInt 8; VInt 9])
  = Return (VTuple [VInt 7; VInt 8; VInt 9]).
Proof. reflexivity. Qed.

Example out_of_range_and_arity :
  map (fun v => _parse_color decimal_float_of_str v (VTuple [VInt 7; VInt 8; VInt 9]))
    [VList [VInt 256; VInt 0; VInt 0]; VList [VInt 0; VInt 0];
     VList [VNone; VInt 0; VInt 0]; VStr "red"; VList [VFloat nan; VInt 0; VInt 0]]
  = repeat (Return (VTuple [VInt 7; VInt 8; VInt 9])) 5.
Proof. reflexivity. Qed.

(** ** Fit size *)

(** In exact arithmetic the fit size of the specification stays inside the
    box and fills its width or its height. *)
Lemma exact_fit_size_touches (img_w img_h w h : Z) :
  0 < img_w -> 0 < img_h -> 0 < w -> 0 < h ->
  let '(fw, fh) := exact_fit_size (img_w, img_h) (w, h) in
  0 <= fw <= w /\ 0 <= fh <= h /\ (fw = w \/ fh = h).
Proof.
  intros Hiw Hih Hw Hh. unfold exact_fit_size.
  destruct (Z.leb_spec (w * img_h) (h * img_w)) as [Hle|Hlt].
  - rewrite (Z.mul_comm img_w w), Z.div_mul by lia.
    assert (0 <= img_h * w / img_w) by (apply Z.div_pos; nia).
    assert (img_h * w / img_w <= h).
    { apply Z.div_le_upper_bound; nia. }
    lia.
  - rewrite (Z.mul_comm img_h h), Z.div_mul by lia.
    assert (0 <= img_w * h / img_h) by (apply Z.div_pos; nia).
    assert (img_w * h / img_h <= w).
    { apply Z.div_le_upper_bound; nia. }
    lia.
Qed.

(** C8 at a 10x49 image and a 32x32 box: the height ratio 32/49 is the
    smaller one, and the specification's formula gives (6, 32), filling the
    height; in binary64 the product 49 * (32 / 49) falls just below 32 and
    the truncation leaves 31, so the computed box (6, 31) touches no
    edge. *)
Theorem fit_size_falls_short :
  _calculate_fit_size (10, 49) (32, 32) = Return (6, 31)
  /\ exact_fit_size (10, 49) (32, 32) = (6, 32).
Proof. split; reflexivity. Qed.

Example fit_size_square_in_unit_box :
  _calculate_fit_size (49, 49) (1, 1) = Return (0, 0).
Proof. reflexivity. Qed.

Example fit_size_landscape :
  _calculate_fit_size (640, 480) (21, 32) = Return (21, 15).
Proof. reflexivity. Qed.

Example fit_size_empty_image :
  _calculate_fit_size (0, 480) (21, 32) = Raised ZeroDivisionError.
Proof. reflexivity. Qed.

(** ** Entry list normalisation *)

Lemma insert_by_order_perm (x : Countdown) (l : list Countdown) :
  insert_by_order x l ≡ₚ x :: l.
Proof.
  induction l as [|y l IH]; simpl; [reflexivity|].
  destruct (display_order x <=? display_order y); [reflexivity|].
  rewrite IH. apply Permutation_swap.
Qed.

(** The sorted list holds the configured entries, each as often. *)
Lemma sort_by_order_perm (l : list Countdown) : sort_by_order l ≡ₚ l.
Proof.
  induction l as [|x l IH]; simpl; [reflexivity|].
  rewrite insert_by_order_perm, IH. reflexivity.
Qed.

Lemma insert_by_order_sorted (x : Countdown) (l : list Countdown) :
  StronglySorted (fun a b => display_order a <= display_order b) l ->
  StronglySorted (fun a b => display_order a <= display_order b)
    (insert_by_order x l).
Proof.
  induction 1 as [|y l Hs IH Hy]; simpl.
  - repeat constructor.
  - destruct (Z.leb_spec (display_order x) (display_order y)) as [Hle|Hlt].
    + constructor; [constructor; assumption|].
      constructor; [exact Hle|].
      eapply Forall_impl; [exact Hy|]. intros z Hz. simpl in Hz. lia.
    + constructor; [exact IH|].
      rewrite insert_by_order_perm. constructor; [lia|exact Hy].
Qed.

(** The entries come out in ascending display order. *)
Lemma sort_by_order_sorted (l : list Countdown) :
  StronglySorted (fun a b => display_order a <= display_order b) (sort_by_order l).
Proof.
  induction l as [|x l IH]; simpl; [constructor|].
  apply insert_by_order_sorted, IH.
Qed.

Lemma sort_by_order_length (l : list Countdown) :
  List.length (sort_by_order l) = List.length l.
Proof. apply Permutation_length, sort_by_order_perm. Qed.

Example sort_is_stable :
  let e := fun id order => mkCountdown (Some id) None None None None order in
  sort_by_order [e "a" (Some 2); e "b" None; e "c" (Some 2); e "d" (Some 0);
                 e "e" (Some (-1))]
  = [e "e" (Some (-1)); e "b" None; e "d" (Some 0); e "a" (Some 2); e "c" (Some 2)].
Proof. reflexivity. Qed.

(** ** Filter *)

Lemma shown_unfold (self : Plugin) (c : Countdown) :
  shown self c =
    if negb (default true (cd_enabled c)) then false
    else match countdown_values self !! cd_id c with
         | Some v => if is_expired v && negb (show_expired self) then false else true
         | None => true
         end.
Proof.
  unfold shown, recorded_expired, enabled_flag.
  destruct (default true (cd_enabled c)); simpl; [|reflexivity].
  destruct (countdown_values self !! cd_id c) as [v|]; simpl; [|reflexivity].
  destruct (is_expired v), (show_expired self); reflexivity.
Qed.

Lemma enabled_loop_filter (self : Plugin) (cs enabled : list Countdown) :
  enabled_loop self cs enabled = enabled ++ List.filter (shown self) cs.
Proof.
  revert enabled. induction cs as [|c cs IH]; intros enabled; simpl.
  - rewrite app_nil_r. reflexivity.
  - rewrite shown_unfold.
    destruct (negb (default true (cd_enabled c))); [apply IH|].
    destruct (countdown_values self !! cd_id c) as [v|].
    + destruct (is_expired v && negb (show_expired self));
        rewrite IH, <- ?app_assoc; reflexivity.
    + rewrite IH, <- app_assoc. reflexivity.
Qed.

Lemma get_enabled_countdowns_filter (self : Plugin) :
  _get_enabled_countdowns self = List.filter (shown self) (countdowns self).
Proof. unfold _get_enabled_countdowns. apply enabled_loop_filter. Qed.

Lemma filter_sublist {A} (f : A -> bool) (l : list A) :
  sublist (List.filter f l) l.
Proof.
  induction l as [|x l IH]; simpl; [constructor|].
  destruct (f x); [apply sublist_skip|apply sublist_cons]; exact IH.
Qed.

(** C2. In every plugin state an entry is in the list
    [_get_enabled_countdowns] returns exactly when it is a configured
    entry whose 'enabled' flag is true and which is not recorded as
    expired, or [show_expired] is set; an entry with [enabled = false]
    is never in it; and the list is a subsequence of the configured
    entries, hence not longer. *)
Theorem enabled_countdowns_rule (self : Plugin) :
  (forall c,
     c ∈ _get_enabled_countdowns self <->
     c ∈ countdowns self /\ enabled_flag c = true
     /\ (recorded_expired self c = false \/ show_expired self = true))
  /\ (forall c, enabled_flag c = false -> c ∉ _get_enabled_countdowns self)
  /\ sublist (_get_enabled_countdowns self) (countdowns self)
  /\ (List.length (_get_enabled_countdowns self) <= List.length (countdowns self))%nat.
Proof.
  rewrite get_enabled_countdowns_filter.
  assert (Hin : forall c,
            c ∈ List.filter (shown self) (countdowns self) <->
            c ∈ countdowns self /\ enabled_flag c = true
            /\ (recorded_expired self c = false \/ show_expired self = true)).
  { intros c. rewrite !list_elem_of_In, filter_In. unfold shown.
    rewrite andb_true_iff, orb_true_iff, negb_true_iff. tauto. }
  split; [exact Hin|].
  split; [intros c Hc [_ [He _]]%Hin; congruence|].
  split; [apply filter_sublist|apply sublist_length, filter_sublist].
Qed.

Lemma enabled_countdowns_rule_witness :
  mkCountdown (Some "x") None None None (Some false) None
  ∉ _get_enabled_countdowns
      (plugin_of [launch; mkCountdown (Some "x") None None None (Some false) None]).
Proof.
  exact (proj1 (proj2
           (enabled_countdowns_rule
              (plugin_of [launch; mkCountdown (Some "x") None None None (Some false) None])))
           (mkCountdown (Some "x") None None None (Some false) None) eq_refl).
Defined.

Example filter_keeps_order :
  let hidden := mkCountdown (Some "x") None None None (Some false) None in
  let late := launch_with_image "z" "rocket.png" in
  _get_enabled_countdowns (plugin_of [launch; hidden; late]) = [launch; late].
Proof. reflexivity. Qed.

(** ** Running the operations *)

(** [preserves R] goes through every construct of a method. *)
Section Preservation.

Context (R : Plugin -> trace -> Plugin -> trace -> Prop) `{!StepRel R}.

Lemma preserves_ret {A} (a : A) : preserves R (mret a).
Proof. intros self t. apply step_refl. Qed.

Lemma preserves_bind {A B} (m : M A) (k : A -> M B) :
  preserves R m -> (forall a, preserves R (k a)) -> preserves R (m ≫= k).
Proof.
  intros Hm Hk self t. specialize (Hm self t).
  unfold mbind, M_bind. destruct (m self t) as [a s1 t1|e s1 t1]; simpl in *.
  - eapply step_trans; [exact Hm|apply Hk].
  - exact Hm.
Qed.

Lemma preserves_try {A} (body handler : M A) :
  preserves R body -> preserves R handler -> preserves R (try_except body handler).
Proof.
  intros Hb Hh self t. specialize (Hb self t).
  unfold try_except. destruct (body self t) as [a s1 t1|e s1 t1]; simpl in *.
  - exact Hb.
  - eapply step_trans; [exact Hb|apply Hh].
Qed.

Lemma preserves_get : preserves R get_self.
Proof. intros self t. apply step_refl. Qed.

Lemma preserves_lift {A} (r : pyresult A) : preserves R (lift r).
Proof. intros self t. unfold lift. destruct r; apply step_refl. Qed.

Lemma preserves_modify (f : Plugin -> Plugin) :
  (forall self t, R self t (f self) t) -> preserves R (modify_self f).
Proof. intros H self t. apply H. Qed.

Lemma preserves_request {A} (host : Host) (ev : event) (answer : trace -> A) :
  (forall self t, R self t self (t ++ [ev])) -> preserves R (request host ev answer).
Proof.
  intros H self t. unfold request.
  destruct (host_raises host t ev); apply H.
Qed.

Lemma preserves_observe {A} (ev : event) (answer : trace -> A) :
  (forall self t, R self t self (t ++ [ev])) -> preserves R (observe ev answer).
Proof. intros H self t. apply H. Qed.

End Preservation.

Lemma preserves_weaken (R R' : Plugin -> trace -> Plugin -> trace -> Prop)
    {A} (m : M A) :
  (forall s t s' t', R s t s' t' -> R' s t s' t') ->
  preserves R m -> preserves R' m.
Proof. intros H Hm self t. apply H, Hm. Qed.

(** Splits a goal [preserves R m] along the structure of [m], leaving the
    conditions on the writes to the object and on the host calls. *)
Ltac preserving :=
  repeat first
    [ apply preserves_ret; [typeclasses eauto]
    | apply preserves_get; [typeclasses eauto]
    | apply preserves_lift; [typeclasses eauto]
    | apply preserves_bind; [typeclasses eauto| |intros]
    | apply preserves_try; [typeclasses eauto| |]
    | apply preserves_modify
    | apply preserves_request
    | apply preserves_observe
    | match goal with
      | |- preserves _ (match ?x with _ => _ end) => destruct x
      | |- preserves _ (let '(_, _) := ?x in _) => destruct x
      end ].

Lemma safe_try {A} (body handler : M A) :
  safe handler -> safe (try_except body handler).
Proof.
  intros Hh self t. unfold try_except.
  destruct (body self t); [reflexivity|apply Hh].
Qed.

Lemma safe_ret {A} (a : A) : safe (mret a : M A).
Proof. intros self t. reflexivity. Qed.

Lemma safe_no_countdowns (host : Host) : safe (_display_no_countdowns host).
Proof. apply safe_try, safe_ret. Qed.

Lemma safe_display_error (host : Host) : safe (_display_error host).
Proof. apply safe_try, safe_ret. Qed.

Lemma safe_register_fonts (host : Host) : safe (_register_fonts host).
Proof. apply safe_try, safe_ret. Qed.

Lemma safe_update (host : Host) : safe (update host).
Proof. apply safe_try, safe_ret. Qed.

(** [_get_current_countdown] only reads the state, and clamps the index. *)
Lemma get_current_countdown_run (self : Plugin) (t : trace) :
  _get_current_countdown self t =
    match _get_enabled_countdowns self with
    | [] => Done None self t
    | _ :: _ =>
        let self' :=
          if decide (List.length (_get_enabled_countdowns self)
                     ≤ current_countdown_index self)%nat
          then set_current_countdown_index 0%nat self else self in
        Done (_get_enabled_countdowns self !! current_countdown_index self') self' t
    end.
Proof.
  unfold _get_current_countdown, mbind, M_bind, get_self; simpl.
  destruct (_get_enabled_countdowns self) as [|c l] eqn:E; [reflexivity|].
  destruct (decide _); reflexivity.
Qed.

(** ** Rotation *)

(** C3, as stated, fails on an empty filtered list: the tick answers
    "cycle complete" but [last_rotation_time] keeps its old value 0, which
    is neither of the clock readings 20 and 21. *)
Lemma empty_list_tick_keeps_time :
  ~ (forall (host : Host) (self : Plugin) (t : trace),
       (get_display_duration self
          <=? host_time host t - last_rotation_time self)%float = true ->
       exists self' t',
         is_cycle_complete host self t = Done true self' t'
         /\ (last_rotation_time self' = host_time host t
             \/ last_rotation_time self' = host_time host (t ++ [Time]))).
Proof.
  intros H.
  destruct (H (clocked (mkdate 2024 3 1) [20%float; 21%float]) (plugin_of []) []
              eq_refl)
    as (self' & t' & Hrun & Htime).
  vm_compute in Hrun. injection Hrun as <- <-.
  destruct Htime as [Ht|Ht]; apply (f_equal Prim2SF) in Ht;
    vm_compute in Ht; discriminate Ht.
Qed.

(** C3, amended. A tick reads the clock; when the time elapsed since
    [last_rotation_time] is at least the display duration it answers true,
    and, the filtered list recomputed at that moment being non-empty, moves
    the index to (index + 1) mod its length and sets [last_rotation_time]
    to the clock read again at the rotation; on an empty filtered list the
    state is left as it is.  Otherwise it answers false and leaves the
    state as it is. *)
Theorem cycle_tick (host : Host) (self : Plugin) (t : trace) :
  is_cycle_complete host self t =
    if (get_display_duration self
          <=? host_time host t - last_rotation_time self)%float
    then
      match _get_enabled_countdowns self with
      | [] => Done true self (t ++ [Time])
      | _ :: _ =>
          Done true
            (set_last_rotation_time (host_time host (t ++ [Time]))
               (set_current_countdown_index
                  ((current_countdown_index self + 1)
                     mod List.length (_get_enabled_countdowns self))%nat self))
            ((t ++ [Time]) ++ [Time])
      end
    else Done false self (t ++ [Time]).
Proof.
  unfold is_cycle_complete, time_time, observe, mbind, M_bind, get_self; simpl.
  destruct (_ <=? _)%float; [|reflexivity].
  unfold _rotate_to_next_countdown, mbind, M_bind, get_self, time_time, observe,
    modify_self; simpl.
  destruct (_get_enabled_countdowns self) as [|c l] eqn:E; reflexivity.
Qed.

Example tick_after_fifteen_seconds :
  let self :=
    set_last_rotation_time 100%float
      (set_current_countdown_index 1%nat
         (plugin_of [launch; launch_with_image "b" "rocket.png"])) in
  is_cycle_complete (clocked (mkdate 2024 3 1) [115%float; 116%float]) self [] =
    Done true (set_last_rotation_time 116%float (set_current_countdown_index 0%nat self))
      [Time; Time]
  /\ is_cycle_complete (clocked (mkdate 2024 3 1) [114.5%float]) self [] =
       Done false self [Time].
Proof. split; reflexivity. Qed.

(** ** Display *)

Lemma request_quiet {A} (host : Host) (t0 t1 : trace) (ev : event)
    (answer : trace -> A) (self : Plugin) :
  quiet_after host t0 ->
  request host ev answer self (t0 ++ t1)
  = Done (answer (t0 ++ t1)) self (t0 ++ (t1 ++ [ev])).
Proof. intros Hq. unfold request. rewrite Hq, app_assoc. reflexivity. Qed.

(** One host call on a quiet host with a font manager. *)
Ltac quiet_step Hq Hf :=
  first [ rewrite (request_quiet _ _ _ _ _ _ Hq)
        | rewrite (proj1 (Hf _))
        | rewrite (proj2 (Hf _)) ];
  cbv beta iota; rewrite <- ?app_assoc; simpl app.


(** The "no active countdowns" frame, drawn in full when the host lets it. *)
Lemma display_no_countdowns_quiet (host : Host) (self : Plugin) (t0 t1 : trace)
    (f : Font) :
  quiet_after host t0 -> fonts_after host t0 f ->
  _display_no_countdowns host self (t0 ++ t1) =
    Done tt self
      (t0 ++ t1 ++
       fallback_calls (host_matrix_width host (t0 ++ t1))
         (host_matrix_height host (t0 ++ t1 ++ [MatrixWidth]))
         (background_color self) (plugin_id self +:+ ".countdown_name")
         (font_family self) (name_font_size self) f "No Active" "Countdowns").
Proof.
  intros Hq Hf.
  unfold _display_no_countdowns, try_except, fallback_font, try_except, two_lines,
    call, resolve_font, has_font_manager, observe, mbind, M_bind, get_self, mret,
    M_ret.
  repeat quiet_step Hq Hf.
  reflexivity.
Qed.

(** [display] by cases on the active entry. *)
Lemma display_run (host : Host) (force_clear : bool) (self : Plugin) (t : trace) :
  display host force_clear self t =
    match _get_current_countdown self t with
    | Done None self1 t1 => _display_no_countdowns host self1 t1
    | Done (Some cc) self1 t1 =>
        if negb (entry_truthy cc) then _display_no_countdowns host self1 t1
        else match display_frame host cc force_clear self1 t1 with
             | Done a self' t' => Done a self' t'
             | Fault _ self' t' => _display_error host self' t'
             end
    | Fault e self1 t1 => Fault e self1 t1
    end.
Proof.
  unfold display, mbind, M_bind.
  destruct (_get_current_countdown self t) as [[cc|] self1 t1|]; try reflexivity.
  destruct (negb (entry_truthy cc)); reflexivity.
Qed.

Lemma drawn_texts_app (t u : trace) :
  drawn_texts (t ++ u) = drawn_texts t ++ drawn_texts u.
Proof.
  induction t as [|ev t IH]; [reflexivity|].
  destruct ev; simpl; rewrite IH; reflexivity.
Qed.

Lemma image_loads_app (t u : trace) :
  image_loads (t ++ u) = (image_loads t + image_loads u)%nat.
Proof.
  induction t as [|ev t IH]; [reflexivity|].
  destruct ev; simpl; rewrite IH; reflexivity.
Qed.

Lemma highlights_app (t u : trace) :
  highlights (t ++ u) = (highlights t + highlights u)%nat.
Proof.
  induction t as [|ev t IH]; [reflexivity|].
  destruct ev as [| | | | | | | | | |? ? ? [c|]| | | | | | | |]; simpl;
    rewrite IH; reflexivity.
Qed.





(** Without a font manager the fallback frame is a bare black image. *)
Example fallback_without_font_manager :
  display (fontless (mkdate 2024 3 1) 3) true (plugin_of [launch]) [] =
    Done tt (plugin_of [launch])
      [MatrixWidth; MatrixHeight;
       ImageNew (64, 32) (VTuple [VInt 0; VInt 0; VInt 0]); Clear;
       MatrixWidth; MatrixHeight;
       ImageNew (64, 32) (VTuple [VInt 0; VInt 0; VInt 0]);
       ImageCopy (Blank (64, 32) (VTuple [VInt 0; VInt 0; VInt 0]));
       SetImage (Copied (Blank (64, 32) (VTuple [VInt 0; VInt 0; VInt 0])));
       HasFontManager; UpdateDisplay].
Proof. reflexivity. Qed.



Example frame_fault_shows_error_frame :
  display (failing_at (mkdate 2024 3 1) 3) true (plugin_of [launch]) [] =
    Done tt (plugin_of [launch])
      ([MatrixWidth; MatrixHeight;
        ImageNew (64, 32) (VTuple [VInt 0; VInt 0; VInt 0]); Clear]
       ++ fallback_calls 64 32 (VTuple [VInt 0; VInt 0; VInt 0]) "cd.error"
            "press_start" 8 1 "Countdown" "Error").
Proof. reflexivity. Qed.

(** A fault on the last call of the frame: the name and the value are on
    the display already, and the error frame adds its two lines. *)
Example late_fault_keeps_the_text :
  drawn_texts
    (final_trace (display (failing_at (mkdate 2024 3 1) 10) false
                    (plugin_of [launch]) []))
  = ["Launch"; "---"; "Countdown"; "Error"].
Proof. reflexivity. Qed.

Example scenario_C_expired_hidden :
  let cc :=
    mkCountdown (Some "c") (Some "Past") (Some "2024-02-27") None (Some true) None in
  let self := plugin_of [cc] in
  let host := steady (mkdate 2024 3 1) in
  match update host self [] with
  | Done _ self' t' =>
      _get_enabled_countdowns self' = []
      /\ drawn_texts (final_trace (display host false self' t'))
         = ["No Active"; "Countdowns"]
  | Fault _ _ _ => False
  end.
Proof. vm_compute. split; reflexivity. Qed.

(** *** What the traces show *)

Lemma set_cached_images_same (self : Plugin) :
  set_cached_images (cached_images self) self = self.
Proof. destruct self; reflexivity. Qed.

#[export] Instance extends_trace_rel : StepRel extends_trace.
Proof.
  split; unfold extends_trace.
  - reflexivity.
  - intros ? t1 ? t2 ? t3 H1 H2. etrans; eassumption.
Qed.

#[export] Instance reads_only_rel : StepRel reads_only.
Proof.
  split; unfold reads_only.
  - intros. repeat split; reflexivity.
  - intros s1 t1 s2 t2 s3 t3 (-> & P1 & D1 & H1) (-> & P2 & D2 & H2).
    repeat split; [etrans; eassumption|congruence..].
Qed.

#[export] Instance loads_nothing_rel : StepRel loads_nothing.
Proof.
  split; unfold loads_nothing.
  - intros. repeat split; reflexivity.
  - intros s1 t1 s2 t2 s3 t3 (-> & P1 & L1) (-> & P2 & L2).
    repeat split; [etrans; eassumption|congruence].
Qed.

#[export] Instance keeps_cache_rel : StepRel keeps_cache.
Proof.
  split; unfold keeps_cache.
  - intros. split; reflexivity.
  - intros s1 t1 s2 t2 s3 t3 [C1 L1] [C2 L2]. split; congruence.
Qed.

#[export] Instance silent_rel : StepRel silent.
Proof.
  split; unfold silent.
  - intros. repeat split; reflexivity.
  - intros s1 t1 s2 t2 s3 t3 (P1 & D1 & H1) (P2 & D2 & H2).
    repeat split; [etrans; eassumption|congruence..].
Qed.

#[export] Instance caches_at_rel (k : option string) : StepRel (caches_at k).
Proof.
  split; unfold caches_at.
  - intros self t. split; [exists (cached_images self); symmetry;
      apply set_cached_images_same|].
    repeat split; try reflexivity. assumption.
  - intros s1 t1 s2 t2 s3 t3 ([m1 ->] & P1 & O1 & K1) ([m2 ->] & P2 & O2 & K2).
    split; [exists m2; reflexivity|].
    split; [etrans; eassumption|]. split.
    + intros k' Hk. rewrite (O2 k' Hk). apply (O1 k' Hk).
    + intros img Himg. destruct (K1 img Himg) as [Himg1 L1].
      destruct (K2 img Himg1) as [Himg2 L2]. split; [assumption|congruence].
Qed.

(** The side conditions of [preserving] on host calls. *)
Ltac trace_facts :=
  intros; unfold extends_trace, reads_only, loads_nothing, keeps_cache, silent;
  repeat split;
  rewrite ?drawn_texts_app, ?image_loads_app, ?highlights_app; simpl;
  rewrite ?app_nil_r, ?Nat.add_0_r;
  try reflexivity; try (apply prefix_app_r; reflexivity).

(** *** Loading an image *)

Lemma load_reads_only (host : Host) (image_path : string) (w h : Z) :
  preserves reads_only (_load_and_scale_image host image_path w h).
Proof.
  unfold _load_and_scale_image, call.
  destruct (negb (str_truthy image_path)); preserving; trace_facts.
Qed.

(** The side conditions of [preserving] for [caches_at]. *)
Ltac caches_facts :=
  intros; unfold caches_at;
  split; [eexists; symmetry; apply set_cached_images_same|];
  split; [try reflexivity; apply prefix_app_r; reflexivity|];
  split; [reflexivity|];
  intros ? ?; split; [assumption|];
  rewrite ?image_loads_app; simpl; rewrite ?Nat.add_0_r; reflexivity.

Lemma load_extends (host : Host) (image_path : string) (w h : Z) :
  preserves extends_trace (_load_and_scale_image host image_path w h).
Proof.
  eapply preserves_weaken; [|apply load_reads_only].
  intros s t s' t' (_ & P & _). exact P.
Qed.

(** *** Returning on a quiet host *)

Section Returning.

Context (host : Host) (t0 : trace) (Hquiet : quiet_after host t0).

Lemma returns_ret {A} (a : A) : returns_from t0 (mret a : M A).
Proof. intros self t _. reflexivity. Qed.

Lemma returns_get : returns_from t0 get_self.
Proof. intros self t _. reflexivity. Qed.

Lemma returns_modify (f : Plugin -> Plugin) : returns_from t0 (modify_self f).
Proof. intros self t _. reflexivity. Qed.

Lemma returns_observe {A} (ev : event) (answer : trace -> A) :
  returns_from t0 (observe ev answer).
Proof. intros self t _. reflexivity. Qed.

Lemma returns_request {A} (ev : event) (answer : trace -> A) :
  returns_from t0 (request host ev answer).
Proof.
  intros self t [t1 ->]. unfold request. rewrite Hquiet. reflexivity.
Qed.

Lemma returns_bind {A B} (m : M A) (k : A -> M B) :
  returns_from t0 m -> preserves extends_trace m ->
  (forall a, returns_from t0 (k a)) -> returns_from t0 (m ≫= k).
Proof.
  intros Hm He Hk self t Ht. specialize (Hm self t Ht). specialize (He self t).
  unfold mbind, M_bind. destruct (m self t) as [a s1 t1|]; [|discriminate].
  apply Hk. etrans; [exact Ht|exact He].
Qed.

Lemma returns_try {A} (body handler : M A) :
  preserves extends_trace body -> returns_from t0 handler ->
  returns_from t0 (try_except body handler).
Proof.
  intros He Hh self t Ht. specialize (He self t). unfold try_except.
  destruct (body self t) as [|e s1 t1]; [reflexivity|].
  apply Hh. etrans; [exact Ht|exact He].
Qed.

End Returning.

(** Splits a goal [returns_from t0 m] along the structure of [m]. *)
Ltac returning Hq :=
  repeat first
    [ apply returns_ret
    | apply returns_get
    | apply returns_modify
    | apply returns_observe
    | apply (returns_request _ _ Hq)
    | apply returns_try; [| ]
    | apply returns_bind; [| |intros]
    | match goal with
      | |- returns_from _ (match ?x with _ => _ end) => destruct x
      | |- returns_from _ (let '(_, _) := ?x in _) => destruct x
      end ].

Lemma load_returns (host : Host) (t0 : trace) (image_path : string) (w h : Z) :
  quiet_after host t0 ->
  returns_from t0 (_load_and_scale_image host image_path w h).
Proof.
  intros Hq. unfold _load_and_scale_image, call.
  destruct (negb (str_truthy image_path)); returning Hq;
    try (preserving; trace_facts; fail).
Qed.

(** *** The image step of [display] *)

Lemma image_step_refl (k : option string) (self : Plugin) (t : trace) :
  image_step k self t self t.
Proof. split; apply step_refl. Qed.

Lemma image_step_miss (k : option string) (self : Plugin) (t t' : trace)
    (m : gmap (option string) Image) :
  cached_images self !! k = None ->
  (forall k', k' <> k -> m !! k' = cached_images self !! k') ->
  t `prefix_of` t' -> drawn_texts t' = drawn_texts t ->
  highlights t' = highlights t ->
  image_step k self t (set_cached_images m self) t'.
Proof.
  intros Hc Hm P D H. split; [|repeat split; assumption].
  split; [exists m; reflexivity|]. split; [exact P|]. split.
  - intros k' Hk. destruct self; simpl in *. apply Hm, Hk.
  - intros img Himg. congruence.
Qed.

Lemma image_step_call (k : option string) (self : Plugin) (t : trace) (ev : event) :
  drawn_texts [ev] = [] -> highlights [ev] = 0%nat -> image_loads [ev] = 0%nat ->
  image_step k self t self (t ++ [ev]).
Proof.
  intros D H L. split.
  - split; [eexists; symmetry; apply set_cached_images_same|].
    split; [apply prefix_app_r; reflexivity|].
    split; [reflexivity|].
    intros ? ?; split; [assumption|].
    rewrite image_loads_app, L. lia.
  - unfold silent. rewrite drawn_texts_app, highlights_app, D, H, app_nil_r.
    split; [apply prefix_app_r; reflexivity|]. split; [reflexivity|lia].
Qed.

Lemma draw_cached_image_step (host : Host) (cc : Countdown) (canvas : Image)
    (iw h : Z) :
  preserves (image_step (cd_id cc)) (draw_cached_image host cc canvas iw h).
Proof.
  intros self t. unfold draw_cached_image.
  destruct (default [] (cd_image cc)) as [|[image_path|] rest];
    try apply image_step_refl.
  destruct (str_truthy image_path); [|apply image_step_refl].
  unfold mbind, M_bind, get_self, call, modify_self, mret, M_ret.
  destruct (cached_images self !! cd_id cc) as [img|] eqn:Hc.
  - rewrite Hc. unfold request. destruct (host_raises host t _); simpl;
      apply image_step_call; reflexivity.
  - pose proof (load_reads_only host image_path iw h self t) as Hl.
    destruct (_load_and_scale_image host image_path iw h self t)
      as [[img|] s1 t1|e s1 t1]; simpl in Hl; destruct Hl as (-> & P & D & H).
    + simpl. rewrite lookup_insert_eq. unfold request.
      destruct (host_raises host t1 _); simpl;
        (apply image_step_miss;
         [ exact Hc
         | intros k' Hk; apply lookup_insert_ne; congruence
         | etrans; [exact P|apply prefix_app_r; reflexivity]
         | rewrite drawn_texts_app, app_nil_r; exact D
         | rewrite highlights_app; simpl; lia ]).
    + simpl. rewrite Hc. simpl.
      rewrite <- (set_cached_images_same self) at 2.
      apply image_step_miss; auto.
    + simpl. rewrite <- (set_cached_images_same self) at 2.
      apply image_step_miss; auto.
Qed.

Lemma draw_cached_image_extends (host : Host) (cc : Countdown) (canvas : Image)
    (iw h : Z) :
  preserves extends_trace (draw_cached_image host cc canvas iw h).
Proof.
  eapply preserves_weaken; [|apply draw_cached_image_step].
  intros s t s' t' [_ (P & _)]. exact P.
Qed.

Lemma draw_cached_image_returns (host : Host) (t0 : trace) (cc : Countdown)
    (canvas : Image) (iw h : Z) :
  quiet_after host t0 ->
  returns_from t0 (draw_cached_image host cc canvas iw h).
Proof.
  intros Hq. unfold draw_cached_image, call.
  returning Hq;
    try (apply load_returns; exact Hq);
    try (apply load_extends);
    try (preserving; first [apply load_extends|trace_facts]; fail).
Qed.

(** *** The frame *)

Lemma display_no_countdowns_loads_nothing (host : Host) :
  preserves loads_nothing (_display_no_countdowns host).
Proof.
  unfold _display_no_countdowns, fallback_font, two_lines, call, resolve_font,
    has_font_manager.
  preserving; trace_facts.
Qed.

Lemma display_error_loads_nothing (host : Host) :
  preserves loads_nothing (_display_error host).
Proof.
  unfold _display_error, fallback_font, two_lines, call, resolve_font,
    has_font_manager.
  preserving; trace_facts.
Qed.

Lemma loads_nothing_caches_at (k : option string) {A} (m : M A) :
  preserves loads_nothing m -> preserves (caches_at k) m.
Proof.
  apply preserves_weaken. intros s t s' t' (-> & P & L).
  split; [eexists; symmetry; apply set_cached_images_same|].
  split; [exact P|]. split; [reflexivity|]. intros img Himg. split; assumption.
Qed.

Lemma display_frame_caches (host : Host) (cc : Countdown) (force_clear : bool) :
  preserves (caches_at (cd_id cc)) (display_frame host cc force_clear).
Proof.
  unfold display_frame, frame_fonts, today_font, call, resolve_font,
    has_font_manager.
  preserving;
    try (eapply preserves_weaken; [|apply draw_cached_image_step];
         intros ? ? ? ? [Hc _]; exact Hc);
    try caches_facts.
Qed.

(** [display] either leaves the object as [_get_current_countdown] left it
    and loads nothing, or runs the frame of the active entry, writing the
    image cache only, under the identifier of that entry. *)
Lemma display_caches (host : Host) (force_clear : bool) (self : Plugin) (t : trace) :
  exists self1 : Plugin,
    (self1 = self \/ self1 = set_current_countdown_index 0%nat self)
    /\ ((final_self (display host force_clear self t) = self1
         /\ image_loads (final_trace (display host force_clear self t))
            = image_loads t)
        \/ exists cc,
             _get_current_countdown self t = Done (Some cc) self1 t
             /\ cc ∈ _get_enabled_countdowns self
             /\ caches_at (cd_id cc) self1 t
                  (final_self (display host force_clear self t))
                  (final_trace (display host force_clear self t))).
Proof.
  rewrite display_run, get_current_countdown_run.
  assert (Hnone : forall s,
            final_self (_display_no_countdowns host s t) = s
            /\ image_loads (final_trace (_display_no_countdowns host s t))
               = image_loads t).
  { intros s. destruct (display_no_countdowns_loads_nothing host s t) as (E & _ & L).
    split; assumption. }
  destruct (_get_enabled_countdowns self) as [|c l] eqn:E.
  - exists self. split; [auto|]. left. apply Hnone.
  - cbv zeta.
    set (self1 := if decide _ then _ else self).
    assert (Hs : self1 = self \/ self1 = set_current_countdown_index 0%nat self).
    { subst self1. destruct (decide _); auto. }
    exists self1. split; [exact Hs|].
    destruct ((c :: l) !! current_countdown_index self1) as [cc|] eqn:Hcc;
      [|left; apply Hnone].
    destruct (negb (entry_truthy cc)) eqn:Ht; [left; apply Hnone|].
    right. exists cc. split; [reflexivity|].
    split; [eapply list_elem_of_lookup_2, Hcc|].
    apply (preserves_try (caches_at (cd_id cc)) _ _
             (display_frame_caches host cc force_clear)
             (loads_nothing_caches_at _ _ (display_error_loads_nothing host))).
Qed.

Lemma set_index_fields (i : nat) (self : Plugin) :
  cached_images (set_current_countdown_index i self) = cached_images self
  /\ countdowns (set_current_countdown_index i self) = countdowns self
  /\ countdown_values (set_current_countdown_index i self) = countdown_values self.
Proof. destruct self; repeat split. Qed.

(** What [display] does to the cache, in terms of the object it was called
    on. *)
Lemma display_cache_facts (host : Host) (force_clear : bool) (self : Plugin)
    (t : trace) :
  let self' := final_self (display host force_clear self t) in
  countdowns self' = countdowns self
  /\ (forall k img, cached_images self !! k = Some img ->
        cached_images self' !! k = Some img)
  /\ (forall k, cached_images self' !! k <> None ->
        cached_images self !! k <> None
        \/ k ∈ map cd_id (_get_enabled_countdowns self))
  /\ (forall cc self1,
        _get_current_countdown self t = Done (Some cc) self1 t ->
        cached_images self !! cd_id cc <> None ->
        image_loads (final_trace (display host force_clear self t))
        = image_loads t).
Proof.
  cbv zeta.
  destruct (display_caches host force_clear self t) as (self1 & Hs & H).
  assert (Hc1 : cached_images self1 = cached_images self
                /\ countdowns self1 = countdowns self).
  { destruct Hs as [->| ->]; [auto|]. destruct self; auto. }
  destruct Hc1 as [Hc1 Hl1].
  destruct H as [[-> L]|(cc & Hcur & Hin & ([m ->] & P & O & K))].
  - rewrite Hc1, Hl1. repeat split; auto.
  - split; [destruct self1; exact Hl1|]. split; [|split].
    + intros k img Hk. rewrite <- Hc1 in Hk.
      destruct (decide (k = cd_id cc)) as [->|Hne].
      * apply (K img Hk).
      * rewrite (O k Hne). exact Hk.
    + intros k Hk. destruct (decide (k = cd_id cc)) as [->|Hne].
      * right. apply list_elem_of_fmap. exists cc. auto.
      * left. rewrite (O k Hne), Hc1 in Hk. exact Hk.
    + intros cc' s1 Hcur' Hk. rewrite Hcur in Hcur'. injection Hcur' as <- _.
      rewrite <- Hc1 in Hk.
      destruct (cached_images self1 !! cd_id cc) as [img|] eqn:E; [|congruence].
      apply (K img eq_refl).
Qed.

(** *** Update, rotation, fonts *)

Ltac keeps_facts :=
  intros; unfold keeps_cache;
  match goal with |- context [cached_images (_ ?s)] => destruct s end;
  split; reflexivity.

Lemma update_loop_keeps_cache (host : Host) (cs : list Countdown) :
  preserves keeps_cache (update_loop host cs).
Proof.
  induction cs as [|c cs IH]; simpl.
  - apply preserves_ret. typeclasses eauto.
  - unfold calculate_time_remaining, date_today.
    preserving; try exact IH; try trace_facts; try keeps_facts.
Qed.

Lemma update_keeps_cache (host : Host) : preserves keeps_cache (update host).
Proof.
  unfold update. preserving; try apply update_loop_keeps_cache.
Qed.

Lemma is_cycle_complete_keeps_cache (host : Host) :
  preserves keeps_cache (is_cycle_complete host).
Proof.
  unfold is_cycle_complete, _rotate_to_next_countdown, time_time.
  preserving; try trace_facts; try keeps_facts.
Qed.

Lemma reset_cycle_state_keeps_cache (host : Host) :
  preserves keeps_cache (reset_cycle_state host).
Proof.
  unfold reset_cycle_state, time_time.
  preserving; try trace_facts; try keeps_facts.
Qed.

Lemma register_fonts_loads_nothing (host : Host) :
  preserves loads_nothing (_register_fonts host).
Proof.
  unfold _register_fonts, call, has_font_manager.
  preserving; trace_facts.
Qed.

Lemma register_fonts_run (host : Host) (self : Plugin) (t : trace) :
  exists t', _register_fonts host self t = Done tt self t'.
Proof.
  pose proof (safe_register_fonts host self t) as Hs.
  destruct (register_fonts_loads_nothing host self t) as (E & _).
  destruct (_register_fonts host self t) as [[] s' t'|]; [|discriminate].
  simpl in E. subst s'. eauto.
Qed.

Lemma update_run (host : Host) (self : Plugin) (t : trace) :
  exists self' t',
    update host self t = Done tt self' t'
    /\ cached_images self' = cached_images self
    /\ countdowns self' = countdowns self.
Proof.
  pose proof (safe_update host self t) as Hs.
  destruct (update_keeps_cache host self t) as (C & L).
  destruct (update host self t) as [[] s' t'|]; [|discriminate].
  simpl in *. eauto.
Qed.

(** *** Configuration change *)

(** What [on_config_change] leaves: the entries of the new configuration,
    sorted; the cache emptied when the call returns and the number of
    entries changed, untouched otherwise. *)
Lemma on_config_change_cache (host : Host) (float_of_str : string -> option float)
    (new_config : Config) (self : Plugin) (t : trace) :
  let out := on_config_change host float_of_str new_config self t in
  countdowns (final_self out) = configured_countdowns new_config
  /\ cached_images (final_self out) =
       if returned out
          && negb (Nat.eqb (List.length (configured_countdowns new_config))
                           (List.length (countdowns self)))
       then ∅ else cached_images self.
Proof.
  cbv zeta. unfold on_config_change.
  unfold mbind, M_bind, modify_self, get_self, lift.
  destruct self as [pid cfg fit par se bg ff fs fc nfs nfc cds idx lrt ci cv].
  simpl.
  destruct (_parse_color float_of_str _ _) as [color|e]; [|split; reflexivity].
  destruct (_parse_color float_of_str _ _) as [name_color|e]; [|split; reflexivity].
  match goal with
  | |- context [_register_fonts host ?s ?t] =>
      destruct (register_fonts_run host s t) as (t1 & ->)
  end.
  simpl.
  destruct (negb (Nat.eqb (List.length (configured_countdowns new_config))
                          (List.length cds))) eqn:Hn;
    unfold mret, M_ret; cbv beta iota;
    match goal with
    | |- context [update host ?s ?t] =>
        destruct (update_run host s t) as (s' & t' & -> & C & L)
    end;
    simpl; rewrite C, L; split; reflexivity.
Qed.

Lemma cleanup_run (self : Plugin) (t : trace) :
  cleanup self t = Done tt (set_countdown_values ∅ (set_cached_images ∅ self)) t.
Proof. reflexivity. Qed.

Lemma init_cache_empty (host : Host) (float_of_str : string -> option float)
    (plugin_id : string) (config : Config) (t t' : trace) (self : Plugin) :
  __init__ host float_of_str plugin_id config t = (Return self, t') ->
  cached_images self = ∅ /\ countdown_values self = ∅
  /\ countdowns self = configured_countdowns config.
Proof.
  unfold __init__.
  destruct (pybind _ _) as [[[bg color] name_color]|e]; [|discriminate].
  match goal with
  | |- context [_register_fonts host ?s ?t] =>
      destruct (register_fonts_run host s t) as (t1 & ->)
  end.
  intros [= <- <-]. repeat split.
Qed.

(** ** Image cache *)

(** The image cache is not emptied when an entry's image source changes
    and the number of entries does not: the configuration change returns
    and the image composited from the old source stays cached under "a". *)
Lemma changed_image_keeps_cache :
  ~ (forall (host : Host) (float_of_str : string -> option float)
            (new_config : Config) (self : Plugin) (t : trace),
       returned (on_config_change host float_of_str new_config self t) = true ->
       (List.length (configured_countdowns new_config)
          <> List.length (countdowns self)
        \/ map cd_image (configured_countdowns new_config)
           <> map cd_image (countdowns self)) ->
       cached_images
         (final_self (on_config_change host float_of_str new_config self t)) = ∅).
Proof.
  intros H.
  pose (self0 := set_cached_images {[ Some "a" := Opened "old.png" (10, 49) ]}
                    (plugin_of [launch_with_image "a" "old.png"])).
  pose (cfg := config_of [launch_with_image "a" "new.png"]).
  specialize (H (steady (mkdate 2024 3 1)) decimal_float_of_str cfg self0 []
                eq_refl).
  assert (Hsrc : List.length (configured_countdowns cfg)
                   <> List.length (countdowns self0)
                 \/ map cd_image (configured_countdowns cfg)
                    <> map cd_image (countdowns self0)).
  { right. discriminate. }
  apply H in Hsrc. apply (f_equal (fun m => m !! Some "a")) in Hsrc.
  vm_compute in Hsrc. discriminate Hsrc.
Qed.

(** The lifetime of a cached image, as the code has it.  A configuration
    change empties the image cache exactly when it returns and the number
    of entries has changed.  Otherwise a cached image persists: a rotation
    tick and an update leave the cache as it is, [display] keeps every
    cached image as it is, and starts no image load when the identifier of
    the active entry is cached. *)
Lemma image_cache_lifetime (host : Host) (float_of_str : string -> option float)
    (self : Plugin) (t : trace) :
  (forall new_config,
     cached_images
       (final_self (on_config_change host float_of_str new_config self t)) =
       if returned (on_config_change host float_of_str new_config self t)
          && negb (Nat.eqb (List.length (configured_countdowns new_config))
                           (List.length (countdowns self)))
       then ∅ else cached_images self)
  /\ cached_images (final_self (is_cycle_complete host self t)) = cached_images self
  /\ cached_images (final_self (update host self t)) = cached_images self
  /\ (forall force_clear k img,
        cached_images self !! k = Some img ->
        cached_images (final_self (display host force_clear self t)) !! k
        = Some img)
  /\ (forall force_clear cc self1,
        _get_current_countdown self t = Done (Some cc) self1 t ->
        cached_images self !! cd_id cc <> None ->
        image_loads (final_trace (display host force_clear self t))
        = image_loads t).
Proof.
  split; [|split; [|split; [|split]]].
  - intros new_config. apply on_config_change_cache.
  - apply is_cycle_complete_keeps_cache.
  - apply update_keeps_cache.
  - intros force_clear. apply display_cache_facts.
  - intros force_clear. apply display_cache_facts.
Qed.

Lemma image_cache_lifetime_witness :
  cached_images
    (final_self
       (display (steady (mkdate 2024 3 1)) false
          (set_cached_images {[ Some "a" := Opened "old.png" (10, 49) ]}
             (plugin_of [launch_with_image "a" "new.png"])) []))
    !! Some "a"
  = Some (Opened "old.png" (10, 49)).
Proof.
  exact (proj1 (proj2 (proj2 (proj2
           (image_cache_lifetime (steady (mkdate 2024 3 1)) decimal_float_of_str
              (set_cached_images {[ Some "a" := Opened "old.png" (10, 49) ]}
                 (plugin_of [launch_with_image "a" "new.png"])) []))))
           false (Some "a") (Opened "old.png" (10, 49)) eq_refl).
Defined.

(** C5 at one entry "a" whose image source changes from "old.png" to
    "new.png".  The comment in [on_config_change] reads "Clear image cache
    if countdown list changed"; the list has changed, but the test under
    the comment compares the lengths only.  So the configuration change
    returns with the image composited from "old.png" still cached under
    "a", and the next [display] starts no image load and hands the old
    image to the display manager: "new.png" is never opened. *)
Theorem changed_source_shows_old_image :
  let host := steady (mkdate 2024 3 1) in
  let black := VTuple [VInt 0; VInt 0; VInt 0] in
  let composited :=
    Pasted (Blank (21, 32) black) (Resized (Opened "old.png" (10, 49)) (6, 31))
      (7, 0) in
  exists self0 t0,
    __init__ host decimal_float_of_str "cd"
      (config_of [launch_with_image "a" "old.png"]) [] = (Return self0, t0)
    /\ let shown := display host false self0 t0 in
       let changed :=
         on_config_change host decimal_float_of_str
           (config_of [launch_with_image "a" "new.png"])
           (final_self shown) (final_trace shown) in
       let again := display host false (final_self changed) (final_trace changed) in
       cached_images (final_self shown) !! Some "a" = Some composited
       /\ returned changed = true
       /\ countdowns (final_self changed) <> countdowns (final_self shown)
       /\ map cd_image (countdowns (final_self changed)) = [Some [Some "new.png"]]
       /\ cached_images (final_self changed) !! Some "a" = Some composited
       /\ image_loads (final_trace again) = image_loads (final_trace shown)
       /\ In (ImageOpen "old.png") (final_trace again)
       /\ ~ In (ImageOpen "new.png") (final_trace again)
       /\ last (Runs.images_set (final_trace again))
          = Some (Copied (Pasted (Blank (64, 32) black) composited (0, 0))).
Proof.
  cbv zeta. eexists _, _. split; [vm_compute; reflexivity|].
  vm_compute.
  repeat match goal with |- _ /\ _ => split end;
    try reflexivity; try (intros H; discriminate H).
  - tauto.
  - intros H. repeat destruct H as [H|H]; try discriminate H. exact H.
Qed.

Example cached_image_is_reused :
  let self := plugin_of [launch_with_image "a" "rocket.png"] in
  let host := steady (mkdate 2024 3 1) in
  let first := display host false self [] in
  let second := display host false (final_self first) (final_trace first) in
  image_loads (final_trace first) = 1%nat
  /\ image_loads (final_trace second) = 1%nat
  /\ cached_images (final_self second) !! Some "a"
     = cached_images (final_self first) !! Some "a"
  /\ cached_images (final_self first) !! Some "a"
     = Some (Pasted (Blank (21, 32) (VTuple [VInt 0; VInt 0; VInt 0]))
               (Resized (Opened "rocket.png" (10, 49)) (6, 31)) (7, 0)).
Proof. vm_compute. repeat split. Qed.

(** C6, as stated, fails after the first [display] of a plugin with one
    entry that has an image: the cache then holds exactly the identifier of
    that entry, so its keys are not a strict subset of the identifiers. *)
Lemma cache_keys_not_strict_subset :
  ~ (forall (host : Host) (float_of_str : string -> option float)
            (plugin_id : string) (config : Config) (self : Plugin) (t : trace)
            (force_clear : bool),
       __init__ host float_of_str plugin_id config [] = (Return self, t) ->
       dom (cached_images (final_self (display host force_clear self t)))
       ⊂ entry_ids (countdowns (final_self (display host force_clear self t)))).
Proof.
  intros H.
  pose (cfg := config_of [launch_with_image "a" "rocket.png"]).
  destruct (__init__ (steady (mkdate 2024 3 1)) decimal_float_of_str "cd" cfg [])
    as [r t] eqn:E.
  vm_compute in E. injection E as <- <-.
  specialize (H (steady (mkdate 2024 3 1)) decimal_float_of_str "cd" cfg _ _ false
                eq_refl).
  remember (final_self (display _ _ _ _)) as self1 eqn:E1.
  vm_compute in E1. subst self1.
  destruct H as [_ Hstrict]. apply Hstrict.
  intros k Hk. apply elem_of_dom.
  assert (k = Some "a") as ->.
  { unfold entry_ids in Hk. simpl in Hk.
    apply elem_of_union in Hk as [Hk|Hk]; [apply elem_of_singleton in Hk; exact Hk|].
    apply elem_of_empty in Hk. destruct Hk. }
  vm_compute. eauto.
Qed.

(** After a same-count configuration change that renames the entry, the
    cache still holds the old identifier. *)
Lemma renamed_entry_leaves_stale_key :
  let self :=
    set_cached_images {[ Some "a" := Opened "rocket.png" (10, 49) ]}
      (plugin_of [launch_with_image "a" "rocket.png"]) in
  let out := on_config_change (steady (mkdate 2024 3 1)) decimal_float_of_str
               (config_of [launch_with_image "b" "rocket.png"]) self [] in
  returned out = true
  /\ map cd_id (countdowns (final_self out)) = [Some "b"]
  /\ cached_images (final_self out) !! Some "a" = Some (Opened "rocket.png" (10, 49)).
Proof. vm_compute. repeat split. Qed.

Lemma enabled_ids_configured (self : Plugin) (k : option string) :
  k ∈ map cd_id (_get_enabled_countdowns self) -> k ∈ entry_ids (countdowns self).
Proof.
  intros Hk. apply elem_of_list_to_set.
  apply list_elem_of_fmap in Hk as (c & -> & Hc).
  apply list_elem_of_fmap. exists c. split; [reflexivity|].
  rewrite get_enabled_countdowns_filter in Hc.
  eapply elem_of_sublist; [exact Hc|apply filter_sublist].
Qed.

(** C6, amended. The keys of the image cache are identifiers of
    configured entries, possibly all of them: this holds when the
    constructor returns, is kept by [update], [display] and
    [is_cycle_complete], holds after [cleanup], and holds after an
    [on_config_change] that returns and either changes the number of
    entries or keeps every cached identifier configured. *)
Theorem cache_keys_within_entries (host : Host)
    (float_of_str : string -> option float) :
  (forall plugin_id config t self t',
     __init__ host float_of_str plugin_id config t = (Return self, t') ->
     cache_within_entries self)
  /\ (forall self t,
        cache_within_entries self ->
        cache_within_entries (final_self (update host self t))
        /\ (forall force_clear,
              cache_within_entries (final_self (display host force_clear self t)))
        /\ cache_within_entries (final_self (is_cycle_complete host self t)))
  /\ (forall self t, cache_within_entries (final_self (cleanup self t)))
  /\ (forall self t new_config,
        returned (on_config_change host float_of_str new_config self t) = true ->
        List.length (configured_countdowns new_config)
          <> List.length (countdowns self)
        \/ dom (cached_images self) ⊆ entry_ids (configured_countdowns new_config) ->
        cache_within_entries
          (final_self (on_config_change host float_of_str new_config self t))).
Proof.
  unfold cache_within_entries. split; [|split; [|split]].
  - intros plugin_id config t self t' Hinit.
    destruct (init_cache_empty _ _ _ _ _ _ _ Hinit) as (-> & _).
    rewrite dom_empty_L. apply empty_subseteq.
  - intros self t Hinv. split; [|split].
    + destruct (update_keeps_cache host self t) as [-> ->]. exact Hinv.
    + intros force_clear.
      destruct (display_cache_facts host force_clear self t) as (Hl & _ & Hk & _).
      rewrite Hl. intros k Hdom. apply elem_of_dom in Hdom.
      destruct (Hk k) as [Hold|Hen].
      * destruct Hdom as [img Himg]. congruence.
      * apply Hinv, elem_of_dom.
        destruct (cached_images self !! k); [eauto|congruence].
      * apply enabled_ids_configured, Hen.
    + destruct (is_cycle_complete_keeps_cache host self t) as [-> ->]. exact Hinv.
  - intros self t. rewrite cleanup_run. simpl.
    destruct self; simpl. rewrite dom_empty_L. apply empty_subseteq.
  - intros self t new_config Hret Hcase.
    destruct (on_config_change_cache host float_of_str new_config self t)
      as [-> ->].
    rewrite Hret. simpl.
    destruct (Nat.eqb_spec (List.length (configured_countdowns new_config))
                           (List.length (countdowns self))) as [Heq|Hne]; simpl.
    + destruct Hcase as [Hne|Hsub]; [contradiction|exact Hsub].
    + rewrite dom_empty_L. apply empty_subseteq.
Qed.

Lemma cache_keys_within_entries_witness :
  cache_within_entries
    (final_self (display (steady (mkdate 2024 3 1)) false
                   (plugin_of [launch_with_image "a" "rocket.png"]) [])).
Proof.
  refine (proj1 (proj2 (proj1 (proj2
            (cache_keys_within_entries (steady (mkdate 2024 3 1))
               decimal_float_of_str))
            (plugin_of [launch_with_image "a" "rocket.png"]) [] _)) false).
  unfold cache_within_entries. simpl. rewrite dom_empty_L. apply empty_subseteq.
Defined.

(** ** Placeholder value *)

Lemma set_cached_images_values (m : gmap (option string) Image) (self : Plugin) :
  countdown_values (set_cached_images m self) = countdown_values self.
Proof. destruct self; reflexivity. Qed.

(** The frame of an entry without a computed value, on a host whose calls
    succeed and whose font manager resolves the fonts: the name and the
    placeholder are drawn, with no highlight. *)
Lemma display_frame_placeholder (host : Host) (cc : Countdown) (force_clear : bool)
    (self : Plugin) (t0 t1 : trace) (f : Font) :
  quiet_after host t0 -> fonts_after host t0 f ->
  countdown_values self !! cd_id cc = None ->
  exists self' t',
    display_frame host cc force_clear self (t0 ++ t1) = Done tt self' t'
    /\ drawn_texts t'
       = drawn_texts (t0 ++ t1) ++ [default "Countdown" (cd_name cc); "---"]
    /\ highlights t' = highlights (t0 ++ t1).
Proof.
  intros Hq Hf Hnone.
  unfold display_frame, call, mbind, M_bind, get_self.
  do 3 quiet_step Hq Hf.
  match goal with
  | |- context [draw_cached_image ?h ?c ?cv ?iw ?hh ?s ?t] =>
      pose proof (draw_cached_image_step h c cv iw hh s t) as Hstep;
      pose proof (draw_cached_image_returns h t0 c cv iw hh Hq s t
                    (prefix_app_r _ _ _ (reflexivity _))) as Hret;
      destruct (draw_cached_image h c cv iw hh s t) as [canvas s1 t2|];
        [|discriminate Hret]
  end.
  simpl in Hstep. destruct Hstep as (([m ->] & P & _) & (_ & D & H)).
  assert (Ht2 : t0 `prefix_of` t2) by (etrans; [apply prefix_app_r; reflexivity|exact P]).
  destruct Ht2 as [d ->].
  unfold countdown_data. rewrite set_cached_images_values, Hnone.
  assert (Hclear : exists d',
            (if force_clear then request host Clear (fun _ => tt) else mret tt)
              (set_cached_images m self) (t0 ++ d)
            = Done tt (set_cached_images m self) (t0 ++ d ++ d')
            /\ drawn_texts d' = [] /\ highlights d' = 0%nat).
  { destruct force_clear.
    - exists [Clear]. rewrite (request_quiet _ _ _ _ _ _ Hq). auto.
    - exists []. rewrite app_nil_r. auto. }
  destruct Hclear as (d' & -> & Dd' & Hd').
  unfold frame_fonts, try_except, resolve_font, has_font_manager, observe,
    mbind, M_bind, get_self, mret, M_ret.
  repeat quiet_step Hq Hf.
  eexists _, _. split; [reflexivity|].
  rewrite (app_assoc t0 d), drawn_texts_app, highlights_app, D, H.
  rewrite !drawn_texts_app, !highlights_app. simpl.
  rewrite Dd', Hd'. simpl. rewrite !app_nil_r, <- !app_assoc.
  split; [reflexivity|lia].
Qed.

(** The "no active countdowns" frame draws nothing with a highlight. *)
Lemma display_no_countdowns_placeholder (host : Host) (self : Plugin) (t : trace)
    (f : Font) :
  quiet_after host t -> fonts_after host t f ->
  returned (_display_no_countdowns host self t) = true
  /\ drawn_texts (final_trace (_display_no_countdowns host self t))
     = drawn_texts t ++ ["No Active"; "Countdowns"]
  /\ highlights (final_trace (_display_no_countdowns host self t)) = highlights t.
Proof.
  intros Hq Hf.
  pose proof (display_no_countdowns_quiet host self t [] f Hq Hf) as Hn.
  rewrite !app_nil_r in Hn. simpl app in Hn. rewrite Hn. simpl.
  rewrite drawn_texts_app, highlights_app. simpl. split; [reflexivity|].
  split; [reflexivity|lia].
Qed.

(** C10, as stated, fails for an entry that lacks every field, 'id' and
    'target_date' among them: the empty dictionary is false for
    [if not current_countdown], and [display] draws the "No Active /
    Countdowns" frame, not the placeholder. *)
Lemma empty_entry_shows_no_placeholder :
  ~ (forall (host : Host) (force_clear : bool) (self self1 : Plugin) (t : trace)
            (cc : Countdown) (f : Font),
       _get_current_countdown self t = Done (Some cc) self1 t ->
       countdown_values self !! cd_id cc = None ->
       quiet_after host t -> fonts_after host t f ->
       drawn_texts (final_trace (display host force_clear self t))
       = drawn_texts t ++ [default "Countdown" (cd_name cc); "---"]).
Proof.
  intros H.
  pose (empty := mkCountdown None None None None None None).
  specialize (H (steady (mkdate 2024 3 1)) false (plugin_of [empty])
                (plugin_of [empty]) [] empty 1 eq_refl eq_refl).
  assert (Hq : quiet_after (steady (mkdate 2024 3 1)) []) by (intros t1 ev; reflexivity).
  assert (Hf : fonts_after (steady (mkdate 2024 3 1)) [] 1).
  { intros t1. split; [reflexivity|intros ev; reflexivity]. }
  specialize (H Hq Hf). vm_compute in H. discriminate H.
Qed.

(** C10, amended. For the active entry of a plugin whose identifier has no
    computed value, rendered on a host whose calls succeed and whose font
    manager resolves the fonts: when the entry is a non-empty dictionary,
    [display] returns having drawn the name of the entry and the
    placeholder "---", without asking for the highlight font of the day
    itself and without the error frame; when it is the empty dictionary,
    [display] draws the "No Active / Countdowns" frame instead. *)
Theorem missing_value_shows_placeholder (host : Host) (force_clear : bool)
    (self self1 : Plugin) (t : trace) (cc : Countdown) (f : Font) :
  _get_current_countdown self t = Done (Some cc) self1 t ->
  countdown_values self !! cd_id cc = None ->
  quiet_after host t -> fonts_after host t f ->
  returned (display host force_clear self t) = true
  /\ drawn_texts (final_trace (display host force_clear self t))
     = drawn_texts t ++ (if entry_truthy cc
                         then [default "Countdown" (cd_name cc); "---"]
                         else ["No Active"; "Countdowns"])
  /\ highlights (final_trace (display host force_clear self t)) = highlights t.
Proof.
  intros Hcur Hnone Hq Hf.
  rewrite display_run, Hcur.
  destruct (entry_truthy cc) eqn:Htruthy; simpl;
    [|apply (display_no_countdowns_placeholder host self1 t f Hq Hf)].
  assert (Hnone1 : countdown_values self1 !! cd_id cc = None).
  { rewrite get_current_countdown_run in Hcur.
    destruct (_get_enabled_countdowns self); [discriminate|].
    cbv zeta in Hcur. injection Hcur as _ <-.
    destruct (decide _); [|exact Hnone]. destruct self; exact Hnone. }
  destruct (display_frame_placeholder host cc force_clear self1 t [] f Hq Hf Hnone1)
    as (self' & t' & Hrun & Hd & Hh).
  rewrite app_nil_r in Hrun, Hd, Hh. rewrite Hrun. simpl. auto.
Qed.

Lemma missing_value_shows_placeholder_witness :
  returned (display (steady (mkdate 2024 3 1)) false (plugin_of [launch]) []) = true
  /\ drawn_texts
       (final_trace (display (steady (mkdate 2024 3 1)) false (plugin_of [launch]) []))
     = drawn_texts [] ++ [default "Countdown" (cd_name launch); "---"]
  /\ highlights
       (final_trace (display (steady (mkdate 2024 3 1)) false (plugin_of [launch]) []))
     = highlights [].
Proof.
  apply (missing_value_shows_placeholder (steady (mkdate 2024 3 1)) false
           (plugin_of [launch]) (plugin_of [launch]) [] launch 1).
  - reflexivity.
  - reflexivity.
  - intros t1 ev. reflexivity.
  - intros t1. split; [reflexivity|intros ev; reflexivity].
Defined.

(** An entry without 'id' and 'target_date' that has a name: [update] skips
    it, and [display] shows its name over the placeholder. *)
Example entry_without_id_and_date :
  let party := mkCountdown None (Some "Party") None None None None in
  let host := steady (mkdate 2024 3 1) in
  drawn_texts
    (final_trace ((update host;; display host false) (plugin_of [party]) []))
  = ["Party"; "---"].
Proof. vm_compute. reflexivity. Qed.

Example display_before_update :
  let host := steady (mkdate 2024 3 1) in
  drawn_texts (final_trace (display host false (plugin_of [launch]) []))
  = ["Launch"; "---"]
  /\ drawn_texts
       (final_trace ((update host;; display host false) (plugin_of [launch]) []))
     = ["Launch"; "2132 Days"].
Proof. vm_compute. split; reflexivity. Qed.

(** The calculator as [update] runs it: the pure calculator at the day the
    host answers, read only when the target date has parsed. *)
Lemma calculate_time_remaining_run (host : Host) (target_date_str : string)
    (self : Plugin) (t : trace) :
  calculate_time_remaining host target_date_str self t =
    Done (_calculate_time_remaining (host_today host t) target_date_str) self
      (match strptime_Ymd target_date_str with
       | Some _ => t ++ [Today]
       | None => t
       end).
Proof.
  unfold calculate_time_remaining, _calculate_time_remaining.
  destruct (strptime_Ymd target_date_str); reflexivity.
Qed.

(** [update] never records a value for an entry without an identifier. *)
Lemma update_loop_skips_missing_id (host : Host) (cs : list Countdown)
    (self : Plugin) (t : trace) :
  countdown_values (final_self (update_loop host cs self t)) !! None
  = countdown_values self !! None.
Proof.
  revert self t. induction cs as [|c cs IH]; intros self t; [reflexivity|].
  simpl. unfold mbind, M_bind.
  destruct (opt_str_truthy (cd_id c) && opt_str_truthy (cd_target_date c)) eqn:E.
  - apply andb_true_iff in E as [Hid _].
    destruct (cd_id c) as [i|] eqn:Ei; [|discriminate Hid].
    unfold calculate_time_remaining, date_today, observe, get_self, modify_self,
      mbind, M_bind, mret, M_ret.
    destruct (strptime_Ymd _); simpl; rewrite IH; destruct self; simpl;
      apply lookup_insert_ne; discriminate.
  - simpl. apply IH.
Qed.

(** * Further properties *)

Import DateOrder ColorRange Runs Validation Info Paths MoreHosts.

(** ** Calendar order of the target date *)

Lemma days_before_year_step (y : Z) :
  _days_before_year (y + 1)
  = _days_before_year y + 365 + (if _is_leap y then 1 else 0).
Proof.
  unfold _days_before_year, _is_leap. cbv zeta.
  replace (y + 1 - 1) with y by lia.
  destruct (Z.eqb_spec (y mod 4) 0), (Z.eqb_spec (y mod 100) 0),
    (Z.eqb_spec (y mod 400) 0); simpl; Z.div_mod_to_equations; lia.
Qed.

Lemma days_before_year_mono (a b : Z) :
  a <= b -> _days_before_year a <= _days_before_year b.
Proof.
  intros H. unfold _days_before_year. cbv zeta.
  Z.div_mod_to_equations. lia.
Qed.

Lemma month_cases (m : Z) :
  1 <= m <= 12 ->
  m = 1 \/ m = 2 \/ m = 3 \/ m = 4 \/ m = 5 \/ m = 6 \/ m = 7 \/ m = 8
  \/ m = 9 \/ m = 10 \/ m = 11 \/ m = 12.
Proof. lia. Qed.

(** The day of the year of a calendar date. *)
Lemma day_of_year_bound (y m d : Z) :
  valid_ymd y m d = true ->
  1 <= _days_before_month y m + d <= 365 + (if _is_leap y then 1 else 0).
Proof.
  unfold valid_ymd. rewrite !andb_true_iff, !Z.leb_le.
  intros (((((_ & _) & Hm) & Hm') & Hd) & Hd').
  pose proof (month_cases m (conj Hm Hm')) as Hc.
  unfold _days_before_month, _days_in_month in *.
  destruct (_is_leap y);
    repeat destruct Hc as [->|Hc]; try subst m; simpl in *; lia.
Qed.

Lemma month_order (y m1 d1 m2 d2 : Z) :
  valid_ymd y m1 d1 = true -> valid_ymd y m2 d2 = true -> m1 < m2 ->
  _days_before_month y m1 + d1 < _days_before_month y m2 + d2.
Proof.
  unfold valid_ymd. rewrite !andb_true_iff, !Z.leb_le.
  intros (((((_ & _) & Hm1) & Hm1') & Hd1) & Hd1')
         (((((_ & _) & Hm2) & Hm2') & Hd2) & Hd2') Hlt.
  pose proof (month_cases m1 (conj Hm1 Hm1')) as Hc1.
  pose proof (month_cases m2 (conj Hm2 Hm2')) as Hc2.
  unfold _days_before_month, _days_in_month in *.
  destruct (_is_leap y);
    repeat destruct Hc1 as [->|Hc1]; try subst m1;
    repeat destruct Hc2 as [->|Hc2]; try subst m2; try lia; simpl in *; lia.
Qed.

Lemma ordinal_lt (a b : date) :
  valid a = true -> valid b = true -> date_lt a b = true ->
  toordinal a < toordinal b.
Proof.
  destruct a as [y1 m1 d1], b as [y2 m2 d2].
  unfold valid, toordinal, date_lt, _ymd2ord. simpl. intros Ha Hb.
  pose proof (day_of_year_bound _ _ _ Ha) as Ba.
  pose proof (day_of_year_bound _ _ _ Hb) as Bb.
  repeat first [rewrite orb_true_iff | rewrite andb_true_iff].
  rewrite !Z.ltb_lt, !Z.eqb_eq.
  intros [Hy|[-> [Hm|[-> Hd]]]].
  - pose proof (days_before_year_step y1).
    pose proof (days_before_year_mono (y1 + 1) y2 ltac:(lia)). lia.
  - pose proof (month_order _ _ _ _ _ Ha Hb Hm). lia.
  - lia.
Qed.

Lemma date_lt_total (a b : date) :
  date_lt a b = true \/ a = b \/ date_lt b a = true.
Proof.
  destruct a as [y1 m1 d1], b as [y2 m2 d2]. unfold date_lt. simpl.
  repeat first [rewrite orb_true_iff | rewrite andb_true_iff].
  rewrite !Z.ltb_lt, !Z.eqb_eq.
  destruct (Z.lt_trichotomy y1 y2) as [?|[->|?]]; [auto|..|auto 6].
  destruct (Z.lt_trichotomy m1 m2) as [?|[->|?]]; [auto 6|..|auto 8].
  destruct (Z.lt_trichotomy d1 d2) as [?|[->|?]]; [auto 8|auto|auto 10].
Qed.

Lemma date_lt_irrefl (a : date) : date_lt a a = false.
Proof.
  unfold date_lt. rewrite !Z.ltb_irrefl, !Z.eqb_refl. reflexivity.
Qed.

(** The ordinal orders the calendar dates as the calendar does. *)
Lemma ordinal_order (a b : date) :
  valid a = true -> valid b = true ->
  (toordinal a < toordinal b <-> date_lt a b = true)
  /\ (toordinal a = toordinal b <-> a = b).
Proof.
  intros Ha Hb.
  destruct (date_lt_total a b) as [H|[->|H]].
  - pose proof (ordinal_lt a b Ha Hb H). split; split; try tauto; try lia.
    intros ->. lia.
  - rewrite date_lt_irrefl. split; split; try tauto; try lia.
  - pose proof (ordinal_lt b a Hb Ha H). split; split; try lia.
    + intros H'. pose proof (ordinal_lt a b Ha Hb H'). lia.
    + intros ->. lia.
Qed.

(** X1. On a valid current day, the calculator marks a target string as
    expired exactly when it parses to a calendar date that lies before the
    current day (year, month and day compared in turn), and as today's
    exactly when it parses to the current day itself. *)
Theorem expired_and_today_by_calendar (today : date) (s : string) :
  valid today = true ->
  (is_expired (_calculate_time_remaining today s) = true
   <-> exists d, strptime_Ymd s = Some d /\ date_lt d today = true)
  /\ (is_today (_calculate_time_remaining today s) = true
      <-> strptime_Ymd s = Some today).
Proof.
  intros Ht. unfold _calculate_time_remaining.
  destruct (strptime_Ymd s) as [d|] eqn:E.
  2:{ simpl. split; split; try discriminate. intros (d & Hd & _). discriminate. }
  pose proof (strptime_valid s d E) as Hd.
  destruct (ordinal_order d today Hd Ht) as [Hlt Heq].
  unfold remaining, days_between.
  destruct (Z.ltb_spec (toordinal d - toordinal today) 0) as [H|H]; simpl.
  - split; split; try tauto.
    + intros _. exists d. split; [reflexivity|]. apply Hlt. lia.
    + discriminate.
    + intros [= ->]. lia.
  - assert (Hn : date_lt d today <> true) by (rewrite <- Hlt; lia).
    destruct (Z.eqb_spec (toordinal d - toordinal today) 0) as [H0|H0]; simpl.
    + split; split; try discriminate.
      * intros (d' & [= <-] & Hd'). contradiction.
      * intros _. f_equal. apply Heq. lia.
      * reflexivity.
    + destruct (Z.eqb_spec (toordinal d - toordinal today) 1); simpl;
        (split; split; try discriminate;
         [intros (d' & [= <-] & Hd'); contradiction
         |intros [= ->]; lia]).
Qed.

Lemma expired_and_today_by_calendar_witness :
  (is_expired (_calculate_time_remaining (mkdate 2024 3 1) "2024-02-27") = true
   <-> exists d, strptime_Ymd "2024-02-27" = Some d
                 /\ date_lt d (mkdate 2024 3 1) = true)
  /\ (is_today (_calculate_time_remaining (mkdate 2024 3 1) "2024-02-27") = true
      <-> strptime_Ymd "2024-02-27" = Some (mkdate 2024 3 1)).
Proof.
  apply (expired_and_today_by_calendar (mkdate 2024 3 1) "2024-02-27").
  reflexivity.
Defined.

(** ** Shape of the result *)

Lemma append_length (a b : string) :
  String.length (a +:+ b) = (String.length a + String.length b)%nat.
Proof. induction a as [|c a IH]; simpl; [reflexivity|rewrite IH; reflexivity]. Qed.

Lemma remaining_text (d t : date) :
  text (remaining d t) <> "" /\ text (remaining d t) <> "Error".
Proof.
  assert (Hsuffix : forall a b : string,
            String.length b = 5%nat -> b <> "Error" ->
            a +:+ b <> "" /\ a +:+ b <> "Error").
  { intros a b Hb Hne. split; intros H; pose proof (f_equal String.length H) as Hl;
      rewrite append_length, Hb in Hl; simpl in Hl; [lia|].
    destruct a; [simpl in H; contradiction|simpl in Hl; lia]. }
  unfold remaining.
  destruct (_ <? 0); [apply Hsuffix; [reflexivity|discriminate]|].
  destruct (_ =? 0); [split; discriminate|].
  destruct (_ =? 1); [split; discriminate|].
  apply Hsuffix; [reflexivity|discriminate].
Qed.

(** X2. Whatever the target string and the current day, the result has a
    non-negative number of days, zero hours and minutes, at most one of
    the two flags set and a non-empty label; the number of days is zero
    exactly on the day itself and in the "Error" result. *)
Theorem time_remaining_shape (today : date) (s : string) :
  let r := _calculate_time_remaining today s in
  0 <= days r /\ hours r = 0 /\ minutes r = 0
  /\ is_expired r && is_today r = false
  /\ text r <> ""
  /\ (days r = 0 <-> is_today r = true \/ r = error_result).
Proof.
  cbv zeta. unfold _calculate_time_remaining.
  destruct (strptime_Ymd s) as [d|].
  2:{ simpl. repeat split; try discriminate; auto. }
  pose proof (remaining_text d today) as [Hne _].
  pose proof (remaining_not_error d today) as Herr.
  revert Hne Herr. unfold remaining.
  destruct (Z.ltb_spec (days_between d today) 0);
    [|destruct (Z.eqb_spec (days_between d today) 0);
      [|destruct (Z.eqb_spec (days_between d today) 1)]];
    simpl; intros Hne Herr; repeat split; auto; try lia;
    try (intros [?|?]; [discriminate|contradiction]).
Qed.

(** ** Colours kept and colours refused *)

Section ColorRangeFacts.

Variable float_of_str : string -> option float.

Lemma numeric_component_int (c r : pyval) :
  numeric_component float_of_str c = Return r ->
  is_int_object r = true /\ numeric_component float_of_str r = Return r.
Proof.
  destruct c as [|b|n|f|s|l|l|d]; simpl; try discriminate.
  - intros [= <-]. auto.
  - intros [= <-]. auto.
  - destruct (int_of_float f); simpl; [|discriminate]. intros [= <-]. auto.
  - destruct (float_of_str s) as [f|]; [|discriminate].
    destruct (int_of_float f); simpl; [|discriminate]. intros [= <-]. auto.
Qed.

Lemma numeric_component_raises (c : pyval) (e : pyexn) :
  numeric_component float_of_str c = Raised e ->
  e = ValueError \/ (e = OverflowError /\ overflows float_of_str c = true).
Proof.
  assert (Hf : forall f, pybind (int_of_float f) (fun n => Return (VInt n)) = Raised e ->
            e = ValueError \/ (e = OverflowError /\ is_overflow (int_of_float f) = true)).
  { intros f. destruct (int_of_float f) as [n|e'] eqn:E; simpl; [discriminate|].
    intros [= ->]. destruct (int_of_float_raises _ _ E) as [->| ->]; auto. }
  destruct c as [|b|n|f|s|l|l|d]; simpl; try (intros [= <-]; auto; fail);
    try discriminate.
  - apply Hf.
  - destruct (float_of_str s) as [f|]; [apply Hf|intros [= <-]; auto].
Qed.

Lemma color_loop_returns (cs acc out : list pyval) :
  color_loop float_of_str cs acc = Return out ->
  exists rs, out = acc ++ rs
    /\ Forall2 (fun c r => numeric_component float_of_str c = Return r
                           /\ in_byte_range r = true) cs rs.
Proof.
  revert acc. induction cs as [|c cs IH]; intros acc; simpl.
  - intros [= <-]. exists []. rewrite app_nil_r. split; [reflexivity|constructor].
  - destruct (numeric_component float_of_str c) as [r|] eqn:E; simpl; [|discriminate].
    destruct (in_byte_range r) eqn:Hr; [|discriminate].
    intros H. destruct (IH _ H) as (rs & -> & HF).
    exists (r :: rs). rewrite <- app_assoc. split; [reflexivity|].
    constructor; auto.
Qed.

Lemma converted_kept (cs rs : list pyval) :
  Forall2 (fun c r => numeric_component float_of_str c = Return r
                      /\ in_byte_range r = true) cs rs ->
  Forall kept rs.
Proof.
  induction 1 as [|c r cs rs [Hc Hr] _ IH]; constructor; [|exact IH].
  split; [apply (numeric_component_int c r Hc)|exact Hr].
Qed.

Lemma color_loop_raises (cs acc : list pyval) (e : pyexn) :
  color_loop float_of_str cs acc = Raised e ->
  e = ValueError
  \/ (e = OverflowError /\ exists c, c ∈ cs /\ overflows float_of_str c = true).
Proof.
  revert acc. induction cs as [|c cs IH]; intros acc; simpl; [discriminate|].
  destruct (numeric_component float_of_str c) as [r|e'] eqn:E; simpl.
  - destruct (in_byte_range r); [|intros [= <-]; auto].
    intros H. destruct (IH _ H) as [->|(-> & c' & Hin & Hov)]; [auto|].
    right. split; [reflexivity|]. exists c'. split; [right; exact Hin|exact Hov].
  - intros [= <-]. destruct (numeric_component_raises _ _ E) as [->|[-> Hov]]; [auto|].
    right. split; [reflexivity|]. exists c. split; [left|exact Hov].
Qed.

Lemma color_loop_kept (rs acc : list pyval) :
  Forall kept rs -> color_loop float_of_str rs acc = Return (acc ++ rs).
Proof.
  intros H. revert acc. induction H as [|r rs [Hi Hr] _ IH]; intros acc; simpl.
  - rewrite app_nil_r. reflexivity.
  - destruct r; try discriminate Hi; simpl; rewrite Hr, IH, <- app_assoc; reflexivity.
Qed.

Lemma byte_triple_kept (v : pyval) :
  byte_triple v = true <-> exists r g b, v = VTuple [r; g; b] /\ Forall kept [r; g; b].
Proof.
  unfold byte_triple, kept. split.
  - destruct v as [| | | | | |[|r [|g [|b [|? ?]]]]|]; try discriminate.
    simpl. rewrite !andb_true_iff. intros ([? ?] & [? ?] & [? ?] & _).
    exists r, g, b. split; [reflexivity|]. repeat constructor; assumption.
  - intros (r & g & b & -> & H). rewrite !Forall_cons in H.
    destruct H as ([? ?] & [? ?] & [? ?] & _).
    simpl. rewrite !andb_true_iff. auto 10.
Qed.

(** A colour the plugin already keeps is read back as it is. *)
Lemma byte_triple_fixed (v default : pyval) :
  byte_triple v = true -> _parse_color float_of_str v default = Return v.
Proof.
  intros (a & b & c & -> & H)%byte_triple_kept.
  change (_parse_color float_of_str (VTuple [a; b; c]) default)
    with (parse_sequence float_of_str [a; b; c] default).
  unfold parse_sequence. rewrite (color_loop_kept _ [] H). reflexivity.
Qed.

Lemma parse_color_byte_triple (color_value default r : pyval) :
  byte_triple default = true ->
  _parse_color float_of_str color_value default = Return r ->
  byte_triple r = true.
Proof.
  intros Hd Hr.
  assert (Hseq : forall l, parse_sequence float_of_str l default = Return r ->
            byte_triple r = true).
  { intros l. unfold parse_sequence.
    destruct (Nat.eqb_spec (List.length l) 3) as [Hl|_]; [|intros [= <-]; exact Hd].
    destruct (color_loop float_of_str l []) as [out|e] eqn:E.
    - intros [= <-]. apply color_loop_returns in E as (rs & -> & HF).
      change ([] ++ rs) with rs.
      apply Forall2_length in HF as Hlen. rewrite Hl in Hlen.
      apply converted_kept in HF.
      destruct rs as [|r1 [|r2 [|r3 [|? ?]]]]; try discriminate Hlen.
      apply byte_triple_kept. exists r1, r2, r3. split; [reflexivity|exact HF].
    - destruct (caught e); [intros [= <-]; exact Hd|discriminate]. }
  destruct color_value; simpl in Hr; try (injection Hr as <-; exact Hd);
    eapply Hseq; exact Hr.
Qed.

(** X3. With a default that is a triple of integers in 0..255, every
    value [_parse_color] returns is such a triple, and parsing a returned
    value again gives it back, whatever the default. *)
Theorem parse_color_range (color_value default r : pyval) :
  byte_triple default = true ->
  _parse_color float_of_str color_value default = Return r ->
  byte_triple r = true
  /\ forall default', _parse_color float_of_str r default' = Return r.
Proof.
  intros Hd Hr.
  pose proof (parse_color_byte_triple _ _ _ Hd Hr) as Hr'.
  split; [exact Hr'|]. intros default'. apply byte_triple_fixed, Hr'.
Qed.

Lemma overflow_raises (c : pyval) :
  overflows float_of_str c = true ->
  numeric_component float_of_str c = Raised OverflowError.
Proof.
  assert (Hf : forall f, is_overflow (int_of_float f) = true ->
            pybind (int_of_float f) (fun n => Return (VInt n)) = Raised OverflowError).
  { intros f. destruct (int_of_float f) as [n|[]]; simpl; try discriminate.
    reflexivity. }
  destruct c as [|b|n|f|s|l|l|d]; simpl; try discriminate; [apply Hf|].
  destruct (float_of_str s) as [f|]; [apply Hf|discriminate].
Qed.

Lemma passing_component (c r : pyval) :
  numeric_component float_of_str c = Return r -> in_byte_range r = true ->
  component float_of_str c r.
Proof.
  unfold in_byte_range. rewrite andb_true_iff, !Z.leb_le.
  destruct c as [|b|n|f|s|l|l|d]; simpl; try discriminate.
  - intros [= <-] _. constructor.
  - intros [= <-] H. constructor. exact H.
  - destruct (int_of_float f) as [n|] eqn:E; simpl; [|discriminate].
    intros [= <-] H. constructor; assumption.
  - destruct (float_of_str s) as [f|] eqn:Es; [|discriminate].
    destruct (int_of_float f) as [n|] eqn:E; simpl; [|discriminate].
    intros [= <-] H. econstructor; eassumption.
Qed.

(** The loop stops with [OverflowError] exactly at an overflowing
    component that only acceptable components precede. *)
Lemma color_loop_overflow (cs acc : list pyval) :
  color_loop float_of_str cs acc = Raised OverflowError <->
  exists pre c post,
    cs = pre ++ c :: post
    /\ Forall (fun c => exists r, component float_of_str c r) pre
    /\ overflows float_of_str c = true.
Proof.
  revert acc. induction cs as [|c cs IH]; intros acc; simpl.
  - split; [discriminate|]. intros (pre & c & post & H & _).
    destruct pre; discriminate H.
  - destruct (numeric_component float_of_str c) as [r|e] eqn:E; simpl.
    + destruct (in_byte_range r) eqn:Hr.
      * rewrite IH. split.
        -- intros (pre & c' & post & -> & Hpre & Hov).
           exists (c :: pre), c', post. split; [reflexivity|].
           split; [|exact Hov]. constructor; [|exact Hpre].
           exists r. apply passing_component; assumption.
        -- intros (pre & c' & post & Hcs & Hpre & Hov).
           destruct pre as [|p pre]; simpl in Hcs; injection Hcs as <- ->.
           ++ rewrite (overflow_raises _ Hov) in E. discriminate E.
           ++ exists pre, c', post. apply Forall_cons in Hpre as [_ Hpre]. auto.
      * split; [discriminate|].
        intros (pre & c' & post & Hcs & Hpre & Hov).
        destruct pre as [|p pre]; simpl in Hcs; injection Hcs as <- ->.
        -- rewrite (overflow_raises _ Hov) in E. discriminate E.
        -- apply Forall_cons in Hpre as [[r' Hc] _].
           apply component_converts in Hc as [Hc Hr']. congruence.
    + split.
      * intros [= ->]. exists [], c, cs. split; [reflexivity|].
        split; [constructor|].
        destruct (numeric_component_raises _ _ E) as [[=]|[_ Hov]]. exact Hov.
      * intros (pre & c' & post & Hcs & Hpre & Hov).
        destruct pre as [|p pre]; simpl in Hcs; injection Hcs as <- ->.
        -- rewrite (overflow_raises _ Hov) in E. congruence.
        -- apply Forall_cons in Hpre as [[r' Hc] _].
           apply component_converts in Hc as [Hc _]. congruence.
Qed.

Lemma parse_sequence_fault (l : list pyval) (default : pyval) (e : pyexn) :
  parse_sequence float_of_str l default = Raised e <->
  e = OverflowError /\ List.length l = 3%nat
  /\ color_loop float_of_str l [] = Raised OverflowError.
Proof.
  unfold parse_sequence.
  destruct (Nat.eqb_spec (List.length l) 3) as [Hl|Hl].
  - destruct (color_loop float_of_str l []) as [out|e'] eqn:E.
    + split; [discriminate|]. intros (_ & _ & [=]).
    + destruct (color_loop_raises _ _ _ E) as [->|(-> & _)]; simpl.
      * split; [discriminate|]. intros (_ & _ & [=]).
      * split; [intros [= <-]; auto|]. intros (-> & _). reflexivity.
  - split; [discriminate|]. intros (_ & Hl' & _). contradiction.
Qed.

(** X4. [_parse_color] raises exactly when the value is a list or tuple
    of three components in which an overflowing component (an infinite
    float, or text read as one) comes before any unacceptable one; the
    exception is then [OverflowError]. *)
Theorem parse_color_raises_iff (color_value default : pyval) (e : pyexn) :
  _parse_color float_of_str color_value default = Raised e <->
  e = OverflowError
  /\ List.length (elements color_value) = 3%nat
  /\ exists pre c post,
       elements color_value = pre ++ c :: post
       /\ Forall (fun c => exists r, component float_of_str c r) pre
       /\ overflows float_of_str c = true.
Proof.
  rewrite <- color_loop_overflow.
  destruct color_value as [|b|n|f|s|l|l|d]; simpl;
    try (split; [discriminate|intros (_ & [=] & _)]);
    apply parse_sequence_fault.
Qed.

Lemma parse_color_raises_fault (color_value default : pyval) (e : pyexn) :
  _parse_color float_of_str color_value default = Raised e -> e = OverflowError.
Proof.
  destruct color_value; simpl; try discriminate;
    intros (-> & _)%parse_sequence_fault; reflexivity.
Qed.

(** A colour value none of whose components overflows is parsed. *)
Lemma parse_color_returns (color_value default : pyval) :
  (forall c, c ∈ elements color_value -> overflows float_of_str c = false) ->
  exists r, _parse_color float_of_str color_value default = Return r.
Proof.
  intros Hno.
  destruct (_parse_color float_of_str color_value default) as [r|e] eqn:E; [eauto|].
  exfalso.
  assert (Hseq : forall l, parse_sequence float_of_str l default = Raised e ->
            exists c, c ∈ l /\ overflows float_of_str c = true).
  { intros l (_ & _ & Hloop)%parse_sequence_fault.
    apply color_loop_overflow in Hloop as (pre & c & post & -> & _ & Hov).
    exists c. split; [apply elem_of_app; right; left|exact Hov]. }
  destruct color_value; simpl in E; try discriminate E;
    apply Hseq in E as (c & Hin & Hov); rewrite (Hno c Hin) in Hov; discriminate.
Qed.

End ColorRangeFacts.

Lemma parse_color_range_witness :
  byte_triple (VTuple [VInt 12; VInt 255; VBool true]) = true
  /\ forall default',
       _parse_color decimal_float_of_str (VTuple [VInt 12; VInt 255; VBool true]) default'
       = Return (VTuple [VInt 12; VInt 255; VBool true]).
Proof.
  apply (parse_color_range decimal_float_of_str
           (VList [VFloat 12.5%float; VStr "255"; VBool true])
           (VTuple [VInt 0; VInt 0; VInt 0])); reflexivity.
Defined.

(** ** Display order *)

Lemma insert_by_order_filter (k : Z) (x : Countdown) (l : list Countdown) :
  List.filter (fun e => display_order e =? k) (insert_by_order x l)
  = if display_order x =? k
    then x :: List.filter (fun e => display_order e =? k) l
    else List.filter (fun e => display_order e =? k) l.
Proof.
  induction l as [|y l IH]; simpl.
  - destruct (display_order x =? k); reflexivity.
  - destruct (Z.leb_spec (display_order x) (display_order y)); simpl.
    + destruct (display_order x =? k), (display_order y =? k); reflexivity.
    + rewrite IH.
      destruct (Z.eqb_spec (display_order x) k), (Z.eqb_spec (display_order y) k);
        try reflexivity. lia.
Qed.

Lemma sort_by_order_filter (k : Z) (l : list Countdown) :
  List.filter (fun e => display_order e =? k) (sort_by_order l)
  = List.filter (fun e => display_order e =? k) l.
Proof.
  induction l as [|x l IH]; simpl; [reflexivity|].
  rewrite insert_by_order_filter, IH. reflexivity.
Qed.

(** X5. The entry list the constructor and [on_config_change] keep is
    the configured list sorted by 'display_order' (0 when absent): a
    permutation of it, ascending, with entries of equal order in their
    configured order; a value under 'countdowns' that is not a list, or no
    value, gives the empty list. *)
Theorem configured_countdowns_order (c : Config) :
  match cfg_countdowns c with
  | Some (Entries l) =>
      configured_countdowns c ≡ₚ l
      /\ in_display_order (configured_countdowns c)
      /\ forall k,
           List.filter (fun e => display_order e =? k) (configured_countdowns c)
           = List.filter (fun e => display_order e =? k) l
  | Some NotAList | None => configured_countdowns c = []
  end.
Proof.
  unfold configured_countdowns, in_display_order.
  destruct (cfg_countdowns c) as [[|l]|]; try reflexivity.
  split; [apply sort_by_order_perm|].
  split; [apply sort_by_order_sorted|].
  intros k. apply sort_by_order_filter.
Qed.

Lemma sort_by_order_configured (c : Config) :
  in_display_order (configured_countdowns c).
Proof.
  unfold configured_countdowns, in_display_order.
  destruct (cfg_countdowns c) as [[|l]|]; try constructor.
  apply sort_by_order_sorted.
Qed.

Lemma sorted_filter {A} (R : A -> A -> Prop) (f : A -> bool) (l : list A) :
  StronglySorted R l -> StronglySorted R (List.filter f l).
Proof.
  induction 1 as [|x l Hs IH Hx]; simpl; [constructor|].
  destruct (f x); [|exact IH].
  constructor; [exact IH|].
  apply List.Forall_forall. intros y [Hy _]%filter_In.
  rewrite List.Forall_forall in Hx. apply Hx, Hy.
Qed.

(** X6. The entries are in ascending display order after the
    constructor and after every [on_config_change]; [update], [display],
    [is_cycle_complete], [reset_cycle_state] and [cleanup] keep them so;
    and the active list [_get_enabled_countdowns] returns is then in
    ascending display order too. *)
Theorem rotation_in_display_order (host : Host)
    (float_of_str : string -> option float) :
  (forall plugin_id config t self t',
     __init__ host float_of_str plugin_id config t = (Return self, t') ->
     in_display_order (countdowns self))
  /\ (forall new_config self t,
        in_display_order
          (countdowns (final_self (on_config_change host float_of_str new_config self t))))
  /\ (forall self t,
        in_display_order (countdowns self) ->
        in_display_order (countdowns (final_self (update host self t)))
        /\ (forall force_clear,
              in_display_order (countdowns (final_self (display host force_clear self t))))
        /\ in_display_order (countdowns (final_self (is_cycle_complete host self t)))
        /\ in_display_order (countdowns (final_self (reset_cycle_state host self t)))
        /\ in_display_order (countdowns (final_self (cleanup self t))))
  /\ (forall self,
        in_display_order (countdowns self) ->
        in_display_order (_get_enabled_countdowns self)).
Proof.
  split; [|split; [|split]].
  - intros plugin_id config t self t' Hinit.
    destruct (init_cache_empty _ _ _ _ _ _ _ Hinit) as (_ & _ & ->).
    apply sort_by_order_configured.
  - intros new_config self t.
    destruct (on_config_change_cache host float_of_str new_config self t) as [-> _].
    apply sort_by_order_configured.
  - intros self t Hs. repeat split.
    + destruct (update_keeps_cache host self t) as [_ ->]. exact Hs.
    + intros force_clear.
      destruct (display_cache_facts host force_clear self t) as (-> & _). exact Hs.
    + destruct (is_cycle_complete_keeps_cache host self t) as [_ ->]. exact Hs.
    + destruct (reset_cycle_state_keeps_cache host self t) as [_ ->]. exact Hs.
    + rewrite cleanup_run. destruct self; exact Hs.
  - intros self Hs. rewrite get_enabled_countdowns_filter.
    apply sorted_filter, Hs.
Qed.

(** ** The active entry and the rotation *)

(** The filter reads the entries, the computed values and [show_expired]
    only. *)
Lemma enabled_countdowns_same (self self' : Plugin) :
  countdowns self' = countdowns self ->
  countdown_values self' = countdown_values self ->
  show_expired self' = show_expired self ->
  _get_enabled_countdowns self' = _get_enabled_countdowns self.
Proof.
  intros Hc Hv Hs. rewrite !get_enabled_countdowns_filter, Hc.
  apply filter_ext. intros c. unfold shown, recorded_expired. rewrite Hv, Hs.
  reflexivity.
Qed.

(** X7. [_get_current_countdown] makes no host call.  On an empty active
    list it answers [None] and leaves the object as it is; otherwise it
    resets an index past the end of the active list to 0, leaves any other
    index, and answers the entry of the active list at the index, which
    lies within the list. *)
Theorem current_countdown_in_range (self : Plugin) (t : trace) :
  match _get_enabled_countdowns self with
  | [] => _get_current_countdown self t = Done None self t
  | _ :: _ =>
      exists c self',
        _get_current_countdown self t = Done (Some c) self' t
        /\ self' = (if decide (current_countdown_index self
                               < List.length (_get_enabled_countdowns self))%nat
                    then self else set_current_countdown_index 0%nat self)
        /\ (current_countdown_index self'
            < List.length (_get_enabled_countdowns self))%nat
        /\ _get_enabled_countdowns self !! current_countdown_index self' = Some c
        /\ _get_enabled_countdowns self' = _get_enabled_countdowns self
  end.
Proof.
  rewrite get_current_countdown_run.
  destruct (_get_enabled_countdowns self) as [|c0 l] eqn:E; [reflexivity|].
  cbv zeta.
  set (self' := if decide (_ ≤ _)%nat then _ else self).
  assert (Hs : self' = (if decide (current_countdown_index self
                                   < List.length (c0 :: l))%nat
                        then self else set_current_countdown_index 0%nat self)).
  { subst self'. repeat destruct (decide _); try reflexivity; lia. }
  clearbody self'. subst self'.
  set (self' := if decide (_ < _)%nat then self else _).
  assert (Hi : (current_countdown_index self' < List.length (c0 :: l))%nat).
  { subst self'. destruct (decide _); [assumption|simpl; lia]. }
  destruct (lookup_lt_is_Some_2 (c0 :: l) _ Hi) as [c Hc].
  exists c, self'. rewrite Hc. repeat split; try assumption.
  rewrite <- E. subst self'. destruct (decide _); [reflexivity|].
  apply enabled_countdowns_same; destruct self; reflexivity.
Qed.

Lemma rotate_run (host : Host) (self : Plugin) (t : trace) :
  _rotate_to_next_countdown host self t =
    match _get_enabled_countdowns self with
    | [] => Done tt self t
    | _ :: _ =>
        Done tt
          (set_last_rotation_time (host_time host t)
             (set_current_countdown_index
                ((current_countdown_index self + 1)
                   mod List.length (_get_enabled_countdowns self))%nat self))
          (t ++ [Time])
    end.
Proof.
  unfold _rotate_to_next_countdown, mbind, M_bind, get_self, time_time, observe,
    modify_self; simpl.
  destruct (_get_enabled_countdowns self); reflexivity.
Qed.

(** X8. On a non-empty active list of length n, k >= 1 successive
    rotations return, leave the active list as it is and move the index to
    (index + k) mod n; from an index within the list, n rotations come
    back to it. *)
Theorem rotation_round_robin (host : Host) (self : Plugin) (t : trace) (k : nat) :
  _get_enabled_countdowns self <> [] -> (0 < k)%nat ->
  returned (rotations host k self t) = true
  /\ _get_enabled_countdowns (final_self (rotations host k self t))
     = _get_enabled_countdowns self
  /\ current_countdown_index (final_self (rotations host k self t))
     = ((current_countdown_index self + k)
          mod List.length (_get_enabled_countdowns self))%nat
  /\ ((current_countdown_index self < List.length (_get_enabled_countdowns self))%nat ->
      k = List.length (_get_enabled_countdowns self) ->
      current_countdown_index (final_self (rotations host k self t))
      = current_countdown_index self).
Proof.
  intros Hne Hk.
  assert (Hmain :
    returned (rotations host k self t) = true
    /\ _get_enabled_countdowns (final_self (rotations host k self t))
       = _get_enabled_countdowns self
    /\ current_countdown_index (final_self (rotations host k self t))
       = ((current_countdown_index self + k)
            mod List.length (_get_enabled_countdowns self))%nat).
  { revert self t Hne Hk. induction k as [|k IH]; intros self t Hne Hk; [lia|].
    simpl. unfold mbind, M_bind. rewrite rotate_run.
    destruct (_get_enabled_countdowns self) as [|c l] eqn:E; [contradiction|].
    set (self1 := set_last_rotation_time _ _).
    assert (E1 : _get_enabled_countdowns self1 = c :: l).
    { rewrite <- E. apply enabled_countdowns_same; destruct self; reflexivity. }
    assert (I1 : current_countdown_index self1
                 = ((current_countdown_index self + 1) mod List.length (c :: l))%nat).
    { destruct self; reflexivity. }
    clearbody self1.
    destruct k as [|k'].
    - simpl. rewrite E1, I1. auto.
    - destruct (IH self1 (t ++ [Time])) as (R & G & I);
        [rewrite E1; discriminate|lia|].
      rewrite R, G, I, E1, I1. repeat split.
      rewrite Nat.Div0.add_mod_idemp_l. f_equal. lia. }
  destruct Hmain as (R & G & I). repeat split; try assumption.
  intros Hlt ->. rewrite I.
  rewrite <- (Nat.mul_1_l (List.length _)) at 1.
  rewrite Nat.Div0.mod_add. apply Nat.mod_small, Hlt.
Qed.

Lemma rotation_round_robin_witness :
  current_countdown_index
    (final_self
       (rotations (steady (mkdate 2024 3 1)) 2
          (set_current_countdown_index 1%nat
             (plugin_of [launch; launch_with_image "b" "rocket.png"])) []))
  = 1%nat.
Proof.
  refine (proj2 (proj2 (proj2
            (rotation_round_robin (steady (mkdate 2024 3 1))
               (set_current_countdown_index 1%nat
                  (plugin_of [launch; launch_with_image "b" "rocket.png"])) [] 2 _ _)))
            _ _).
  - discriminate.
  - lia.
  - vm_compute. lia.
  - reflexivity.
Defined.

(** ** Update *)

Lemma find_snoc {A} (f : A -> bool) (l : list A) (x : A) :
  List.find f (l ++ [x]) =
    match List.find f l with
    | Some y => Some y
    | None => if f x then Some x else None
    end.
Proof.
  induction l as [|y l IH]; simpl; [reflexivity|].
  destruct (f y); [reflexivity|exact IH].
Qed.

Lemma set_countdown_values_twice (m m' : gmap (option string) CountdownResult)
    (self : Plugin) :
  set_countdown_values m (set_countdown_values m' self) = set_countdown_values m self.
Proof. destruct self; reflexivity. Qed.

Lemma set_countdown_values_same (self : Plugin) :
  set_countdown_values (countdown_values self) self = self.
Proof. destruct self; reflexivity. Qed.

(** The loop of [update]: for every key, the value of the last entry that
    writes it, computed at a day the host answered. *)
Lemma update_loop_run (host : Host) (cs : list Countdown) (self : Plugin) (t : trace) :
  exists m t',
    update_loop host cs self t = Done tt (set_countdown_values m self) t'
    /\ forall k,
         match List.find (recorded_by k) (rev cs) with
         | Some c =>
             exists t1,
               m !! k = Some (_calculate_time_remaining (host_today host t1)
                                (default "" (cd_target_date c)))
         | None => m !! k = countdown_values self !! k
         end.
Proof.
  revert self t. induction cs as [|c cs IH]; intros self t.
  - exists (countdown_values self), t. rewrite set_countdown_values_same.
    split; [reflexivity|]. intros k. reflexivity.
  - simpl update_loop. unfold mbind, M_bind.
    destruct (opt_str_truthy (cd_id c) && opt_str_truthy (cd_target_date c)) eqn:E.
    + rewrite calculate_time_remaining_run. unfold get_self, modify_self.
      set (v := _calculate_time_remaining (host_today host t) _).
      set (t1 := match strptime_Ymd _ with Some _ => _ | None => t end).
      destruct (IH (set_countdown_values (<[cd_id c := v]> (countdown_values self)) self) t1)
        as (m & t' & -> & Hm).
      exists m, t'. rewrite set_countdown_values_twice. split; [reflexivity|].
      intros k. specialize (Hm k). simpl rev. rewrite find_snoc.
      destruct (List.find (recorded_by k) (rev cs)) as [c'|]; [exact Hm|].
      rewrite Hm. unfold recorded_by.
      rewrite <- andb_assoc, E, andb_true_r.
      destruct self; simpl.
      destruct (bool_decide_reflect (cd_id c = k)) as [<-|Hne].
      * exists t. apply lookup_insert_eq.
      * apply lookup_insert_ne, Hne.
    + simpl. destruct (IH self t) as (m & t' & -> & Hm).
      exists m, t'. split; [reflexivity|].
      intros k. specialize (Hm k). simpl rev. rewrite find_snoc.
      destruct (List.find (recorded_by k) (rev cs)) as [c'|]; [exact Hm|].
      unfold recorded_by. rewrite <- andb_assoc, E, andb_false_r. exact Hm.
Qed.

Lemma update_run_values (host : Host) (self : Plugin) (t : trace) :
  exists m t',
    update host self t = Done tt (set_countdown_values m self) t'
    /\ forall k,
         match List.find (recorded_by k) (rev (countdowns self)) with
         | Some c =>
             exists t1,
               m !! k = Some (_calculate_time_remaining (host_today host t1)
                                (default "" (cd_target_date c)))
         | None => m !! k = countdown_values self !! k
         end.
Proof.
  unfold update, try_except, mbind, M_bind, get_self.
  destruct (update_loop_run host (countdowns self) self t) as (m & t' & -> & Hm).
  eauto.
Qed.

(** The value recorded under a key, when the host answers the same day
    throughout. *)
Lemma recorded_on_day (host : Host) (today : date) (cs : list Countdown)
    (m old : gmap (option string) CountdownResult) (k : option string) :
  (forall t1, host_today host t1 = today) ->
  match List.find (recorded_by k) (rev cs) with
  | Some c =>
      exists t1,
        m !! k = Some (_calculate_time_remaining (host_today host t1)
                         (default "" (cd_target_date c)))
  | None => m !! k = old !! k
  end ->
  m !! k = match List.find (recorded_by k) (rev cs) with
           | Some c =>
               Some (_calculate_time_remaining today (default "" (cd_target_date c)))
           | None => old !! k
           end.
Proof.
  intros Hday Hm. destruct (List.find _ _) as [c|]; [|exact Hm].
  destruct Hm as [t1 ->]. rewrite Hday. reflexivity.
Qed.

(** X9. On a host whose current day is [today] throughout, [update]
    returns and changes nothing but the computed values; afterwards every
    key holds the result, computed for [today], of the last entry with
    that identifier whose identifier and target date are non-empty, and
    the value it held before when there is no such entry. *)
Theorem update_records (host : Host) (today : date) (self : Plugin) (t : trace) :
  (forall t1, host_today host t1 = today) ->
  exists m t',
    update host self t = Done tt (set_countdown_values m self) t'
    /\ forall k,
         m !! k =
           match List.find (recorded_by k) (rev (countdowns self)) with
           | Some c =>
               Some (_calculate_time_remaining today (default "" (cd_target_date c)))
           | None => countdown_values self !! k
           end.
Proof.
  intros Hday.
  unfold update, try_except, mbind, M_bind, get_self.
  destruct (update_loop_run host (countdowns self) self t) as (m & t' & -> & Hm).
  exists m, t'. split; [reflexivity|].
  intros k. apply (recorded_on_day host today _ _ _ _ Hday), Hm.
Qed.

Lemma update_records_witness :
  exists m t',
    update (steady (mkdate 2024 3 1)) (plugin_of [launch]) []
    = Done tt (set_countdown_values m (plugin_of [launch])) t'
    /\ forall k,
         m !! k =
           match List.find (recorded_by k) (rev (countdowns (plugin_of [launch]))) with
           | Some c =>
               Some (_calculate_time_remaining (mkdate 2024 3 1)
                       (default "" (cd_target_date c)))
           | None => countdown_values (plugin_of [launch]) !! k
           end.
Proof.
  apply (update_records (steady (mkdate 2024 3 1)) (mkdate 2024 3 1)
           (plugin_of [launch]) []).
  intros t1. reflexivity.
Defined.

(** X10. On a host whose current day does not change, a second [update]
    leaves the object as the first one left it. *)
Theorem update_idempotent (host : Host) (today : date) (self : Plugin)
    (t t2 : trace) :
  (forall t1, host_today host t1 = today) ->
  final_self (update host (final_self (update host self t)) t2)
  = final_self (update host self t).
Proof.
  intros Hday.
  destruct (update_run_values host self t) as (m & t' & -> & Hm). simpl.
  destruct (update_run_values host (set_countdown_values m self) t2)
    as (m2 & t3 & -> & Hm2). simpl.
  rewrite set_countdown_values_twice. f_equal.
  apply map_eq. intros k.
  pose proof (recorded_on_day host today _ _ _ _ Hday (Hm k)) as Hk.
  pose proof (recorded_on_day host today _ _ _ _ Hday (Hm2 k)) as Hk2.
  replace (countdowns (set_countdown_values m self)) with (countdowns self) in Hk2
    by (destruct self; reflexivity).
  replace (countdown_values (set_countdown_values m self)) with m in Hk2
    by (destruct self; reflexivity).
  destruct (List.find _ _); congruence.
Qed.

Lemma update_idempotent_witness :
  final_self
    (update (steady (mkdate 2024 3 1))
       (final_self (update (steady (mkdate 2024 3 1)) (plugin_of [launch]) []))
       [Today])
  = final_self (update (steady (mkdate 2024 3 1)) (plugin_of [launch]) []).
Proof.
  apply (update_idempotent (steady (mkdate 2024 3 1)) (mkdate 2024 3 1)
           (plugin_of [launch]) [] [Today]).
  intros t1. reflexivity.
Defined.

(** X11. [update] returns on every host and changes nothing but the
    computed values; it removes no key, and every key it adds is the
    non-empty identifier of a configured entry with a non-empty target
    date. *)
Theorem update_only_adds (host : Host) (self : Plugin) (t : trace) :
  exists m t',
    update host self t = Done tt (set_countdown_values m self) t'
    /\ dom (countdown_values self) ⊆ dom m
    /\ forall k,
         k ∈ dom m ->
         k ∈ dom (countdown_values self)
         \/ exists c, c ∈ countdowns self /\ cd_id c = k
                      /\ opt_str_truthy k = true
                      /\ opt_str_truthy (cd_target_date c) = true.
Proof.
  destruct (update_run_values host self t) as (m & t' & Hrun & Hm).
  exists m, t'. split; [exact Hrun|]. split.
  - intros k [v Hv]%elem_of_dom. apply elem_of_dom. specialize (Hm k).
    destruct (List.find _ _); [destruct Hm as [t1 ->]; eauto|].
    rewrite Hm, Hv. eauto.
  - intros k Hk. specialize (Hm k).
    destruct (List.find _ _) as [c|] eqn:F.
    + right. apply find_some in F as [Hin Hrec]. exists c.
      unfold recorded_by in Hrec. rewrite !andb_true_iff in Hrec.
      destruct Hrec as [[Hid%bool_decide_eq_true Ht] Hd].
      split; [apply list_elem_of_In, in_rev, Hin|].
      split; [exact Hid|]. rewrite <- Hid. auto.
    + left. apply elem_of_dom. rewrite <- Hm. apply elem_of_dom, Hk.
Qed.

(** ** Validation *)

Lemma validate_loop_entries (cs : list Countdown) :
  validate_loop cs = true ->
  forall c, c ∈ cs ->
    is_Some (cd_id c) /\ is_Some (cd_name c)
    /\ exists s d, cd_target_date c = Some s /\ strptime_Ymd s = Some d.
Proof.
  induction cs as [|c0 cs IH]; simpl; intros Hv c Hc.
  - apply elem_of_nil in Hc. destruct Hc.
  - destruct (cd_id c0) as [i|] eqn:Ei; [|discriminate].
    destruct (cd_name c0) as [n|] eqn:En; [|discriminate].
    destruct (cd_target_date c0) as [s|] eqn:Ed; [|discriminate].
    destruct (strptime_Ymd s) as [d|] eqn:Es; [|discriminate].
    apply elem_of_cons in Hc as [->|Hc]; [|apply IH; assumption].
    rewrite Ei, En, Ed. eauto 10.
Qed.

(** X12. When [validate_config] answers true, [update] gives every
    configured entry with a non-empty identifier a computed value other
    than the "Error" result, on every host. *)
Theorem validated_entries_never_show_error (host : Host) (base_valid : bool)
    (self : Plugin) (t : trace) :
  validate_config base_valid self = true ->
  forall c,
    c ∈ countdowns self -> opt_str_truthy (cd_id c) = true ->
    exists v,
      countdown_values (final_self (update host self t)) !! cd_id c = Some v
      /\ v <> error_result /\ text v <> "Error".
Proof.
  unfold validate_config. destruct base_valid; [simpl|discriminate].
  intros Hv c Hc Hid.
  destruct (update_run_values host self t) as (m & t' & -> & Hm). simpl.
  replace (countdown_values (set_countdown_values m self)) with m
    by (destruct self; reflexivity).
  specialize (Hm (cd_id c)).
  destruct (List.find _ _) as [c'|] eqn:F.
  - apply find_some in F as [Hin _].
    apply in_rev, list_elem_of_In in Hin.
    destruct (validate_loop_entries _ Hv c' Hin) as (_ & _ & s & d & Hd & Hs).
    rewrite Hd in Hm. destruct Hm as [t1 ->]. eexists. split; [reflexivity|].
    simpl. unfold _calculate_time_remaining. rewrite Hs.
    split; [apply remaining_not_error|apply remaining_text].
  - exfalso.
    destruct (validate_loop_entries _ Hv c Hc) as (_ & _ & s & d & Hd & Hs).
    apply list_elem_of_In, in_rev in Hc.
    pose proof (find_none _ _ F c Hc) as Hrec.
    unfold recorded_by in Hrec.
    rewrite bool_decide_eq_true_2, Hid, Hd in Hrec by reflexivity.
    simpl in Hrec. unfold str_truthy in Hrec.
    destruct s; [discriminate Hs|discriminate Hrec].
Qed.

Lemma validated_entries_never_show_error_witness :
  exists v,
    countdown_values
      (final_self (update (steady (mkdate 2024 3 1)) (plugin_of [launch]) []))
      !! cd_id launch = Some v
    /\ v <> error_result /\ text v <> "Error".
Proof.
  apply (validated_entries_never_show_error (steady (mkdate 2024 3 1)) true
           (plugin_of [launch]) []).
  - reflexivity.
  - apply list_elem_of_here.
  - reflexivity.
Defined.

(** ** Font registration *)

(** X13. [_register_fonts] returns on every host and leaves the object
    as it is.  Without a font manager it registers nothing; with one it
    registers the value font, the name font and the error font, in this
    order, and stops at the first registration that raises. *)
Theorem register_fonts_outcome (host : Host) (self : Plugin) (t : trace) :
  let value := RegisterFont (plugin_id self +:+ ".countdown_value")
                 (font_family self) (font_size self) (font_color self) in
  let name := RegisterFont (plugin_id self +:+ ".countdown_name")
                (font_family self) (name_font_size self) (name_font_color self) in
  let error := RegisterFont (plugin_id self +:+ ".error") "press_start" 8
                 (VTuple [VInt 255; VInt 0; VInt 0]) in
  _register_fonts host self t =
    Done tt self
      (if negb (host_has_font_manager host t) then t ++ [HasFontManager]
       else match host_raises host (t ++ [HasFontManager]) value with
            | Some _ => t ++ [HasFontManager; value]
            | None =>
                match host_raises host (t ++ [HasFontManager; value]) name with
                | Some _ => t ++ [HasFontManager; value; name]
                | None => t ++ [HasFontManager; value; name; error]
                end
            end).
Proof.
  cbv zeta.
  unfold _register_fonts, try_except, has_font_manager, observe, call, request,
    mbind, M_bind, get_self, mret, M_ret.
  destruct (host_has_font_manager host t); simpl; [|reflexivity].
  destruct (host_raises host (t ++ [HasFontManager]) _); simpl;
    rewrite <- ?app_assoc; simpl; [reflexivity|].
  destruct (host_raises host (t ++ [HasFontManager; _]) _); simpl;
    rewrite <- ?app_assoc; simpl; [reflexivity|].
  destruct (host_raises host _ _); simpl; rewrite <- ?app_assoc; reflexivity.
Qed.

(** ** Configuration change *)

(** X14. [on_config_change] stores the new configuration and reads the
    display duration, the font family and the font size from it, but never
    changes [show_expired], the background colour, [fit_to_display],
    [preserve_aspect_ratio] or the time of the last rotation, whether it
    returns or raises.  When it returns, the name font size is the new one
    and the index is reset to 0 exactly when the number of entries has
    changed. *)
Theorem config_change_scope (host : Host) (float_of_str : string -> option float)
    (new_config : Config) (self : Plugin) (t : trace) :
  let out := on_config_change host float_of_str new_config self t in
  (show_expired (final_self out) = show_expired self
   /\ background_color (final_self out) = background_color self
   /\ fit_to_display (final_self out) = fit_to_display self
   /\ preserve_aspect_ratio (final_self out) = preserve_aspect_ratio self
   /\ last_rotation_time (final_self out) = last_rotation_time self)
  /\ (config (final_self out) = new_config
      /\ get_display_duration (final_self out)
         = default 15%float (cfg_display_duration new_config)
      /\ font_family (final_self out)
         = default "press_start" (cfg_font_family new_config)
      /\ font_size (final_self out) = default 8 (cfg_font_size new_config))
  /\ (returned out = true ->
      name_font_size (final_self out) = default 8 (cfg_name_font_size new_config)
      /\ current_countdown_index (final_self out)
         = (if Nat.eqb (List.length (configured_countdowns new_config))
                       (List.length (countdowns self))
            then current_countdown_index self else 0%nat)).
Proof.
  cbv zeta. unfold on_config_change.
  unfold mbind, M_bind, modify_self, get_self, lift, get_display_duration.
  destruct self as [pid cfg fit par se bg ff fs fc nfs nfc cds idx lrt ci cv].
  simpl.
  destruct (_parse_color float_of_str _ _) as [color|e];
    [|repeat split; discriminate].
  destruct (_parse_color float_of_str _ _) as [name_color|e];
    [|repeat split; discriminate].
  match goal with
  | |- context [_register_fonts host ?s ?t] =>
      destruct (register_fonts_run host s t) as (t1 & ->)
  end.
  simpl.
  destruct (Nat.eqb (List.length (configured_countdowns new_config))
                    (List.length cds));
    simpl; unfold mret, M_ret; cbv beta iota;
    match goal with
    | |- context [update host ?s ?t] =>
        destruct (update_run_values host s t) as (m & t' & -> & _)
    end;
    simpl; repeat split.
Qed.

(** What [on_config_change] leaves when it returns: the object [update]
    was run on holds the new entries and the old values. *)
Lemma on_config_change_values (host : Host) (float_of_str : string -> option float)
    (new_config : Config) (self : Plugin) (t : trace) :
  returned (on_config_change host float_of_str new_config self t) = true ->
  exists s m,
    final_self (on_config_change host float_of_str new_config self t)
    = set_countdown_values m s
    /\ countdowns s = configured_countdowns new_config
    /\ countdown_values s = countdown_values self
    /\ forall k,
         match List.find (recorded_by k) (rev (countdowns s)) with
         | Some c =>
             exists t1,
               m !! k = Some (_calculate_time_remaining (host_today host t1)
                                (default "" (cd_target_date c)))
         | None => m !! k = countdown_values s !! k
         end.
Proof.
  unfold on_config_change.
  unfold mbind, M_bind, modify_self, get_self, lift.
  destruct self as [pid cfg fit par se bg ff fs fc nfs nfc cds idx lrt ci cv].
  simpl.
  destruct (_parse_color float_of_str _ _) as [color|e]; [|discriminate].
  destruct (_parse_color float_of_str _ _) as [name_color|e]; [|discriminate].
  match goal with
  | |- context [_register_fonts host ?s ?t] =>
      destruct (register_fonts_run host s t) as (t1 & ->)
  end.
  simpl.
  destruct (Nat.eqb (List.length (configured_countdowns new_config))
                    (List.length cds));
    simpl; unfold mret, M_ret; cbv beta iota;
    match goal with
    | |- context [update host ?s ?t] =>
        destruct (update_run_values host s t) as (m & t' & -> & Hm);
        intros _; exists s, m
    end; auto.
Qed.

(** X15. When [on_config_change] returns, every entry of the new
    configuration with a non-empty identifier and a non-empty target date
    has a computed value, and a key that no such entry writes keeps the
    value it had, the values of removed entries included. *)
Theorem config_change_recomputes (host : Host)
    (float_of_str : string -> option float) (new_config : Config) (self : Plugin)
    (t : trace) :
  returned (on_config_change host float_of_str new_config self t) = true ->
  (forall c,
     c ∈ configured_countdowns new_config ->
     opt_str_truthy (cd_id c) = true -> opt_str_truthy (cd_target_date c) = true ->
     is_Some (countdown_values
                (final_self (on_config_change host float_of_str new_config self t))
              !! cd_id c))
  /\ (forall k,
        (forall c, c ∈ configured_countdowns new_config -> recorded_by k c = false) ->
        countdown_values
          (final_self (on_config_change host float_of_str new_config self t)) !! k
        = countdown_values self !! k).
Proof.
  intros Hret.
  destruct (on_config_change_values host float_of_str new_config self t Hret)
    as (s & m & -> & Hcs & Hcv & Hm).
  replace (countdown_values (set_countdown_values m s)) with m
    by (destruct s; reflexivity).
  split.
  - intros c Hc Hid Hdate. specialize (Hm (cd_id c)).
    destruct (List.find _ _) as [c'|] eqn:F; [destruct Hm as [t1 ->]; eauto|].
    exfalso. rewrite Hcs in F.
    apply list_elem_of_In, in_rev in Hc.
    pose proof (find_none _ _ F c Hc) as Hrec. unfold recorded_by in Hrec.
    rewrite bool_decide_eq_true_2, Hid, Hdate in Hrec by reflexivity.
    discriminate Hrec.
  - intros k Hnone. specialize (Hm k).
    destruct (List.find _ _) as [c'|] eqn:F; [|rewrite Hm, Hcv; reflexivity].
    exfalso. rewrite Hcs in F. apply find_some in F as [Hin Hrec].
    apply in_rev, list_elem_of_In in Hin. rewrite (Hnone c' Hin) in Hrec.
    discriminate Hrec.
Qed.

Lemma config_change_recomputes_witness :
  is_Some
    (countdown_values
       (final_self
          (on_config_change (steady (mkdate 2024 3 1)) decimal_float_of_str
             (config_of [launch]) (plugin_of []) []))
     !! cd_id launch).
Proof.
  refine (proj1
            (config_change_recomputes (steady (mkdate 2024 3 1)) decimal_float_of_str
               (config_of [launch]) (plugin_of []) [] _) launch _ _ _).
  - reflexivity.
  - apply list_elem_of_here.
  - reflexivity.
  - reflexivity.
Defined.

(** ** Constructor *)

(** X16. An exception of the constructor never comes from the host: when
    the constructor raises, no host call has been made, and it raises the
    same exception on every host, failures of the font registration being
    swallowed.  The three colours are parsed first: when parsing one of
    them raises, the constructor raises [OverflowError].  The object the
    constructor returns starts at index 0 with the clock reading as time
    of the last rotation, empty caches, the sorted entries, [show_expired]
    false unless configured, and three colours that are triples of
    integers in 0..255. *)
Theorem constructor_outcome (host : Host) (float_of_str : string -> option float)
    (plugin_id : string) (config : Config) (t : trace) :
  let bg := default (VList [VInt 0; VInt 0; VInt 0]) (cfg_background_color config) in
  let fc := default (VList [VInt 255; VInt 255; VInt 255]) (cfg_font_color config) in
  let nfc := default (VList [VInt 200; VInt 200; VInt 200])
               (cfg_name_font_color config) in
  (forall e t',
     __init__ host float_of_str plugin_id config t = (Raised e, t') ->
     t' = t
     /\ forall host' t0,
          __init__ host' float_of_str plugin_id config t0 = (Raised e, t0))
  /\ ((exists e, _parse_color float_of_str bg (VTuple [VInt 0; VInt 0; VInt 0])
                 = Raised e)
      \/ (exists e, _parse_color float_of_str fc
                      (VTuple [VInt 255; VInt 255; VInt 255]) = Raised e)
      \/ (exists e, _parse_color float_of_str nfc
                      (VTuple [VInt 200; VInt 200; VInt 200]) = Raised e) ->
      __init__ host float_of_str plugin_id config t = (Raised OverflowError, t))
  /\ (forall self t',
        __init__ host float_of_str plugin_id config t = (Return self, t') ->
        current_countdown_index self = 0%nat
        /\ last_rotation_time self = host_time host t
        /\ cached_images self = ∅ /\ countdown_values self = ∅
        /\ countdowns self = configured_countdowns config
        /\ show_expired self = default false (cfg_show_expired config)
        /\ byte_triple (background_color self) = true
        /\ byte_triple (font_color self) = true
        /\ byte_triple (name_font_color self) = true
        /\ _register_fonts host self (t ++ [Time]) = Done tt self t').
Proof.
  cbv zeta. unfold __init__.
  set (bg := default _ (cfg_background_color config)).
  set (fc := default _ (cfg_font_color config)).
  set (nfc := default _ (cfg_name_font_color config)).
  destruct (_parse_color float_of_str bg _) as [background|e1] eqn:E1; simpl.
  2:{ pose proof (parse_color_raises_fault _ _ _ _ E1) as ->.
      split; [intros e t' [= <- <-]; auto|].
      split; [reflexivity|discriminate]. }
  destruct (_parse_color float_of_str fc _) as [color|e2] eqn:E2; simpl.
  2:{ pose proof (parse_color_raises_fault _ _ _ _ E2) as ->.
      split; [intros e t' [= <- <-]; auto|].
      split; [reflexivity|discriminate]. }
  destruct (_parse_color float_of_str nfc _) as [name_color|e3] eqn:E3; simpl.
  2:{ pose proof (parse_color_raises_fault _ _ _ _ E3) as ->.
      split; [intros e t' [= <- <-]; auto|].
      split; [reflexivity|discriminate]. }
  match goal with
  | |- context [_register_fonts host ?s ?t] =>
      destruct (register_fonts_run host s t) as (t1 & Hreg); rewrite Hreg
  end.
  split; [discriminate|].
  split; [intros [[e H]|[[e H]|[e H]]]; discriminate H|].
  intros self t' [= <- <-]. simpl.
  apply parse_color_byte_triple in E1, E2, E3; try reflexivity.
  repeat split; assumption.
Qed.

(** A component that overflows in the background colour stops the
    constructor before the clock is read, on a host that would let
    everything through. *)
Example constructor_overflow_before_the_clock :
  __init__ (steady (mkdate 2024 3 1)) decimal_float_of_str "cd"
    (mkConfig None None None (Some (VList [VFloat infinity; VInt 0; VInt 0])) None None
       None None None None None) []
  = (Raised OverflowError, []).
Proof. vm_compute. reflexivity. Qed.

(** ** Image loader *)

Ltac exists_pasted :=
  lazymatch goal with
  | |- exists img, Pasted _ ?i _ = _ /\ _ => exists i
  end.

(** X17. [_load_and_scale_image] leaves the object as it is.  An empty
    path gives [None] with no host call.  An image it returns is a canvas
    of exactly the target size, in the background colour, with the image
    pasted centred; the image is not resized when [fit_to_display] is off,
    and has the target size when [fit_to_display] is on and
    [preserve_aspect_ratio] off.  It raises only when the resolution of the
    path or the existence check raises: a failure of opening, fitting,
    resizing, pasting or closing gives [None]. *)
Theorem load_and_scale_outcome (host : Host) (image_path : string) (w h : Z)
    (self : Plugin) (t : trace) :
  (str_truthy image_path = false ->
   _load_and_scale_image host image_path w h self t = Done None self t)
  /\ match _load_and_scale_image host image_path w h self t with
     | Done (Some canvas) self' t' =>
         self' = self
         /\ image_size canvas = (w, h)
         /\ exists img,
              canvas = Pasted (Blank (w, h) (background_color self)) img
                         ((w - (image_size img).1) / 2, (h - (image_size img).2) / 2)
              /\ (fit_to_display self = false -> exists p sz, img = Opened p sz)
              /\ (fit_to_display self = true -> preserve_aspect_ratio self = false ->
                  image_size img = (w, h))
     | Done None self' t' => self' = self
     | Fault e self' t' =>
         self' = self
         /\ exists p, t' = t ++ [ResolvePath image_path]
                      \/ t' = t ++ [ResolvePath image_path; PathExists p]
     end.
Proof.
  unfold _load_and_scale_image.
  destruct (str_truthy image_path) eqn:Hp; simpl; [|auto].
  split; [discriminate|].
  unfold mbind, M_bind, call, try_except, get_self, lift, mret, M_ret.
  unfold request.
  destruct (host_raises host t (ResolvePath image_path));
    [split; [reflexivity|exists ""; auto]|].
  destruct (host_resolved_path host t image_path) as [resolved|]; [|reflexivity].
  destruct (str_truthy resolved); simpl; [|reflexivity].
  destruct (host_raises host _ (PathExists resolved));
    [split; [reflexivity|exists resolved; rewrite <- app_assoc; auto]|].
  destruct (host_path_exists host _ resolved); simpl; [|reflexivity].
  destruct (host_raises host _ (ImageOpen resolved)); [reflexivity|].
  set (size := host_image_size host _ resolved).
  destruct (fit_to_display self) eqn:Hfit, (preserve_aspect_ratio self) eqn:Hpar;
    simpl.
  - destruct (_calculate_fit_size size (w, h)) as [target|]; [|reflexivity].
    destruct ((target.1 =? size.1) && (target.2 =? size.2));
      repeat (match goal with
              | |- context [host_raises host ?t ?ev] =>
                  destruct (host_raises host t ev); simpl; [reflexivity|]
              end);
      (split; [reflexivity|]; split; [reflexivity|]; exists_pasted;
       split; [reflexivity|]; split; discriminate).
  - destruct ((w =? size.1) && (h =? size.2)) eqn:Hsame;
      repeat (match goal with
              | |- context [host_raises host ?t ?ev] =>
                  destruct (host_raises host t ev); simpl; [reflexivity|]
              end);
      (split; [reflexivity|]; split; [reflexivity|]; exists_pasted;
       split; [reflexivity|]; split; [discriminate|]; intros _ _); [|reflexivity].
    apply andb_true_iff in Hsame as [H1%Z.eqb_eq H2%Z.eqb_eq].
    simpl. destruct size; simpl in *; congruence.
  - rewrite !Z.eqb_refl. simpl.
    repeat (match goal with
            | |- context [host_raises host ?t ?ev] =>
                destruct (host_raises host t ev); simpl; [reflexivity|]
            end).
    split; [reflexivity|]. split; [reflexivity|]. exists_pasted.
    split; [reflexivity|]. split; [eauto|discriminate].
  - rewrite !Z.eqb_refl. simpl.
    repeat (match goal with
            | |- context [host_raises host ?t ?ev] =>
                destruct (host_raises host t ev); simpl; [reflexivity|]
            end).
    split; [reflexivity|]. split; [reflexivity|]. exists_pasted.
    split; [reflexivity|]. split; [eauto|discriminate].
Qed.

(** ** The frame of the active entry *)

Lemma quiet_is_calm (host : Host) (t0 : trace) :
  quiet_after host t0 -> calm_after host t0.
Proof. intros Hq t1 ev _. apply Hq. Qed.

Lemma request_calm {A} (host : Host) (t0 t1 : trace) (ev : event)
    (answer : trace -> A) (self : Plugin) :
  calm_after host t0 -> is_highlight ev = false ->
  request host ev answer self (t0 ++ t1)
  = Done (answer (t0 ++ t1)) self (t0 ++ (t1 ++ [ev])).
Proof. intros Hc Hev. unfold request. rewrite (Hc _ _ Hev), app_assoc. reflexivity. Qed.

Lemma returns_request_calm {A} (host : Host) (t0 : trace) (ev : event)
    (answer : trace -> A) :
  calm_after host t0 -> is_highlight ev = false ->
  returns_from t0 (request host ev answer).
Proof.
  intros Hc Hev self t [t1 ->]. unfold request. rewrite (Hc _ _ Hev). reflexivity.
Qed.

(** Splits a goal [returns_from t0 m] along the structure of [m], on a
    calm host. *)
Ltac returning_calm Hc :=
  repeat first
    [ apply returns_ret
    | apply returns_get
    | apply returns_modify
    | apply returns_observe
    | apply (returns_request_calm _ _ _ _ Hc); reflexivity
    | apply returns_try; [| ]
    | apply returns_bind; [| |intros]
    | match goal with
      | |- returns_from _ (match ?x with _ => _ end) => destruct x
      | |- returns_from _ (let '(_, _) := ?x in _) => destruct x
      end ].

Lemma load_returns_calm (host : Host) (t0 : trace) (image_path : string) (w h : Z) :
  calm_after host t0 ->
  returns_from t0 (_load_and_scale_image host image_path w h).
Proof.
  intros Hc. unfold _load_and_scale_image, call.
  destruct (negb (str_truthy image_path)); returning_calm Hc;
    try (preserving; trace_facts; fail).
Qed.

Lemma draw_cached_image_returns_calm (host : Host) (t0 : trace) (cc : Countdown)
    (canvas : Image) (iw h : Z) :
  calm_after host t0 ->
  returns_from t0 (draw_cached_image host cc canvas iw h).
Proof.
  intros Hc. unfold draw_cached_image, call.
  returning_calm Hc;
    try (apply load_returns_calm; exact Hc);
    try (apply load_extends);
    try (preserving; first [apply load_extends|trace_facts]; fail).
Qed.

(** One host call, other than a highlight lookup, on a calm host with a
    font manager. *)
Ltac calm_step Hc Hf :=
  first [ rewrite (request_calm _ _ _ _ _ _ Hc) by reflexivity
        | rewrite (proj1 (Hf _))
        | rewrite (proj2 (Hf _)) ];
  cbv beta iota; rewrite <- ?app_assoc; simpl app.

Lemma drawn_at_app (t u : trace) : drawn_at (t ++ u) = drawn_at t ++ drawn_at u.
Proof.
  induction t as [|ev t IH]; [reflexivity|].
  destruct ev; simpl; rewrite IH; reflexivity.
Qed.

Lemma drawn_texts_at (t : trace) : drawn_texts t = map (fun p => p.1.1) (drawn_at t).
Proof.
  induction t as [|ev t IH]; [reflexivity|].
  destruct ev; simpl; rewrite ?IH; reflexivity.
Qed.

(** A step that draws no text draws none at any position. *)
Lemma drawn_at_silent (t d : trace) :
  drawn_texts (t ++ d) = drawn_texts t -> drawn_at d = [].
Proof.
  rewrite drawn_texts_app. intros H.
  rewrite <- (app_nil_r (drawn_texts t)) in H at 2.
  apply app_inv_head in H. rewrite drawn_texts_at in H.
  destruct (drawn_at d); [reflexivity|discriminate H].
Qed.

Lemma images_set_app (t u : trace) :
  images_set (t ++ u) = images_set t ++ images_set u.
Proof.
  induction t as [|ev t IH]; [reflexivity|].
  destruct ev; simpl; rewrite IH; reflexivity.
Qed.

#[export] Instance sets_nothing_rel : StepRel sets_nothing.
Proof.
  split; unfold sets_nothing.
  - intros. split; reflexivity.
  - intros s1 t1 s2 t2 s3 t3 (P1 & C1) (P2 & C2).
    split; [etrans; eassumption|congruence].
Qed.

(** The side conditions of [preserving] for [sets_nothing]. *)
Ltac sets_facts :=
  intros; unfold sets_nothing;
  split; [try reflexivity; apply prefix_app_r; reflexivity|];
  rewrite ?images_set_app; simpl; rewrite ?app_nil_r; reflexivity.

Lemma draw_cached_image_sets_nothing (host : Host) (cc : Countdown)
    (canvas : Image) (iw h : Z) :
  preserves sets_nothing (draw_cached_image host cc canvas iw h).
Proof.
  unfold draw_cached_image, _load_and_scale_image, call.
  preserving; sets_facts.
Qed.

(** The canvas the image step answers: the cached image pasted at the top
    left corner, when the entry has an image path and its identifier is
    cached after the step. *)
Lemma draw_cached_image_canvas (host : Host) (cc : Countdown) (canvas : Image)
    (iw h : Z) (self s1 : Plugin) (t t2 : trace) (canvas' : Image) :
  draw_cached_image host cc canvas iw h self t = Done canvas' s1 t2 ->
  canvas' = frame_image cc canvas s1.
Proof.
  unfold draw_cached_image, frame_image, first_image_path.
  destruct (default [] (cd_image cc)) as [|[image_path|] rest];
    try (intros [= <- _ _]; reflexivity).
  destruct (str_truthy image_path); [|intros [= <- _ _]; reflexivity].
  unfold mbind, M_bind, get_self, call, modify_self, mret, M_ret.
  destruct (cached_images self !! cd_id cc) as [img|] eqn:Hc.
  - rewrite Hc. unfold request. destruct (host_raises host t _); [discriminate|].
    intros [= <- <- _]. rewrite Hc. reflexivity.
  - destruct (load_reads_only host image_path iw h self t) as (Hs & _).
    destruct (_load_and_scale_image host image_path iw h self t)
      as [[img|] s0 t0|e s0 t0]; simpl in Hs; subst s0; simpl.
    + rewrite lookup_insert_eq. unfold request.
      destruct (host_raises host t0 _); [discriminate|].
      intros [= <- <- _]. destruct self; simpl. rewrite lookup_insert_eq.
      reflexivity.
    + rewrite Hc. intros [= <- <- _]. rewrite Hc. reflexivity.
    + discriminate.
Qed.

(** The frame of the active entry, on a calm host whose font manager
    resolves the fonts: the name and the value text are drawn at the centre
    of the right two thirds, and the highlight font is asked for exactly on
    the day itself. *)
Lemma display_frame_drawn (host : Host) (cc : Countdown) (force_clear : bool)
    (self : Plugin) (t0 t1 : trace) (f : Font) :
  calm_after host t0 -> fonts_after host t0 f ->
  exists self' t',
    display_frame host cc force_clear self (t0 ++ t1) = Done tt self' t'
    /\ drawn_at t'
       = drawn_at (t0 ++ t1)
         ++ [(default "Countdown" (cd_name cc),
              host_matrix_width host (t0 ++ t1) / 3
              + (host_matrix_width host (t0 ++ t1)
                 - host_matrix_width host (t0 ++ t1) / 3) / 2,
              host_matrix_height host (t0 ++ t1 ++ [MatrixWidth]) / 3);
             ((countdown_data self (cd_id cc)).1,
              host_matrix_width host (t0 ++ t1) / 3
              + (host_matrix_width host (t0 ++ t1)
                 - host_matrix_width host (t0 ++ t1) / 3) / 2,
              (host_matrix_height host (t0 ++ t1 ++ [MatrixWidth]) * 2) / 3)]
    /\ highlights t'
       = (highlights (t0 ++ t1)
          + (if (countdown_data self (cd_id cc)).2 then 1 else 0))%nat
    /\ images_set t'
       = images_set (t0 ++ t1)
         ++ [Copied (frame_image cc
                       (Blank (host_matrix_width host (t0 ++ t1),
                               host_matrix_height host (t0 ++ t1 ++ [MatrixWidth]))
                          (background_color self)) self')].
Proof.
  intros Hc Hf.
  unfold display_frame, call, mbind, M_bind, get_self.
  do 3 calm_step Hc Hf.
  match goal with
  | |- context [draw_cached_image ?h ?c ?cv ?iw ?hh ?s ?t] =>
      pose proof (draw_cached_image_step h c cv iw hh s t) as Hstep;
      pose proof (draw_cached_image_sets_nothing h c cv iw hh s t) as Hset;
      pose proof (draw_cached_image_returns_calm h t0 c cv iw hh Hc s t
                    (prefix_app_r _ _ _ (reflexivity _))) as Hret;
      destruct (draw_cached_image h c cv iw hh s t) as [canvas s1 t2|] eqn:Hdraw;
        [|discriminate Hret]
  end.
  apply draw_cached_image_canvas in Hdraw.
  simpl in Hstep, Hset. destruct Hstep as (([m ->] & P & _) & (_ & D & H)).
  destruct Hset as [_ Hset].
  assert (Ht2 : t0 `prefix_of` t2) by (etrans; [apply prefix_app_r; reflexivity|exact P]).
  destruct Ht2 as [d Ed].
  destruct P as [d0 Ed0].
  assert (Himg : images_set t2 = images_set (t0 ++ t1)).
  { rewrite Hset, !images_set_app. simpl. rewrite !app_nil_r. reflexivity. }
  rewrite <- Himg. clear Himg Hset.
  assert (D0 : drawn_at d0 = []).
  { rewrite Ed0 in D. exact (drawn_at_silent _ _ D). }
  assert (Hat : drawn_at t2 = drawn_at (t0 ++ t1)).
  { rewrite Ed0, !drawn_at_app, D0. simpl. rewrite !app_nil_r. reflexivity. }
  rewrite <- Hat. clear Hat D0 Ed0 d0.
  assert (Hhl : highlights t2 = highlights (t0 ++ t1)).
  { rewrite H, !highlights_app. simpl. lia. }
  rewrite <- Hhl. clear Hhl H D. subst t2.
  replace (countdown_data (set_cached_images m self) (cd_id cc))
    with (countdown_data self (cd_id cc))
    by (unfold countdown_data; rewrite set_cached_images_values; reflexivity).
  destruct (countdown_data self (cd_id cc)) as [countdown_text is_today].
  assert (Hclear : exists d',
            (if force_clear then request host Clear (fun _ => tt) else mret tt)
              (set_cached_images m self) (t0 ++ d)
            = Done tt (set_cached_images m self) (t0 ++ d ++ d')
            /\ drawn_at d' = [] /\ highlights d' = 0%nat /\ images_set d' = []).
  { destruct force_clear.
    - exists [Clear]. rewrite (request_calm _ _ _ _ _ _ Hc) by reflexivity. auto.
    - exists []. rewrite app_nil_r. auto. }
  destruct Hclear as (d' & -> & Dd' & Hd' & Id').
  unfold frame_fonts, try_except, resolve_font, has_font_manager, observe,
    mbind, M_bind, get_self, mret, M_ret.
  repeat calm_step Hc Hf.
  simpl fst. simpl snd.
  destruct is_today.
  - unfold today_font, try_except, resolve_font, has_font_manager, observe,
      mbind, M_bind, get_self, mret, M_ret.
    calm_step Hc Hf.
    match goal with
    | |- context [request host ?ev ?ans ?s ?t] =>
        unfold request at 1; destruct (host_raises host t ev)
    end; rewrite <- ?app_assoc; simpl app; repeat calm_step Hc Hf;
      (eexists _, _; split; [reflexivity|]);
      rewrite !drawn_at_app, !highlights_app, !images_set_app; simpl;
      rewrite Dd', Hd', Id'; simpl; rewrite ?app_nil_r, <- ?app_assoc;
      (split; [reflexivity|]; split; [lia|]; rewrite Hdraw;
       destruct self; reflexivity).
  - repeat calm_step Hc Hf.
    eexists _, _. split; [reflexivity|].
    rewrite !drawn_at_app, !highlights_app, !images_set_app. simpl.
    rewrite Dd', Hd', Id'. simpl. rewrite ?app_nil_r, <- ?app_assoc.
    split; [reflexivity|]. split; [lia|]. rewrite Hdraw.
    destruct self; reflexivity.
Qed.

Lemma current_countdown_values (self self1 : Plugin) (t : trace) (r : option Countdown) :
  _get_current_countdown self t = Done r self1 t ->
  countdown_values self1 = countdown_values self.
Proof.
  rewrite get_current_countdown_run.
  destruct (_get_enabled_countdowns self); [intros [= _ <-]; reflexivity|].
  cbv zeta. intros [= _ <-].
  destruct (decide _); [|reflexivity]. destruct self; reflexivity.
Qed.

(** X18. For the active entry with a computed value, on a host whose
    calls succeed and whose font manager resolves the fonts, [display]
    returns having drawn the name of the entry and the label of the value;
    it asks for the highlight font exactly when the value is marked as
    today's, and draws the label even when that lookup raises. *)
Theorem recorded_value_is_shown (host : Host) (force_clear : bool)
    (self self1 : Plugin) (t : trace) (cc : Countdown) (f : Font)
    (v : CountdownResult) :
  _get_current_countdown self t = Done (Some cc) self1 t ->
  entry_truthy cc = true ->
  countdown_values self !! cd_id cc = Some v ->
  calm_after host t -> fonts_after host t f ->
  returned (display host force_clear self t) = true
  /\ drawn_texts (final_trace (display host force_clear self t))
     = drawn_texts t ++ [default "Countdown" (cd_name cc); text v]
  /\ highlights (final_trace (display host force_clear self t))
     = (highlights t + (if is_today v then 1 else 0))%nat.
Proof.
  intros Hcur Htruthy Hv Hc Hf.
  rewrite display_run, Hcur, Htruthy. simpl.
  destruct (display_frame_drawn host cc force_clear self1 t [] f Hc Hf)
    as (self' & t' & Hrun & Hd & Hh & _).
  rewrite app_nil_r in Hrun, Hd, Hh. rewrite Hrun. simpl.
  unfold countdown_data in Hd, Hh.
  rewrite (current_countdown_values _ _ _ _ Hcur), Hv in Hd, Hh. simpl in Hd, Hh.
  split; [reflexivity|]. split; [|exact Hh].
  rewrite !drawn_texts_at, Hd, map_app. reflexivity.
Qed.

Lemma recorded_value_is_shown_witness :
  returned
    (display (plain_fonts (mkdate 2030 1 1)) false
       (set_countdown_values {[ Some "a" := mkResult 0 0 0 false true "TODAY!" ]}
          (plugin_of [launch])) []) = true
  /\ drawn_texts
       (final_trace
          (display (plain_fonts (mkdate 2030 1 1)) false
             (set_countdown_values {[ Some "a" := mkResult 0 0 0 false true "TODAY!" ]}
                (plugin_of [launch])) []))
     = drawn_texts [] ++ [default "Countdown" (cd_name launch);
                          text (mkResult 0 0 0 false true "TODAY!")]
  /\ highlights
       (final_trace
          (display (plain_fonts (mkdate 2030 1 1)) false
             (set_countdown_values {[ Some "a" := mkResult 0 0 0 false true "TODAY!" ]}
                (plugin_of [launch])) []))
     = (highlights []
        + (if is_today (mkResult 0 0 0 false true "TODAY!") then 1 else 0))%nat.
Proof.
  apply (recorded_value_is_shown (plain_fonts (mkdate 2030 1 1)) false
           (set_countdown_values {[ Some "a" := mkResult 0 0 0 false true "TODAY!" ]}
              (plugin_of [launch]))
           (set_countdown_values {[ Some "a" := mkResult 0 0 0 false true "TODAY!" ]}
              (plugin_of [launch]))
           [] launch 1 (mkResult 0 0 0 false true "TODAY!")).
  - reflexivity.
  - reflexivity.
  - reflexivity.
  - intros t1 ev Hev. simpl. rewrite Hev. reflexivity.
  - intros t1. split; [reflexivity|intros ev; reflexivity].
Defined.



Lemma current_countdown_fields (self self1 : Plugin) (t : trace)
    (r : option Countdown) :
  _get_current_countdown self t = Done r self1 t ->
  background_color self1 = background_color self
  /\ cached_images self1 = cached_images self.
Proof.
  rewrite get_current_countdown_run.
  destruct (_get_enabled_countdowns self); [intros [= _ <-]; auto|].
  cbv zeta. intros [= _ <-].
  destruct (decide _); [|auto]. destruct self; auto.
Qed.

(** X20. For the active entry, on a host whose calls succeed and whose
    font manager resolves the fonts, [display] hands one image to the
    display manager: a copy of the canvas of the size of the matrix, in
    the background colour, with the cached image of the entry pasted at
    (0, 0) when the entry has an image path and an image is cached under
    its identifier after the image step, and of the bare canvas
    otherwise; an image cached before the call is the one pasted. *)
Theorem frame_image_layout (host : Host) (force_clear : bool)
    (self self1 : Plugin) (t : trace) (cc : Countdown) (f : Font) :
  _get_current_countdown self t = Done (Some cc) self1 t ->
  entry_truthy cc = true ->
  calm_after host t -> fonts_after host t f ->
  let canvas :=
    Blank (host_matrix_width host t, host_matrix_height host (t ++ [MatrixWidth]))
      (background_color self) in
  images_set (final_trace (display host force_clear self t))
  = images_set t
    ++ [Copied (frame_image cc canvas (final_self (display host force_clear self t)))]
  /\ (first_image_path cc = None ->
      images_set (final_trace (display host force_clear self t))
      = images_set t ++ [Copied canvas])
  /\ (forall img,
        first_image_path cc <> None -> cached_images self !! cd_id cc = Some img ->
        images_set (final_trace (display host force_clear self t))
        = images_set t ++ [Copied (Pasted canvas img (0, 0))]).
Proof.
  intros Hcur Htruthy Hc Hf. cbv zeta.
  pose proof (display_cache_facts host force_clear self t) as (_ & Hkeep & _).
  cbv zeta in Hkeep. revert Hkeep.
  rewrite display_run, Hcur, Htruthy. simpl.
  destruct (display_frame_drawn host cc force_clear self1 t [] f Hc Hf)
    as (self' & t' & Hrun & _ & _ & Hi).
  rewrite app_nil_r in Hrun, Hi. rewrite Hrun. simpl. intros Hkeep.
  destruct (current_countdown_fields _ _ _ _ Hcur) as [Hbg _].
  rewrite Hbg in Hi.
  split; [exact Hi|]. split.
  - intros Hnone. rewrite Hi. unfold frame_image. rewrite Hnone. reflexivity.
  - intros img Hpath Himg. rewrite Hi. unfold frame_image.
    destruct (first_image_path cc); [|contradiction].
    rewrite (Hkeep _ _ Himg). reflexivity.
Qed.

Lemma frame_image_layout_witness :
  images_set
    (final_trace (display (steady (mkdate 2024 3 1)) false
                    (plugin_of [launch_with_image "a" "rocket.png"]) []))
  = images_set []
    ++ [Copied (frame_image (launch_with_image "a" "rocket.png")
                  (Blank (64, 32) (VTuple [VInt 0; VInt 0; VInt 0]))
                  (final_self
                     (display (steady (mkdate 2024 3 1)) false
                        (plugin_of [launch_with_image "a" "rocket.png"]) [])))].
Proof.
  refine (proj1
            (frame_image_layout (steady (mkdate 2024 3 1)) false
               (plugin_of [launch_with_image "a" "rocket.png"])
               (plugin_of [launch_with_image "a" "rocket.png"]) []
               (launch_with_image "a" "rocket.png") 1 _ _ _ _)).
  - reflexivity.
  - reflexivity.
  - intros t1 ev _. reflexivity.
  - intros t1. split; [reflexivity|intros ev; reflexivity].
Defined.

(** ** What [display] leaves alone *)

Lemma clears_app (t u : trace) : clears (t ++ u) = (clears t + clears u)%nat.
Proof.
  induction t as [|ev t IH]; [reflexivity|].
  destruct ev; simpl; rewrite IH; reflexivity.
Qed.

#[export] Instance clears_nothing_rel : StepRel clears_nothing.
Proof.
  split; unfold clears_nothing.
  - intros. split; reflexivity.
  - intros s1 t1 s2 t2 s3 t3 (P1 & C1) (P2 & C2).
    split; [etrans; eassumption|congruence].
Qed.

(** The side conditions of [preserving] for [clears_nothing]. *)
Ltac clears_facts :=
  intros; unfold clears_nothing;
  split; [try reflexivity; apply prefix_app_r; reflexivity|];
  rewrite ?clears_app; simpl; rewrite ?Nat.add_0_r; reflexivity.

Lemma load_clears_nothing (host : Host) (image_path : string) (w h : Z) :
  preserves clears_nothing (_load_and_scale_image host image_path w h).
Proof.
  unfold _load_and_scale_image, call.
  destruct (negb (str_truthy image_path)); preserving; clears_facts.
Qed.

Lemma draw_cached_image_clears_nothing (host : Host) (cc : Countdown)
    (canvas : Image) (iw h : Z) :
  preserves clears_nothing (draw_cached_image host cc canvas iw h).
Proof.
  unfold draw_cached_image, call.
  preserving; try apply load_clears_nothing; clears_facts.
Qed.

Lemma display_no_countdowns_clears_nothing (host : Host) :
  preserves clears_nothing (_display_no_countdowns host).
Proof.
  unfold _display_no_countdowns, fallback_font, two_lines, call, resolve_font,
    has_font_manager.
  preserving; clears_facts.
Qed.

Lemma display_error_clears_nothing (host : Host) :
  preserves clears_nothing (_display_error host).
Proof.
  unfold _display_error, fallback_font, two_lines, call, resolve_font,
    has_font_manager.
  preserving; clears_facts.
Qed.

Lemma display_frame_clears_nothing (host : Host) (cc : Countdown) :
  preserves clears_nothing (display_frame host cc false).
Proof.
  unfold display_frame, frame_fonts, today_font, call, resolve_font,
    has_font_manager.
  preserving; try apply draw_cached_image_clears_nothing; clears_facts.
Qed.

(** X21. [display] with [force_clear] false never clears the display, in
    any state and on any host; with an empty active list it does not clear
    it with [force_clear] true either. *)
Theorem display_clears_only_on_request (host : Host) (self : Plugin) (t : trace) :
  clears (final_trace (display host false self t)) = clears t
  /\ (forall force_clear,
        _get_enabled_countdowns self = [] ->
        clears (final_trace (display host force_clear self t)) = clears t).
Proof.
  split.
  - rewrite display_run, get_current_countdown_run.
    destruct (_get_enabled_countdowns self) as [|c l];
      [apply display_no_countdowns_clears_nothing|].
    cbv zeta. destruct (_ !! _) as [cc|];
      [|apply display_no_countdowns_clears_nothing].
    destruct (negb (entry_truthy cc));
      [apply display_no_countdowns_clears_nothing|].
    apply (preserves_try clears_nothing _ _
             (display_frame_clears_nothing host cc)
             (display_error_clears_nothing host)).
  - intros force_clear Hnone.
    rewrite display_run, get_current_countdown_run, Hnone.
    apply display_no_countdowns_clears_nothing.
Qed.

(** X22. [display] changes nothing of the object but the image cache and
    the index: the object it leaves is the one [_get_current_countdown]
    leaves (the object itself, or the object with the index reset to 0)
    with another image cache. *)
Theorem display_writes_cache_and_index (host : Host) (force_clear : bool)
    (self : Plugin) (t : trace) :
  exists m,
    final_self (display host force_clear self t)
    = set_cached_images m (final_self (_get_current_countdown self t))
    /\ final_trace (_get_current_countdown self t) = t
    /\ (final_self (_get_current_countdown self t) = self
        \/ final_self (_get_current_countdown self t)
           = set_current_countdown_index 0%nat self).
Proof.
  rewrite display_run, get_current_countdown_run.
  assert (Hnone : forall s,
            final_self (_display_no_countdowns host s t)
            = set_cached_images (cached_images s) s).
  { intros s. rewrite set_cached_images_same.
    apply (display_no_countdowns_loads_nothing host s t). }
  destruct (_get_enabled_countdowns self) as [|c l] eqn:E.
  - exists (cached_images self). simpl. rewrite Hnone. auto.
  - cbv zeta. set (self1 := if decide _ then _ else self).
    assert (Hs : self1 = self \/ self1 = set_current_countdown_index 0%nat self).
    { subst self1. destruct (decide _); auto. }
    clearbody self1. simpl.
    destruct ((c :: l) !! current_countdown_index self1) as [cc|];
      [|exists (cached_images self1); rewrite Hnone; auto].
    destruct (negb (entry_truthy cc));
      [exists (cached_images self1); rewrite Hnone; auto|].
    destruct (preserves_try (caches_at (cd_id cc)) _ _
                (display_frame_caches host cc force_clear)
                (loads_nothing_caches_at _ _ (display_error_loads_nothing host))
                self1 t) as ([m Hm] & _).
    exists m. unfold try_except in Hm. auto.
Qed.

(** ** Without a font manager *)

(** [preserves] through a bind whose first part answers a known value. *)
Lemma preserves_bind_post (R : Plugin -> trace -> Plugin -> trace -> Prop)
    `{!StepRel R} {A B} (m : M A) (k : A -> M B) (P : A -> Prop) :
  (forall self t a s' t', m self t = Done a s' t' -> P a) ->
  preserves R m -> (forall a, P a -> preserves R (k a)) ->
  preserves R (m ≫= k).
Proof.
  intros HP Hm Hk self t. specialize (Hm self t). specialize (HP self t).
  unfold mbind, M_bind. destruct (m self t) as [a s1 t1|e s1 t1]; simpl in *.
  - eapply step_trans; [exact Hm|]. apply Hk. eapply HP. reflexivity.
  - exact Hm.
Qed.

Section Fontless.

Context (host : Host) (Hno : forall t, host_has_font_manager host t = false).

Lemma frame_fonts_none (self : Plugin) (t : trace) :
  frame_fonts host self t = Done (None, None) self (t ++ [HasFontManager]).
Proof.
  unfold frame_fonts, try_except, has_font_manager, observe, mbind, M_bind.
  rewrite Hno. reflexivity.
Qed.

Lemma fallback_font_none (element_key family : string) (size_px : Z)
    (self : Plugin) (t : trace) :
  fallback_font host element_key family size_px self t
  = Done None self (t ++ [HasFontManager]).
Proof.
  unfold fallback_font, try_except, has_font_manager, observe, mbind, M_bind.
  rewrite Hno. reflexivity.
Qed.

Lemma frame_fonts_silent : preserves silent (frame_fonts host).
Proof. intros self t. rewrite frame_fonts_none. simpl. trace_facts. Qed.

Lemma fallback_font_silent (element_key family : string) (size_px : Z) :
  preserves silent (fallback_font host element_key family size_px).
Proof. intros self t. rewrite fallback_font_none. simpl. trace_facts. Qed.

(** [preserving], with the font lookups answering no font. *)
Ltac preserving_fontless :=
  repeat first
    [ apply (preserves_bind_post silent (frame_fonts host) _
               (fun a => a = (None, None)));
        [ intros ? ? ? ? ?; rewrite frame_fonts_none; congruence
        | apply frame_fonts_silent
        | intros ? -> ]
    | apply (preserves_bind_post silent (fallback_font host _ _ _) _
               (fun a => a = None));
        [ intros ? ? ? ? ?; rewrite fallback_font_none; congruence
        | apply fallback_font_silent
        | intros ? -> ]
    | apply preserves_ret; [typeclasses eauto]
    | apply preserves_get; [typeclasses eauto]
    | apply preserves_lift; [typeclasses eauto]
    | apply preserves_bind; [typeclasses eauto| |intros]
    | apply preserves_try; [typeclasses eauto| |]
    | apply preserves_modify
    | apply preserves_request
    | apply preserves_observe
    | match goal with
      | |- preserves _ (match ?x with _ => _ end) => destruct x
      | |- preserves _ (let '(_, _) := ?x in _) => destruct x
      end ].

Lemma display_no_countdowns_fontless : preserves silent (_display_no_countdowns host).
Proof.
  unfold _display_no_countdowns, two_lines, call.
  preserving_fontless; trace_facts.
Qed.

Lemma display_error_fontless : preserves silent (_display_error host).
Proof.
  unfold _display_error, two_lines, call.
  preserving_fontless; trace_facts.
Qed.

Lemma display_frame_fontless (cc : Countdown) (force_clear : bool) :
  preserves silent (display_frame host cc force_clear).
Proof.
  unfold display_frame, call.
  preserving_fontless;
    try (eapply preserves_weaken; [|apply draw_cached_image_step];
         intros ? ? ? ? [_ Hs]; exact Hs);
    trace_facts.
Qed.

End Fontless.

(** X23. On a host without a font manager [display] returns having drawn
    no text and asked for no highlight font, in every state. *)
Theorem no_font_manager_no_text (host : Host) (force_clear : bool) (self : Plugin)
    (t : trace) :
  (forall t1, host_has_font_manager host t1 = false) ->
  returned (display host force_clear self t) = true
  /\ drawn_texts (final_trace (display host force_clear self t)) = drawn_texts t
  /\ highlights (final_trace (display host force_clear self t)) = highlights t.
Proof.
  intros Hno.
  assert (Hs : silent self t (final_self (display host force_clear self t))
                 (final_trace (display host force_clear self t))).
  { rewrite display_run, get_current_countdown_run.
    destruct (_get_enabled_countdowns self) as [|c l];
      [apply (display_no_countdowns_fontless host Hno)|].
    cbv zeta. set (self1 := if decide _ then _ else self). clearbody self1.
    assert (Hrel : forall s, silent s t (final_self (_display_no_countdowns host s t))
                               (final_trace (_display_no_countdowns host s t)) ->
              silent self t (final_self (_display_no_countdowns host s t))
                (final_trace (_display_no_countdowns host s t))) by (intros s H; exact H).
    destruct (_ !! _) as [cc|];
      [|apply Hrel, (display_no_countdowns_fontless host Hno)].
    destruct (negb (entry_truthy cc));
      [apply Hrel, (display_no_countdowns_fontless host Hno)|].
    apply (preserves_try silent _ _
             (display_frame_fontless host Hno cc force_clear)
             (display_error_fontless host Hno) self1 t). }
  destruct Hs as (_ & D & H). split; [|split; assumption].
  rewrite display_run, get_current_countdown_run.
  destruct (_get_enabled_countdowns self) as [|c l]; [apply safe_no_countdowns|].
  cbv zeta. destruct (_ !! _) as [cc|]; [|apply safe_no_countdowns].
  destruct (negb (entry_truthy cc)); [apply safe_no_countdowns|].
  destruct (display_frame _ _ _ _ _); [reflexivity|apply safe_display_error].
Qed.

Lemma no_font_manager_no_text_witness :
  returned (display (no_fonts (mkdate 2024 3 1)) true (plugin_of [launch]) []) = true
  /\ drawn_texts
       (final_trace (display (no_fonts (mkdate 2024 3 1)) true (plugin_of [launch]) []))
     = drawn_texts []
  /\ highlights
       (final_trace (display (no_fonts (mkdate 2024 3 1)) true (plugin_of [launch]) []))
     = highlights [].
Proof.
  apply (no_font_manager_no_text (no_fonts (mkdate 2024 3 1)) true
           (plugin_of [launch]) []).
  intros t1. reflexivity.
Defined.

(** ** The size of the cached images *)

#[export] Instance keeps_fit_rel (size : Z * Z) : StepRel (keeps_fit size).
Proof.
  split; unfold keeps_fit.
  - auto.
  - intros s1 t1 s2 t2 s3 t3 H1 H2 H. auto.
Qed.

(** The canvas the loader returns has the size asked for. *)
Lemma load_result_size (host : Host) (image_path : string) (w h : Z)
    (self self' : Plugin) (t t' : trace) (canvas : Image) :
  _load_and_scale_image host image_path w h self t = Done (Some canvas) self' t' ->
  image_size canvas = (w, h).
Proof.
  unfold _load_and_scale_image.
  destruct (negb (str_truthy image_path)); [discriminate|].
  unfold mbind, M_bind, call, try_except, get_self, lift, mret, M_ret.
  unfold request.
  destruct (host_raises host t _); [discriminate|].
  destruct (host_resolved_path host t image_path) as [resolved|]; [|discriminate].
  destruct (negb (str_truthy resolved)); [discriminate|].
  destruct (host_raises host _ _); [discriminate|].
  destruct (negb (host_path_exists host _ resolved)); [discriminate|].
  destruct (host_raises host _ _); [discriminate|].
  destruct (if fit_to_display self && preserve_aspect_ratio self
            then _ else _) as [target s1 t1|]; [|discriminate].
  destruct (if (target.1 =? _) && _ then _ else _) as [img s2 t2|]; [|discriminate].
  repeat (match goal with
          | |- context [host_raises host ?t ?ev] =>
              destruct (host_raises host t ev); [discriminate|]
          end).
  intros [= <- _ _]. reflexivity.
Qed.

Lemma draw_cached_image_fits (host : Host) (cc : Countdown) (canvas : Image)
    (iw h : Z) :
  preserves (keeps_fit (iw, h)) (draw_cached_image host cc canvas iw h).
Proof.
  intros self t Hfit. unfold draw_cached_image.
  destruct (default [] (cd_image cc)) as [|[image_path|] rest]; try exact Hfit.
  destruct (str_truthy image_path); [|exact Hfit].
  unfold mbind, M_bind, get_self, call, modify_self, mret, M_ret.
  destruct (cached_images self !! cd_id cc) as [img|] eqn:Hc.
  - rewrite Hc. unfold request. destruct (host_raises host t _); exact Hfit.
  - destruct (load_reads_only host image_path iw h self t) as (Hs & _).
    destruct (_load_and_scale_image host image_path iw h self t)
      as [[img|] s1 t1|e s1 t1] eqn:E; simpl in Hs; subst s1; simpl.
    + pose proof (load_result_size _ _ _ _ _ _ _ _ _ E) as Hsz.
      assert (Hfit' : cache_fits (iw, h)
                        (set_cached_images (<[cd_id cc := img]> (cached_images self)) self)).
      { intros k img' Hk. destruct self; simpl in *.
        destruct (decide (k = cd_id cc)) as [->|Hne].
        - rewrite lookup_insert_eq in Hk. congruence.
        - rewrite lookup_insert_ne in Hk by congruence. eapply Hfit, Hk. }
      rewrite lookup_insert_eq. unfold request.
      destruct (host_raises host t1 _); exact Hfit'.
    + rewrite Hc. exact Hfit.
    + exact Hfit.
Qed.

Section FixedMatrix.

Context (host : Host) (W H : Z)
  (Hwidth : forall t, host_matrix_width host t = W)
  (Hheight : forall t, host_matrix_height host t = H).

Lemma matrix_width_answer (self : Plugin) (t : trace) (a : Z) (s' : Plugin)
    (t' : trace) :
  request host MatrixWidth (host_matrix_width host) self t = Done a s' t' -> a = W.
Proof.
  unfold request. destruct (host_raises host t _); [discriminate|].
  intros [= <- _ _]. apply Hwidth.
Qed.

Lemma matrix_height_answer (self : Plugin) (t : trace) (a : Z) (s' : Plugin)
    (t' : trace) :
  request host MatrixHeight (host_matrix_height host) self t = Done a s' t' -> a = H.
Proof.
  unfold request. destruct (host_raises host t _); [discriminate|].
  intros [= <- _ _]. apply Hheight.
Qed.

Lemma display_frame_fits (cc : Countdown) (force_clear : bool) :
  preserves (keeps_fit (W / 3, H)) (display_frame host cc force_clear).
Proof.
  unfold display_frame.
  apply (preserves_bind_post _ _ _ (fun a => a = W));
    [apply matrix_width_answer
    |apply preserves_request; intros ? ? Hf; exact Hf
    |intros ? ->].
  apply (preserves_bind_post _ _ _ (fun a => a = H));
    [apply matrix_height_answer
    |apply preserves_request; intros ? ? Hf; exact Hf
    |intros ? ->].
  unfold frame_fonts, today_font, call, resolve_font, has_font_manager.
  preserving; try apply draw_cached_image_fits; intros ? ? Hf; exact Hf.
Qed.

Lemma display_fits (force_clear : bool) :
  preserves (keeps_fit (W / 3, H)) (display host force_clear).
Proof.
  intros self t Hfit. rewrite display_run, get_current_countdown_run.
  assert (Hnone : forall s, cache_fits (W / 3, H) s ->
            cache_fits (W / 3, H) (final_self (_display_no_countdowns host s t))).
  { intros s Hs. destruct (display_no_countdowns_loads_nothing host s t) as (-> & _).
    exact Hs. }
  destruct (_get_enabled_countdowns self) as [|c l]; [apply Hnone, Hfit|].
  cbv zeta. set (self1 := if decide _ then _ else self).
  assert (Hfit1 : cache_fits (W / 3, H) self1).
  { subst self1. destruct (decide _); [|exact Hfit]. destruct self; exact Hfit. }
  clearbody self1.
  destruct (_ !! _) as [cc|]; [|apply Hnone, Hfit1].
  destruct (negb (entry_truthy cc)); [apply Hnone, Hfit1|].
  apply (preserves_try (keeps_fit (W / 3, H)) _ _ (display_frame_fits cc force_clear)).
  - intros s t0 Hs. destruct (display_error_loads_nothing host s t0) as (-> & _).
    exact Hs.
  - exact Hfit1.
Qed.

End FixedMatrix.

(** X24. On a matrix of fixed size W x H every cached image has the size
    of the image slot, W/3 x H: the cache is empty after the constructor,
    and [display], [update], [is_cycle_complete] and [on_config_change]
    keep the property. *)
Theorem cached_images_fit_slot (host : Host) (float_of_str : string -> option float)
    (W H : Z) :
  (forall t, host_matrix_width host t = W) ->
  (forall t, host_matrix_height host t = H) ->
  (forall plugin_id config t self t',
     __init__ host float_of_str plugin_id config t = (Return self, t') ->
     cache_fits (W / 3, H) self)
  /\ (forall self t,
        cache_fits (W / 3, H) self ->
        (forall force_clear,
           cache_fits (W / 3, H) (final_self (display host force_clear self t)))
        /\ cache_fits (W / 3, H) (final_self (update host self t))
        /\ cache_fits (W / 3, H) (final_self (is_cycle_complete host self t))
        /\ (forall new_config,
              cache_fits (W / 3, H)
                (final_self (on_config_change host float_of_str new_config self t)))).
Proof.
  intros Hwidth Hheight. split.
  - intros plugin_id config t self t' Hinit.
    destruct (init_cache_empty _ _ _ _ _ _ _ Hinit) as (Hc & _).
    intros k img. rewrite Hc, lookup_empty. discriminate.
  - intros self t Hfit. repeat split.
    + intros force_clear. apply (display_fits host W H Hwidth Hheight), Hfit.
    + destruct (update_keeps_cache host self t) as [Hc _].
      intros k img. rewrite Hc. apply Hfit.
    + destruct (is_cycle_complete_keeps_cache host self t) as [Hc _].
      intros k img. rewrite Hc. apply Hfit.
    + intros new_config.
      destruct (on_config_change_cache host float_of_str new_config self t) as [_ Hc].
      intros k img. rewrite Hc. destruct (_ && _); [|apply Hfit].
      rewrite lookup_empty. discriminate.
Qed.

Lemma cached_images_fit_slot_witness :
  cache_fits (64 / 3, 32)
    (final_self (display (steady (mkdate 2024 3 1)) false
                   (plugin_of [launch_with_image "a" "rocket.png"]) [])).
Proof.
  refine (proj1 (proj2
            (cached_images_fit_slot (steady (mkdate 2024 3 1)) decimal_float_of_str
               64 32 _ _)
            (plugin_of [launch_with_image "a" "rocket.png"]) [] _) false).
  - intros t. reflexivity.
  - intros t. reflexivity.
  - intros k img Hk. unfold plugin_of in Hk. simpl in Hk.
    rewrite lookup_empty in Hk. discriminate Hk.
Defined.

(** ** Plugin information *)

Lemma size_entry_ids (l : list Countdown) :
  (size (entry_ids l) <= List.length l)%nat.
Proof.
  unfold entry_ids. induction l as [|c l IH].
  - simpl map. rewrite list_to_set_nil, size_empty. reflexivity.
  - simpl map. simpl List.length. rewrite list_to_set_cons, size_union_alt.
    rewrite size_singleton.
    assert (Hsub : (list_to_set (map cd_id l) : gset (option string)) ∖ {[cd_id c]}
                   ⊆ list_to_set (map cd_id l)).
    { intros k Hk. apply elem_of_difference in Hk as [Hk _]. exact Hk. }
    apply subseteq_size in Hsub. lia.
Qed.

(** X25. [get_info] adds the four counts to the dictionary of the base
    class, overriding these four keys only; the enabled count is at most
    the entry count, and so is the count of cached images when the cache
    keys are identifiers of configured entries. *)
Theorem get_info_counts (base_info : gmap string pyval) (self : Plugin) :
  exists n e i c : nat,
    get_info base_info self !! "countdown_count" = Some (VInt (Z.of_nat n))
    /\ get_info base_info self !! "enabled_count" = Some (VInt (Z.of_nat e))
    /\ get_info base_info self !! "current_index" = Some (VInt (Z.of_nat i))
    /\ get_info base_info self !! "cached_images" = Some (VInt (Z.of_nat c))
    /\ (e <= n)%nat
    /\ (cache_within_entries self -> (c <= n)%nat)
    /\ forall k,
         k <> "countdown_count" -> k <> "enabled_count" -> k <> "current_index" ->
         k <> "cached_images" ->
         get_info base_info self !! k = base_info !! k.
Proof.
  exists (List.length (countdowns self)),
         (List.length (_get_enabled_countdowns self)),
         (current_countdown_index self), (size (cached_images self)).
  unfold get_info.
  repeat split.
  - rewrite !lookup_insert_ne by discriminate. apply lookup_insert_eq.
  - rewrite !lookup_insert_ne by discriminate. apply lookup_insert_eq.
  - rewrite !lookup_insert_ne by discriminate. apply lookup_insert_eq.
  - apply lookup_insert_eq.
  - rewrite get_enabled_countdowns_filter. apply filter_length_le.
  - intros Hinv. unfold cache_within_entries in Hinv.
    rewrite <- size_dom. etrans; [apply subseteq_size, Hinv|apply size_entry_ids].
  - intros k H1 H2 H3 H4. rewrite !lookup_insert_ne by congruence. reflexivity.
Qed.

(** ** Cleanup *)

(** X26. [cleanup] makes no host call, empties both caches and keeps the
    entries; the expiry of the entries being forgotten, the active list is
    then every entry whose 'enabled' flag is true; a second [cleanup]
    changes nothing. *)
Theorem cleanup_forgets_expiry (self : Plugin) (t : trace) :
  exists self',
    cleanup self t = Done tt self' t
    /\ cached_images self' = ∅ /\ countdown_values self' = ∅
    /\ countdowns self' = countdowns self
    /\ _get_enabled_countdowns self' = List.filter enabled_flag (countdowns self)
    /\ cleanup self' t = Done tt self' t.
Proof.
  rewrite cleanup_run. eexists. split; [reflexivity|].
  destruct self as [pid cfg fit par se bg ff fs fc nfs nfc cds idx lrt ci cv].
  repeat split.
  rewrite get_enabled_countdowns_filter. simpl.
  apply filter_ext. intros c. unfold shown, recorded_expired. simpl.
  rewrite lookup_empty. simpl. apply andb_true_r.
Qed.

(** ** Image paths *)

(** X27. [_resolve_image_path] answers [None] exactly on the empty path;
    otherwise the path itself, its absolute form or the path under the
    project root.  An absolute path that exists is returned as it is, and,
    when the absolute form of a path names the same file, the answer exists
    exactly when the path exists as given or under the project root. *)
Theorem resolve_image_path_outcome (fs : FileSystem) (image_path : string) :
  (_resolve_image_path fs image_path = None <-> image_path = "")
  /\ forall r,
       _resolve_image_path fs image_path = Some r ->
       (r = image_path \/ r = fs_abspath fs image_path
        \/ r = fs_project_path fs image_path)
       /\ (fs_isabs fs image_path = true -> fs_exists fs image_path = true ->
           r = image_path)
       /\ ((forall q, fs_exists fs (fs_abspath fs q) = fs_exists fs q) ->
           fs_exists fs r
           = fs_exists fs image_path || fs_exists fs (fs_project_path fs image_path)).
Proof.
  unfold _resolve_image_path, str_truthy.
  destruct (String.eqb_spec image_path "") as [->|Hne]; simpl.
  - split; [tauto|discriminate].
  - split; [split; [|contradiction]|].
    { repeat destruct (_ : bool); discriminate. }
    intros r.
    destruct (fs_isabs fs image_path) eqn:Habs,
      (fs_exists fs image_path) eqn:Hex; simpl;
      try destruct (fs_exists fs (fs_project_path fs image_path)) eqn:Hpr;
      intros [= <-]; repeat split; auto; try discriminate;
      intros Hsame; rewrite ?Hsame, ?Hex, ?Hpr; reflexivity.
Qed.

(** ** The filter after an update *)

Lemma unique_identifier (cs : list Countdown) (c c' : Countdown) :
  NoDup (map cd_id cs) -> c ∈ cs -> c' ∈ cs -> cd_id c = cd_id c' -> c = c'.
Proof.
  induction cs as [|x cs IH]; simpl; intros Hnd Hc Hc' Hid.
  - apply elem_of_nil in Hc. destruct Hc.
  - apply NoDup_cons in Hnd as [Hx Hnd].
    apply elem_of_cons in Hc as [->|Hc]; apply elem_of_cons in Hc' as [->|Hc'];
      try reflexivity; try (apply IH; assumption).
    + destruct Hx. rewrite Hid. apply list_elem_of_fmap. eauto.
    + destruct Hx. rewrite <- Hid. apply list_elem_of_fmap. eauto.
Qed.

(** X28. On a host whose current day is the valid date [today], with
    entries of distinct identifiers: after [update], an entry with a
    non-empty identifier and a non-empty target date is in the active list
    exactly when its 'enabled' flag is true and [show_expired] is set or
    the target date does not parse to a date before [today]. *)
Theorem listed_after_update (host : Host) (today : date) (self : Plugin)
    (t : trace) (c : Countdown) (s : string) :
  (forall t1, host_today host t1 = today) -> valid today = true ->
  NoDup (map cd_id (countdowns self)) ->
  c ∈ countdowns self -> opt_str_truthy (cd_id c) = true ->
  cd_target_date c = Some s -> str_truthy s = true ->
  (c ∈ _get_enabled_countdowns (final_self (update host self t))
   <-> enabled_flag c = true
       /\ (show_expired self = true
           \/ forall d, strptime_Ymd s = Some d -> date_lt d today = false)).
Proof.
  intros Hday Hvalid Hnd Hc Hid Hdate Hs.
  destruct (update_run_values host self t) as (m & t' & -> & Hm'). simpl.
  pose proof (fun k => recorded_on_day host today _ _ _ _ Hday (Hm' k)) as Hm.
  clear Hm'. rewrite get_enabled_countdowns_filter.
  replace (countdowns (set_countdown_values m self)) with (countdowns self)
    by (destruct self; reflexivity).
  rewrite list_elem_of_In, filter_In, <- list_elem_of_In.
  unfold shown, recorded_expired.
  replace (countdown_values (set_countdown_values m self)) with m
    by (destruct self; reflexivity).
  replace (show_expired (set_countdown_values m self)) with (show_expired self)
    by (destruct self; reflexivity).
  assert (Hrec : m !! cd_id c = Some (_calculate_time_remaining today s)).
  { rewrite Hm.
    destruct (List.find _ _) as [c'|] eqn:F.
    - apply find_some in F as [Hin Hrec].
      unfold recorded_by in Hrec. rewrite !andb_true_iff in Hrec.
      destruct Hrec as [[Heq%bool_decide_eq_true _] _].
      apply in_rev, list_elem_of_In in Hin.
      rewrite (unique_identifier _ _ _ Hnd Hin Hc Heq), Hdate. reflexivity.
    - apply list_elem_of_In, in_rev in Hc.
      pose proof (find_none _ _ F c Hc) as Hrec. unfold recorded_by in Hrec.
      rewrite bool_decide_eq_true_2, Hid, Hdate in Hrec by reflexivity.
      simpl in Hrec. congruence. }
  rewrite Hrec.
  assert (Hexp : is_expired (_calculate_time_remaining today s) = true
                 <-> exists d, strptime_Ymd s = Some d /\ date_lt d today = true).
  { unfold _calculate_time_remaining.
    destruct (strptime_Ymd s) as [d|] eqn:E.
    2:{ simpl. split; [discriminate|intros (d & [=] & _)]. }
    pose proof (strptime_valid s d E) as Hd.
    destruct (ordinal_order d today Hd Hvalid) as [Hlt _].
    unfold remaining, days_between.
    destruct (Z.ltb_spec (toordinal d - toordinal today) 0) as [H|H]; simpl.
    - split; [intros _; exists d; split; [reflexivity|apply Hlt; lia]|reflexivity].
    - assert (Hn : date_lt d today <> true) by (rewrite <- Hlt; lia).
      destruct (_ =? 0); [|destruct (_ =? 1)]; simpl;
        (split; [discriminate|intros (d' & [= <-] & Hd'); contradiction]). }
  rewrite andb_true_iff, orb_true_iff, negb_true_iff.
  split.
  - intros (_ & He & Hshow). split; [exact He|].
    destruct Hshow as [Hshow|Hshow]; [right|left; exact Hshow].
    intros d Hd. destruct (date_lt d today) eqn:Hlt; [|reflexivity].
    assert (is_expired (_calculate_time_remaining today s) = true)
      by (apply Hexp; eauto).
    congruence.
  - intros (He & Hshow). split; [exact Hc|]. split; [exact He|].
    destruct Hshow as [Hshow|Hshow]; [right; exact Hshow|left].
    destruct (is_expired _) eqn:Hx; [|reflexivity].
    destruct (proj1 Hexp eq_refl) as (d & Hd & Hlt).
    rewrite (Hshow d Hd) in Hlt. discriminate.
Qed.

Lemma listed_after_update_witness :
  launch ∈ _get_enabled_countdowns
             (final_self (update (steady (mkdate 2024 3 1)) (plugin_of [launch]) []))
  <-> enabled_flag launch = true
      /\ (show_expired (plugin_of [launch]) = true
          \/ forall d, strptime_Ymd "2030-01-01" = Some d ->
                       date_lt d (mkdate 2024 3 1) = false).
Proof.
  apply (listed_after_update (steady (mkdate 2024 3 1)) (mkdate 2024 3 1)
           (plugin_of [launch]) [] launch "2030-01-01").
  - intros t1. reflexivity.
  - reflexivity.
  - apply NoDup_singleton.
  - apply list_elem_of_here.
  - reflexivity.
  - reflexivity.
  - reflexivity.
Defined.

(** ** Examples *)

(** An entry whose identifier is the empty string passes the validation,
    and [update] never computes its value. *)
Example empty_identifier_is_validated_and_skipped :
  let nameless :=
    mkCountdown (Some "") (Some "Launch") (Some "2030-01-01") None None None in
  validate_config true (plugin_of [nameless]) = true
  /\ countdown_values
       (final_self (update (steady (mkdate 2024 3 1)) (plugin_of [nameless]) []))
     = ∅.
Proof. split; reflexivity. Qed.

(** Of two entries with the same identifier, the later one in display
    order gives the value. *)
Example duplicate_identifier_last_wins :
  let first := mkCountdown (Some "a") (Some "One") (Some "2024-03-02") None None None in
  let second := mkCountdown (Some "a") (Some "Two") (Some "2024-03-05") None None None in
  countdown_values
    (final_self (update (steady (mkdate 2024 3 1)) (plugin_of [first; second]) []))
    !! Some "a"
  = Some (mkResult 4 0 0 false false "4 Days").
Proof. reflexivity. Qed.

(** An image file 0 pixels wide: the division by zero of the fit size is
    caught, and nothing is cached or pasted. *)
Example empty_image_is_not_cached :
  let self := plugin_of [launch_with_image "a" "rocket.png"] in
  let out := display (flat_images (mkdate 2024 3 1)) false self [] in
  cached_images (final_self out) = ∅
  /\ drawn_texts (final_trace out) = ["Launch"; "---"].
Proof. vm_compute. split; reflexivity. Qed.

(** A change of [show_expired] in the configuration is not picked up. *)
Example show_expired_is_not_reloaded :
  let cfg :=
    mkConfig None None (Some true) None None None None None None
      (Some (Entries [launch])) None in
  show_expired
    (final_self (on_config_change (steady (mkdate 2024 3 1)) decimal_float_of_str cfg
                   (plugin_of [launch]) []))
  = false.
Proof. reflexivity. Qed.
